(** * The booking engine of the mock Airbnb MCP server

    A shallow embedding of [src/mcp_servers/tau2_mock_airbnb/server.py]:
    the JSON database, the tools that read it (lookups and the cost quote)
    and the tools that change it ([create_booking], [cancel_booking],
    [add_review]), followed by the properties of the engine.

    Conventions of the embedding.
    - The database is the content of [db.json]; every tool starts with
      [load_db()] and the mutating tools end with [save_db(db)].  A tool is a
      computation in the monad [M] whose state holds the file and the
      dictionary bound to the local variable [db].
    - Python dictionaries are finite maps ([gmap]); a dictionary that is only
      tested for membership is a finite set of its keys.
    - A string holds the UTF-8 encoding of a Python [str].
    - A date string "YYYY-MM-DD" is identified with the day it denotes, counted
      as [datetime.toordinal] does ([ordinal]); [strptime], [strftime] and
      [timedelta(days=1)] are then the identity and the successor, and the
      keys of a calendar are days.  Argument strings are taken to be
      well-formed dates.
    - [datetime.now()] is an argument [today] of the tools that read it.
    - Floating-point arithmetic is IEEE 754 binary64, taken from the
      specification [SpecFloat] of the standard library.
    - The tools whose result follows the order of a dictionary
      ([get_property_reviews], [list_cities], [search_properties]) are given
      the dictionary as the list of its values or items, in that order; a
      property then comes with the location and type that these tools read. *)

From Stdlib Require Import ZArith NArith Lia Bool Ascii String.
From Stdlib Require Import DecimalString DecimalN.
From Stdlib Require Import Floats.SpecFloat.
From Stdlib Require Import OrdersEx Sorted.
From stdpp Require Import base option list gmap strings.

Local Open Scope string_scope.
Local Open Scope Z_scope.

(** ** Dates *)

Abbreviation date := Z.

Definition is_leap (y : Z) : bool :=
  (y mod 4 =? 0) && (negb (y mod 100 =? 0) || (y mod 400 =? 0)).

Definition days_before_month (y m : Z) : Z :=
  nth (Z.to_nat (m - 1)) [0; 31; 59; 90; 120; 151; 181; 212; 243; 273; 304; 334] 0
  + (if (2 <? m) && is_leap y then 1 else 0).

(** [datetime(y, m, d).toordinal()]: 1 is 0001-01-01. *)
Definition ordinal (y m d : Z) : date :=
  let y' := y - 1 in
  y' * 365 + y' / 4 - y' / 100 + y' / 400 + days_before_month y m + d.

(** The dates visited by [while current_date < end_date: ...
    current_date += timedelta(days=1)], in order. *)
Definition date_range (check_in check_out : date) : list date :=
  seqZ check_in (check_out - check_in).

(** ** The database *)

Record DayInfo := mkDayInfo {
  status : string;
  price_per_night : Z
}.

Record Property := mkProperty {
  capacity_guests : Z;                      (* prop["capacity"]["guests"] *)
  availability : gmap Z DayInfo             (* prop["availability"], keyed by date *)
}.

Record User := mkUser {
  payment_methods : gset string;            (* keys of user["payment_methods"] *)
  user_bookings : list string               (* user["bookings"] *)
}.

Record Booking := mkBooking {
  booking_id : string;
  user_id : string;
  property_id : string;
  check_in_date : date;
  check_out_date : date;
  nights : Z;
  guest_count : Z;
  booking_status : string;                  (* booking["status"] *)
  total_price : Z;
  booking_date : date;
  payment_method_id : string;
  special_requests : string;
  cancellation_policy : string;
  host_notes : string;
  cancellation_reason : option string;      (* key absent until cancelled *)
  cancellation_date : option date
}.

Record Review := mkReview {
  review_id : string;
  review_booking_id : string;
  review_user_id : string;
  review_property_id : string;
  rating : Z;
  comment : string;
  review_date : date;
  helpful_votes : Z
}.

Record DB := mkDB {
  properties : gmap string Property;
  users : gmap string User;
  bookings : gmap string Booking;
  reviews : gmap string Review
}.

(** The dictionary [load_db] returns when [db.json] does not exist. *)
Definition empty_db : DB := mkDB ∅ ∅ ∅ ∅.

(** In-place updates of the nested dictionaries. *)

Definition set_status (s : string) (day_info : DayInfo) : DayInfo :=
  mkDayInfo s (price_per_night day_info).

Definition set_availability (a : gmap Z DayInfo) (p : Property) : Property :=
  mkProperty (capacity_guests p) a.

Definition append_booking (bid : string) (u : User) : User :=
  mkUser (payment_methods u) (user_bookings u ++ [bid]).

Definition set_properties (ps : gmap string Property) (db : DB) : DB :=
  mkDB ps (users db) (bookings db) (reviews db).

Definition set_users (us : gmap string User) (db : DB) : DB :=
  mkDB (properties db) us (bookings db) (reviews db).

Definition set_bookings (bs : gmap string Booking) (db : DB) : DB :=
  mkDB (properties db) (users db) bs (reviews db).

Definition set_reviews (rs : gmap string Review) (db : DB) : DB :=
  mkDB (properties db) (users db) (bookings db) rs.

(** [booking["status"] = "cancelled"; booking["cancellation_reason"] = reason;
    booking["cancellation_date"] = now] *)
Definition mark_cancelled (reason : string) (today : date) (b : Booking) : Booking :=
  mkBooking (booking_id b) (user_id b) (property_id b) (check_in_date b)
    (check_out_date b) (nights b) (guest_count b) "cancelled" (total_price b)
    (booking_date b) (payment_method_id b) (special_requests b)
    (cancellation_policy b) (host_notes b) (Some reason) (Some today).

(** ** Exceptions *)

(** The texts of the [ValueError]s the server raises, with their arguments. *)
Inductive Message :=
  | User_not_found (uid : string)                 (* "User {user_id} not found" *)
  | Property_not_found (pid : string)             (* "Property {property_id} not found" *)
  | Payment_method_not_found (pm : string)        (* "Payment method {..} not found for user" *)
  | Property_can_only_accommodate (guests : Z)    (* "Property can only accommodate {..} guests" *)
  | Check_out_must_be_after_check_in              (* "Check-out date must be after check-in date" *)
  | Property_not_available_on (d : date)          (* "Property not available on {date_str}" *)
  | Booking_not_found (bid : string)              (* "Booking {booking_id} not found" *)
  | Booking_is_already_cancelled                  (* "Booking is already cancelled" *)
  | Cannot_cancel_completed_booking               (* "Cannot cancel completed booking" *)
  | Can_only_review_completed_bookings            (* "Can only review completed bookings" *)
  | Rating_must_be_between_1_and_5                (* "Rating must be between 1 and 5" *)
  | Invalid_literal_for_int                       (* raised by int() of a string *)
  | Cannot_convert_float_NaN_to_integer.          (* raised by int() of a float *)

Inductive Exn :=
  | ValueError (msg : Message)
  | KeyError (key : string)
  | KeyError_date (key : date)
  | OverflowError.

Inductive Res (A : Type) :=
  | Return (a : A)
  | Raise (e : Exn).
Arguments Return {A} a.
Arguments Raise {A} e.

Definition succeeded {A} (r : Res A) : bool :=
  match r with Return _ => true | Raise _ => false end.

(** ** The monad of a tool call *)

Record Store := mkStore {
  file : option DB;     (* db.json; None when the file does not exist *)
  mem : DB              (* the dictionary bound to the local variable db *)
}.

Definition M (A : Type) : Type := Store -> Res A * Store.

Definition ret {A} (a : A) : M A := fun s => (Return a, s).

Definition bind {A B} (m : M A) (k : A -> M B) : M B :=
  fun s => match m s with
           | (Return a, s') => k a s'
           | (Raise e, s') => (Raise e, s')
           end.

Definition raise {A} (e : Exn) : M A := fun s => (Raise e, s).

Definition get_db : M DB := fun s => (Return (mem s), s).

Definition modify_db (f : DB -> DB) : M unit :=
  fun s => (Return tt, mkStore (file s) (f (mem s))).

Definition lift {A} (r : Res A) : M A := fun s => (r, s).

#[global] Instance M_ret : MRet M := @ret.
#[global] Instance M_bind : MBind M := fun A B k m => bind m k.

(** [if c: raise e] *)
Definition raise_if (c : bool) (e : Exn) : M unit :=
  if c then raise e else ret tt.

(** [db = load_db()] *)
Definition load_db : M unit :=
  fun s => (Return tt, mkStore (file s) (default empty_db (file s))).

(** [save_db(db)] *)
Definition save_db : M unit :=
  fun s => (Return tt, mkStore (Some (mem s)) (mem s)).

(** A tool call against the file: the outcome and the file afterwards. *)
Definition call {A} (tool : M A) (f : option DB) : Res A * option DB :=
  let '(r, s) := tool (mkStore f empty_db) in (r, file s).

#[global] Instance Res_ret : MRet Res := @Return.
#[global] Instance Res_bind : MBind Res := fun A B k r =>
  match r with Return a => k a | Raise e => Raise e end.

(** [d[k]] *)
Definition subscript {V} (d : gmap string V) (k : string) : M V :=
  match d !! k with
  | Some v => mret v
  | None => raise (KeyError k)
  end.

(** [for x in l: body(x)] *)
Fixpoint for_each {A} (l : list A) (body : A -> M unit) : M unit :=
  match l with
  | [] => mret tt
  | x :: rest => body x;; for_each rest body
  end.

(** ** Python built-ins used by the id generators *)

(** [s.replace(old, "")]: the occurrences of [old] are removed from left to
    right; [skip] counts the characters of a matched occurrence that remain
    to be dropped. *)
Fixpoint remove_occurrences (old : string) (skip : nat) (s : string) : string :=
  match s with
  | EmptyString => EmptyString
  | String c rest =>
      match skip with
      | S k => remove_occurrences old k rest
      | O => if String.prefix old s
             then remove_occurrences old (Nat.pred (String.length old)) rest
             else String c (remove_occurrences old O rest)
      end
  end.

Definition replace_with_empty (old s : string) : string :=
  remove_occurrences old 0 s.

(** *** [int(s)]

    As CPython does, [int] first replaces the characters of the string that
    are not ASCII, a space by " " and a decimal digit of any script by its
    ASCII digit, and fails on any other; it then reads the literal: blanks,
    a sign, decimal digits with single underscores between them, blanks.
    The interpreter's limit on the length of a literal (4300 digits unless
    configured otherwise, see [sys.set_int_max_str_digits]) is a setting of
    the process and is not part of the model. *)

(** The characters other than ASCII for which [str.isspace] holds, and the
    digit zero of the scripts other than ASCII that have decimal digits
    (Unicode 14.0); the digits of a script follow its zero. *)
Definition unicode_spaces : list N :=
  [133; 160; 5760; 8192; 8193; 8194; 8195; 8196; 8197; 8198; 8199; 8200; 8201;
   8202; 8232; 8233; 8239; 8287; 12288]%N.

Definition unicode_zeros : list N :=
  [1632; 1776; 1984; 2406; 2534; 2662; 2790; 2918; 3046; 3174; 3302;
   3430; 3558; 3664; 3792; 3872; 4160; 4240; 6112; 6160; 6470; 6608;
   6784; 6800; 6992; 7088; 7232; 7248; 42528; 43216; 43264; 43472; 43504;
   43600; 44016; 65296; 66720; 68912; 69734; 69872; 69942; 70096; 70384; 70736;
   70864; 71248; 71360; 71472; 71904; 72016; 72784; 73040; 73120; 92768; 92864;
   93008; 120782; 120792; 120802; 120812; 120822; 123200; 123632; 125264; 130032]%N.

(** [_PyUnicode_TransformDecimalAndSpaceToASCII] on a character that is not
    ASCII. *)
Definition transform (code_point : N) : option ascii :=
  if bool_decide (code_point ∈ unicode_spaces) then Some " "%char
  else (fun zero => ascii_of_N (48 + (code_point - zero)))
       <$> find (fun zero => (zero <=? code_point) && (code_point <=? zero + 9))%N
             unicode_zeros.

(** The value of a continuation byte of UTF-8. *)
Definition continuation (c : ascii) : option N :=
  let n := N_of_ascii c in
  if ((128 <=? n) && (n <? 192))%N then Some (n - 128)%N else None.

(** The string with its characters replaced.  A string holds the UTF-8
    encoding of a Python str; there is no result when a character is neither
    ASCII, a space nor a decimal digit. *)
Fixpoint to_ascii (s : string) : option string :=
  match s with
  | EmptyString => Some EmptyString
  | String c rest =>
      let n := N_of_ascii c in
      if (n <? 128)%N then String c <$> to_ascii rest
      else if (n <? 194)%N then None
      else if (n <? 224)%N then
        match rest with
        | String c1 rest1 =>
            x1 ← continuation c1;
            a ← transform ((n - 192) * 64 + x1)%N;
            String a <$> to_ascii rest1
        | _ => None
        end
      else if (n <? 240)%N then
        match rest with
        | String c1 (String c2 rest2) =>
            x1 ← continuation c1;
            x2 ← continuation c2;
            let code_point := ((n - 224) * 4096 + x1 * 64 + x2)%N in
            if ((code_point <? 2048) ||
                ((55296 <=? code_point) && (code_point <? 57344)))%N
            then None
            else a ← transform code_point; String a <$> to_ascii rest2
        | _ => None
        end
      else if (n <? 245)%N then
        match rest with
        | String c1 (String c2 (String c3 rest3)) =>
            x1 ← continuation c1;
            x2 ← continuation c2;
            x3 ← continuation c3;
            let code_point := ((n - 240) * 262144 + x1 * 4096 + x2 * 64 + x3)%N in
            if ((code_point <? 65536) || (1114111 <? code_point))%N then None
            else a ← transform code_point; String a <$> to_ascii rest3
        | _ => None
        end
      else None
  end.

(** [Py_ISSPACE]: the blank, and the characters from "\t" to "\r". *)
Definition is_space (c : ascii) : bool :=
  let n := N_of_ascii c in ((n =? 32) || ((9 <=? n) && (n <=? 13)))%N.

Fixpoint strip_left (s : string) : string :=
  match s with
  | String c rest => if is_space c then strip_left rest else s
  | EmptyString => EmptyString
  end.

Fixpoint strip_right (s : string) : string :=
  match s with
  | String c rest =>
      match strip_right rest with
      | EmptyString => if is_space c then EmptyString else String c EmptyString
      | rest' => String c rest'
      end
  | EmptyString => EmptyString
  end.

(** The characters of a literal without its underscores; an underscore
    stands between two characters, and the literal is not empty. *)
Fixpoint without_underscores (s : string) (after_digit : bool) : option string :=
  match s with
  | EmptyString => if after_digit then Some EmptyString else None
  | String c rest =>
      if Ascii.eqb c "_"
      then if after_digit then without_underscores rest false else None
      else String c <$> without_underscores rest true
  end.

(** [int(s)] *)
Definition int (s : string) : Res Z :=
  match
    a ← to_ascii s;
    let literal := strip_right (strip_left a) in
    let '(negative, literal) :=
      match literal with
      | String "+" rest => (false, rest)
      | String "-" rest => (true, rest)
      | _ => (false, literal)
      end in
    digits ← without_underscores literal false;
    u ← NilEmpty.uint_of_string digits;
    Some (if negative : bool then - Z.of_N (N.of_uint u) else Z.of_N (N.of_uint u))
  with
  | Some n => Return n
  | None => Raise (ValueError Invalid_literal_for_int)
  end.

Fixpoint zeros (n : nat) : string :=
  match n with O => EmptyString | S k => String "0"%char (zeros k) end.

(** [f"{n:03d}"] *)
Definition format_03d (n : Z) : string :=
  let digits := NilEmpty.string_of_uint (N.to_uint (Z.abs_N n)) in
  if n <? 0
  then String "-"%char (zeros (2 - String.length digits) +:+ digits)
  else zeros (3 - String.length digits) +:+ digits.

(** [max(l, default=d)] *)
Definition max_default (l : list Z) (d : Z) : Z :=
  match l with
  | [] => d
  | x :: rest => foldl Z.max x rest
  end.

(** [[int(k.replace(prefix, "")) for k in keys]] *)
Fixpoint numeric_suffixes (prefix : string) (keys : list string) : Res (list Z) :=
  match keys with
  | [] => Return []
  | k :: rest =>
      n ← int (replace_with_empty prefix k);
      ns ← numeric_suffixes prefix rest;
      mret (n :: ns)
  end.

(** The id scheme shared by [get_next_booking_id] and [add_review]. *)
Definition next_id (prefix : string) (keys : list string) : Res string :=
  existing_ids ← numeric_suffixes prefix keys;
  let next := max_default existing_ids 0 + 1 in
  mret (prefix +:+ format_03d next).

Definition get_next_booking_id (db : DB) : Res string :=
  next_id "BOOK" (map fst (map_to_list (bookings db))).

(** ** Floating point: IEEE 754 binary64 *)

Definition prec : Z := 53.
Definition emax : Z := 1024.

(** Python's conversion of an int operand to float: correctly rounded, and
    [OverflowError] when the int is too large. *)
Definition float_of_int (n : Z) : Res spec_float :=
  match binary_normalize prec emax n 0 false with
  | S754_infinity _ => Raise OverflowError
  | x => Return x
  end.

(** [int(x)] of a float: truncation toward zero. *)
Definition int_of_float (x : spec_float) : Res Z :=
  match x with
  | S754_zero _ => Return 0
  | S754_finite s m e =>
      Return (cond_Zopp s (if 0 <=? e then Z.pos m * 2 ^ e else Z.pos m / 2 ^ (- e)))
  | S754_infinity _ => Raise OverflowError
  | S754_nan => Raise (ValueError Cannot_convert_float_NaN_to_integer)
  end.

(** The doubles denoted by the literals [0.12] and [0.08], that is
    0x1.eb851eb851eb8p-4 and 0x1.47ae147ae147bp-4, as mantissa and exponent. *)
Definition literal_0_12 : spec_float := S754_finite false 8646911284551352 (-56).
Definition literal_0_08 : spec_float := S754_finite false 5764607523034235 (-56).

(** [int(n * x)] for an int [n] and a float [x]. *)
Definition int_times_float (n : Z) (x : spec_float) : Res Z :=
  y ← float_of_int n;
  int_of_float (SFmul prec emax y x).

(** ** The tools of the server *)

(** The value of [d.get(k, {})]. *)
Inductive Lookup (A : Type) :=
  | Found (a : A)
  | Empty_dict.
Arguments Found {A} a.
Arguments Empty_dict {A}.

Definition dict_get {V} (d : gmap string V) (k : string) : Lookup V :=
  match d !! k with
  | Some v => Found v
  | None => Empty_dict
  end.

Definition get_property_details (property_id : string) : M (Lookup Property) :=
  load_db;;
  db ← get_db;
  mret (dict_get (properties db) property_id).

Definition get_user_profile (user_id : string) : M (Lookup User) :=
  load_db;;
  db ← get_db;
  mret (dict_get (users db) user_id).

Definition get_booking_details (booking_id : string) : M (Lookup Booking) :=
  load_db;;
  db ← get_db;
  mret (dict_get (bookings db) booking_id).

(** The loop of [get_user_bookings]: ids without a booking are skipped. *)
Fixpoint collect_bookings (bs : gmap string Booking) (ids : list string) : list Booking :=
  match ids with
  | [] => []
  | booking_id :: rest =>
      match bs !! booking_id with
      | Some b => b :: collect_bookings bs rest
      | None => collect_bookings bs rest
      end
  end.

Definition get_user_bookings (user_id : string) : M (list Booking) :=
  load_db;;
  db ← get_db;
  if bool_decide (user_id ∉ dom (users db)) then mret []
  else
    user ← subscript (users db) user_id;
    mret (collect_bookings (bookings db) (user_bookings user)).

(** The availability loop of [create_booking] (lines 201-209): every night
    must be in the calendar with status "available"; the prices are summed. *)
Fixpoint check_nights (avail : gmap Z DayInfo) (dates : list date) (total_price : Z)
  : Res Z :=
  match dates with
  | [] => Return total_price
  | d :: rest =>
      match avail !! d with
      | None => Raise (ValueError (Property_not_available_on d))
      | Some day_info =>
          if bool_decide (status day_info ≠ "available")
          then Raise (ValueError (Property_not_available_on d))
          else check_nights avail rest (total_price + price_per_night day_info)
      end
  end.

(** [db["properties"][pid]["availability"][d]["status"] = s] *)
Definition set_day_status (pid : string) (d : date) (s : string) : M unit :=
  db ← get_db;
  property_data ← subscript (properties db) pid;
  match availability property_data !! d with
  | None => raise (KeyError_date d)
  | Some day_info =>
      modify_db (set_properties
        (<[pid := set_availability
                    (<[d := set_status s day_info]> (availability property_data))
                    property_data]> (properties db)))
  end.

(** [create_booking] after [db = load_db()] (lines 171-242). *)
Definition create_booking_body (today : date) (user_id property_id : string)
    (check_in_date check_out_date : date) (guest_count : Z)
    (payment_method_id special_requests : string) : M Booking :=
  db ← get_db;
  raise_if (bool_decide (user_id ∉ dom (users db)))
    (ValueError (User_not_found user_id));;
  raise_if (bool_decide (property_id ∉ dom (properties db)))
    (ValueError (Property_not_found property_id));;
  user ← subscript (users db) user_id;
  property_data ← subscript (properties db) property_id;
  raise_if (bool_decide (payment_method_id ∉ payment_methods user))
    (ValueError (Payment_method_not_found payment_method_id));;
  raise_if (guest_count >? capacity_guests property_data)
    (ValueError (Property_can_only_accommodate (capacity_guests property_data)));;
  let nights := check_out_date - check_in_date in
  raise_if (nights <=? 0) (ValueError Check_out_must_be_after_check_in);;
  total_price ← lift (check_nights (availability property_data)
                        (date_range check_in_date check_out_date) 0);
  booking_id ← lift (get_next_booking_id db);
  let booking :=
    mkBooking booking_id user_id property_id check_in_date check_out_date nights
      guest_count "confirmed" total_price today payment_method_id
      special_requests "moderate" "" None None in
  modify_db (fun db => set_bookings (<[booking_id := booking]> (bookings db)) db);;
  modify_db (fun db => set_users (alter (append_booking booking_id) user_id (users db)) db);;
  for_each (date_range check_in_date check_out_date)
    (fun d => set_day_status property_id d "booked");;
  save_db;;
  mret booking.

Definition create_booking (today : date) (user_id property_id : string)
    (check_in_date check_out_date : date) (guest_count : Z)
    (payment_method_id special_requests : string) : M Booking :=
  load_db;;
  create_booking_body today user_id property_id check_in_date check_out_date
    guest_count payment_method_id special_requests.

(** One turn of the release loop of [cancel_booking] (lines 317-319). *)
Definition release_day (pid : string) (d : date) : M unit :=
  db ← get_db;
  property_data ← subscript (properties db) pid;
  if bool_decide (d ∈ dom (availability property_data))
  then set_day_status pid d "available"
  else mret tt.

(** [cancel_booking] after [db = load_db()] (lines 295-323). *)
Definition cancel_booking_body (today : date) (booking_id reason : string) : M Booking :=
  db ← get_db;
  raise_if (bool_decide (booking_id ∉ dom (bookings db)))
    (ValueError (Booking_not_found booking_id));;
  booking ← subscript (bookings db) booking_id;
  raise_if (bool_decide (booking_status booking = "cancelled"))
    (ValueError Booking_is_already_cancelled);;
  raise_if (bool_decide (booking_status booking = "completed"))
    (ValueError Cannot_cancel_completed_booking);;
  modify_db (fun db =>
    set_bookings (alter (mark_cancelled reason today) booking_id (bookings db)) db);;
  db ← get_db;
  _ ← subscript (properties db) (property_id booking);
  for_each (date_range (check_in_date booking) (check_out_date booking))
    (release_day (property_id booking));;
  save_db;;
  db ← get_db;
  subscript (bookings db) booking_id.

Definition cancel_booking (today : date) (booking_id reason : string) : M Booking :=
  load_db;;
  cancel_booking_body today booking_id reason.

(** [add_review] (lines 342-374). *)
Definition add_review (today : date) (booking_id : string) (rating : Z)
    (comment : string) : M Review :=
  load_db;;
  db ← get_db;
  raise_if (bool_decide (booking_id ∉ dom (bookings db)))
    (ValueError (Booking_not_found booking_id));;
  booking ← subscript (bookings db) booking_id;
  raise_if (bool_decide (booking_status booking ≠ "completed"))
    (ValueError Can_only_review_completed_bookings);;
  raise_if (negb ((1 <=? rating) && (rating <=? 5)))
    (ValueError Rating_must_be_between_1_and_5);;
  review_id ← lift (next_id "REV" (map fst (map_to_list (reviews db))));
  let review :=
    mkReview review_id booking_id (user_id booking) (property_id booking)
      rating comment today 0 in
  modify_db (fun db => set_reviews (<[review_id := review]> (reviews db)) db);;
  save_db;;
  mret review.

(** The result of [calculate_booking_cost]. *)
Record Cost := mkCost {
  cost_property_id : string;
  cost_check_in_date : date;
  cost_check_out_date : date;
  cost_nights : Z;
  nightly_costs : list (date * Z);
  subtotal : Z;
  service_fee : Z;
  cleaning_fee : Z;
  taxes : Z;
  total : Z
}.

(** The loop of [calculate_booking_cost] (lines 430-442). *)
Fixpoint quote_nights (avail : gmap Z DayInfo) (dates : list date)
    (nightly_costs : list (date * Z)) (total_price : Z) : Res (list (date * Z) * Z) :=
  match dates with
  | [] => Return (nightly_costs, total_price)
  | d :: rest =>
      match avail !! d with
      | None => Raise (ValueError (Property_not_available_on d))
      | Some day_info =>
          if bool_decide (status day_info ≠ "available")
          then Raise (ValueError (Property_not_available_on d))
          else quote_nights avail rest
                 (nightly_costs ++ [(d, price_per_night day_info)])
                 (total_price + price_per_night day_info)
      end
  end.

(** The fees of [calculate_booking_cost] (lines 444-460). *)
Definition fees (property_id : string) (check_in_date check_out_date : date)
    (nights : Z) (nightly_costs : list (date * Z)) (total_price : Z) : Res Cost :=
  service_fee ← int_times_float total_price literal_0_12;
  let cleaning_fee := 50 in
  taxes ← int_times_float (total_price + service_fee + cleaning_fee) literal_0_08;
  mret (mkCost property_id check_in_date check_out_date nights nightly_costs
          total_price service_fee cleaning_fee taxes
          (total_price + service_fee + cleaning_fee + taxes)).

Definition calculate_booking_cost (property_id : string)
    (check_in_date check_out_date : date) : M Cost :=
  load_db;;
  db ← get_db;
  raise_if (bool_decide (property_id ∉ dom (properties db)))
    (ValueError (Property_not_found property_id));;
  property_data ← subscript (properties db) property_id;
  let nights := check_out_date - check_in_date in
  raise_if (nights <=? 0) (ValueError Check_out_must_be_after_check_in);;
  '(nightly_costs, total_price) ←
     lift (quote_nights (availability property_data)
             (date_range check_in_date check_out_date) [] 0);
  lift (fees property_id check_in_date check_out_date nights nightly_costs total_price).

(** ** Notions used to state the properties *)

(** The database a tool sees when it loads the file. *)
Definition database (f : option DB) : DB := default empty_db f.

(** The arguments of a [create_booking] call. *)
Record Request := mkRequest {
  req_today : date;
  req_user : string;
  req_property : string;
  req_check_in : date;
  req_check_out : date;
  req_guests : Z;
  req_payment : string;
  req_special : string
}.

Definition book (r : Request) : M Booking :=
  create_booking (req_today r) (req_user r) (req_property r) (req_check_in r)
    (req_check_out r) (req_guests r) (req_payment r) (req_special r).

Definition book_body (r : Request) : M Booking :=
  create_booking_body (req_today r) (req_user r) (req_property r) (req_check_in r)
    (req_check_out r) (req_guests r) (req_payment r) (req_special r).

(** Sequences of mutating calls against the file. *)
Inductive Op :=
  | Create (r : Request)
  | Cancel (today : date) (booking_id reason : string).

Definition run_op (f : option DB) (op : Op) : option DB :=
  match op with
  | Create r => snd (call (book r) f)
  | Cancel today booking_id reason => snd (call (cancel_booking today booking_id reason) f)
  end.

Definition run_ops (ops : list Op) (f : option DB) : option DB :=
  foldl run_op f ops.

(** [n] successive calls of one tool: the outcomes and the file afterwards. *)
Fixpoint repeat_call {A} (n : nat) (tool : M A) (f : option DB)
  : list (Res A) * option DB :=
  match n with
  | O => ([], f)
  | S k => let '(r, f') := call tool f in
           let '(rs, f'') := repeat_call k tool f' in
           (r :: rs, f'')
  end.

(** Day [d] is in the calendar of property [pid], with status [s]. *)
Definition day_has_status (db : DB) (pid : string) (d : date) (s : string) : Prop :=
  ∃ p day_info, properties db !! pid = Some p ∧
                availability p !! d = Some day_info ∧
                status day_info = s.

(** Day [d] of property [pid] can be booked. *)
Definition day_free (db : DB) (pid : string) (d : date) : Prop :=
  day_has_status db pid d "available".

Definition in_range (check_in check_out d : date) : Prop :=
  check_in <= d < check_out.

Definition nights_of (b : Booking) (d : date) : Prop :=
  in_range (check_in_date b) (check_out_date b) d.

Definition active (b : Booking) : Prop := booking_status b ≠ "cancelled".

(** Two bookings of one property whose half-open ranges share a night. *)
Definition overlap (b1 b2 : Booking) : Prop :=
  property_id b1 = property_id b2 ∧ ∃ d, nights_of b1 d ∧ nights_of b2 d.

Definition no_double_booking (db : DB) : Prop :=
  ∀ id1 id2 b1 b2,
    bookings db !! id1 = Some b1 → bookings db !! id2 = Some b2 → id1 ≠ id2 →
    active b1 → active b2 → ¬ overlap b1 b2.

(** Every night of a booking that is not cancelled is blocked in the calendar. *)
Definition nights_blocked (db : DB) : Prop :=
  ∀ id b d,
    bookings db !! id = Some b → active b → nights_of b d →
    ¬ day_free db (property_id b) d.

Definition consistent (db : DB) : Prop :=
  no_double_booking db ∧ nights_blocked db.

(** The request passes the checks on user, property, payment method and guests. *)
Definition valid_request (db : DB) (r : Request) : Prop :=
  ∃ u p, users db !! req_user r = Some u ∧
         properties db !! req_property r = Some p ∧
         req_payment r ∈ payment_methods u ∧
         req_guests r <= capacity_guests p.

(** The request passes every validation of [create_booking]. *)
Definition bookable (db : DB) (r : Request) : Prop :=
  valid_request db r ∧
  req_check_in r < req_check_out r ∧
  ∀ d, in_range (req_check_in r) (req_check_out r) d → day_free db (req_property r) d.

(** The request fails one of the validations of [create_booking]. *)
Definition validation_fails (db : DB) (r : Request) : Prop :=
  users db !! req_user r = None ∨
  properties db !! req_property r = None ∨
  (∃ u, users db !! req_user r = Some u ∧ req_payment r ∉ payment_methods u) ∨
  (∃ p, properties db !! req_property r = Some p ∧ req_guests r > capacity_guests p) ∨
  req_check_in r >= req_check_out r ∨
  (∃ d, in_range (req_check_in r) (req_check_out r) d ∧
        ¬ day_free db (req_property r) d).

(** The first date of [dates] that is absent from the calendar or present
    with a status other than "available". *)
Fixpoint first_unavailable (avail : gmap Z DayInfo) (dates : list date) : option date :=
  match dates with
  | [] => None
  | d :: rest =>
      match avail !! d with
      | None => Some d
      | Some day_info =>
          if bool_decide (status day_info = "available")
          then first_unavailable avail rest
          else Some d
      end
  end.

(** The effect of the loops that write a status on the nights of a range. *)
Definition set_days (s : string) (dates : list date) (avail : gmap Z DayInfo)
  : gmap Z DayInfo :=
  foldl (fun a d => alter (set_status s) d a) avail dates.

(** The database after a successful [create_booking] that stored [b], and
    after a successful [cancel_booking] of [b]. *)
Definition new_booking (r : Request) (id : string) (total_price : Z) : Booking :=
  mkBooking id (req_user r) (req_property r) (req_check_in r) (req_check_out r)
    (req_check_out r - req_check_in r) (req_guests r) "confirmed" total_price
    (req_today r) (req_payment r) (req_special r) "moderate" "" None None.

Definition with_booking (b : Booking) (db : DB) : DB :=
  mkDB (alter (fun p => set_availability
                          (set_days "booked"
                             (date_range (check_in_date b) (check_out_date b))
                             (availability p)) p)
          (property_id b) (properties db))
       (alter (append_booking (booking_id b)) (user_id b) (users db))
       (<[booking_id b := b]> (bookings db))
       (reviews db).

Definition without_booking (today : date) (reason id : string) (b : Booking) (db : DB)
  : DB :=
  mkDB (alter (fun p => set_availability
                          (set_days "available"
                             (date_range (check_in_date b) (check_out_date b))
                             (availability p)) p)
          (property_id b) (properties db))
       (users db)
       (alter (mark_cancelled reason today) id (bookings db))
       (reviews db).

(** *** The pricing formula of the specification

    [computeCost] follows the words of the specification, with exact integer
    arithmetic: floor of 12% of the subtotal, the fixed cleaning fee, floor of
    8% of the three together. *)
Definition computeCost (nightly_prices : list Z) : Z * Z * Z * Z * Z :=
  let subtotal := foldr Z.add 0 nightly_prices in
  let service_fee := subtotal * 12 / 100 in
  let cleaning_fee := 50 in
  let taxes := (subtotal + service_fee + cleaning_fee) * 8 / 100 in
  (subtotal, service_fee, cleaning_fee, taxes,
   subtotal + service_fee + cleaning_fee + taxes).

(** The nightly prices of a range, read from the calendar. *)
Definition nightly_prices (avail : gmap Z DayInfo) (dates : list date) : list Z :=
  map (fun d => default 0 (price_per_night <$> avail !! d)) dates.

Definition breakdown (c : Cost) : Z * Z * Z * Z * Z :=
  (subtotal c, service_fee c, cleaning_fee c, taxes c, total c).

(** [m / 2 ^ s] rounded to the nearest integer, ties to even: the rounding
    of IEEE 754 arithmetic. *)
Definition round_half_even (m s : Z) : Z :=
  let q := m / 2 ^ s in
  let rem := m mod 2 ^ s in
  if 2 * rem <? 2 ^ s then q
  else if 2 ^ s <? 2 * rem then q + 1
  else if Z.even q then q else q + 1.

(** *** Two calls on one file

    Calls come from server processes that share [db.json] and take no lock.
    A call runs in two steps: [load_db()], which reads the file into the
    caller's own dictionary, and the rest of the function, which validates,
    changes that dictionary and ends with [save_db(db)]. *)
Inductive Caller := First | Second.

Inductive Event :=
  | Load (c : Caller)
  | Finish (c : Caller).

Record Progress := mkProgress {
  snapshot : option DB;               (* the caller's db once loaded *)
  outcome : option (Res Booking)      (* set when the call returns or raises *)
}.

Record System := mkSystem {
  shared_file : option DB;
  first_call : Progress;
  second_call : Progress
}.

Definition progress_of (c : Caller) (sys : System) : Progress :=
  match c with First => first_call sys | Second => second_call sys end.

Definition set_progress (c : Caller) (f : option DB) (p : Progress) (sys : System)
  : System :=
  match c with
  | First => mkSystem f p (second_call sys)
  | Second => mkSystem f (first_call sys) p
  end.

Definition initial_system (f : option DB) : System :=
  mkSystem f (mkProgress None None) (mkProgress None None).

Definition caller_of (e : Event) : Caller :=
  match e with Load c => c | Finish c => c end.

(** One step of the caller of event [e]; [r1] is the request of the first
    caller and [r2] that of the second.  A step that is not enabled (a second
    load, a finish before the load or after the end) leaves the system as it
    is. *)
Definition step (r1 r2 : Request) (sys : System) (e : Event) : System :=
  let c := caller_of e in
  let r := match c with First => r1 | Second => r2 end in
  let p := progress_of c sys in
  match e, snapshot p, outcome p with
  | Load _, None, None =>
      let '(_, s) := load_db (mkStore (shared_file sys) empty_db) in
      set_progress c (file s) (mkProgress (Some (mem s)) None) sys
  | Finish _, Some m, None =>
      let '(res, s) := book_body r (mkStore (shared_file sys) m) in
      set_progress c (file s) (mkProgress (Some (mem s)) (Some res)) sys
  | _, _, _ => sys
  end.

Definition run_schedule (r1 r2 : Request) (schedule : list Event) (f : option DB)
  : System :=
  foldl (step r1 r2) (initial_system f) schedule.

Definition call_succeeded (p : Progress) : bool :=
  match outcome p with Some (Return _) => true | _ => false end.

(** The schedules in which the calls do not interleave. *)
Definition serial (schedule : list Event) : Prop :=
  schedule = [Load First; Finish First; Load Second; Finish Second] ∨
  schedule = [Load Second; Finish Second; Load First; Finish First].

(** The requests ask for the same property and share a night. *)
Definition requests_overlap (r1 r2 : Request) : Prop :=
  req_property r1 = req_property r2 ∧
  ∃ d, in_range (req_check_in r1) (req_check_out r1) d ∧
       in_range (req_check_in r2) (req_check_out r2) d.

(** ** Example data

    The scenario of the specification: unit U1 with three nights from
    2024-05-15 at 100 a night, and one user with one payment method. *)
Definition may_15 : date := ordinal 2024 5 15.

Definition three_nights (s : string) : gmap Z DayInfo :=
  list_to_map [(may_15, mkDayInfo s 100); (may_15 + 1, mkDayInfo s 100);
               (may_15 + 2, mkDayInfo s 100)].

Definition sample_db : DB :=
  mkDB {[ "U1" := mkProperty 4 (three_nights "available") ]}
       {[ "user1" := mkUser {[ "pm1" ]} [] ]}
       ∅ ∅.

Definition sample_request : Request :=
  mkRequest may_15 "user1" "U1" may_15 (may_15 + 2) 2 "pm1" "".

(** A database as [make_db.py] writes it: [generate_bookings] marks the nights
    of a booking as booked only when its status is confirmed, checked_in or
    completed, so a pending booking leaves its nights available. *)
Definition pending_booking : Booking :=
  mkBooking "BOOK0001" "user1" "U1" may_15 (may_15 + 2) 2 2 "pending" 295
    (may_15 - 7) "pm1" "" "flexible" "" None None.

Definition generated_db : DB :=
  mkDB {[ "U1" := mkProperty 4 (three_nights "available") ]}
       {[ "user1" := mkUser {[ "pm1" ]} ["BOOK0001"] ]}
       {[ "BOOK0001" := pending_booking ]}
       ∅.

(** A confirmed booking of four nights from 2024-05-16, of which only the
    first two are in the calendar of U1. *)
Definition overhanging_booking : Booking :=
  mkBooking "BOOK0002" "user1" "U1" (may_15 + 1) (may_15 + 5) 4 2 "confirmed" 400
    (may_15 - 7) "pm1" "" "flexible" "" None None.

Definition horizon_db : DB :=
  mkDB {[ "U1" := mkProperty 4
            (list_to_map [(may_15, mkDayInfo "available" 100);
                          (may_15 + 1, mkDayInfo "booked" 100);
                          (may_15 + 2, mkDayInfo "booked" 100)]) ]}
       {[ "user1" := mkUser {[ "pm1" ]} ["BOOK0002"] ]}
       {[ "BOOK0002" := overhanging_booking ]}
       ∅.

(** A booking of a property that the database does not have. *)
Definition dangling_db : DB :=
  mkDB ∅ {[ "user1" := mkUser {[ "pm1" ]} ["BOOK0002"] ]}
       {[ "BOOK0002" := overhanging_booking ]} ∅.

(** Two calendars for unit U1 that differ on 2024-05-15: the date is not
    offered in the first and is booked in the second. *)
Definition not_offered_db : DB :=
  mkDB {[ "U1" := mkProperty 4 ∅ ]} {[ "user1" := mkUser {[ "pm1" ]} [] ]} ∅ ∅.

Definition booked_db : DB :=
  mkDB {[ "U1" := mkProperty 4 (three_nights "booked") ]}
       {[ "user1" := mkUser {[ "pm1" ]} [] ]} ∅ ∅.

Definition one_night_request : Request :=
  mkRequest may_15 "user1" "U1" may_15 (may_15 + 1) 2 "pm1" "".

(** A request that shares the night of 2024-05-16 with [sample_request]. *)
Definition overlapping_request : Request :=
  mkRequest may_15 "user1" "U1" (may_15 + 1) (may_15 + 3) 1 "pm1" "".

(** A request with too many guests and an unknown payment method. *)
Definition doubly_invalid_request : Request :=
  mkRequest may_15 "user1" "U1" may_15 (may_15 + 2) 9 "pm9" "".

(** Unit U1 with one night at 4691249611844283, a price large enough for
    the rounding of the float product to show. *)
Definition costly_db : DB :=
  mkDB {[ "U1" := mkProperty 4 {[ may_15 := mkDayInfo "available" 4691249611844283 ]} ]}
       {[ "user1" := mkUser {[ "pm1" ]} [] ]} ∅ ∅.

(** *** What a sequence of calls keeps

    Views of the inventory that [create_booking] and [cancel_booking] have no
    reason to change, and the ways in which a stored booking may change. *)
Definition capacity_of (db : DB) (pid : string) : option Z :=
  capacity_guests <$> properties db !! pid.

Definition day_of (db : DB) (pid : string) (d : date) : option DayInfo :=
  properties db !! pid ≫= fun p => availability p !! d.

Definition price_of (db : DB) (pid : string) (d : date) : option Z :=
  price_per_night <$> day_of db pid d.

Definition status_of (db : DB) (pid : string) (d : date) : option string :=
  status <$> day_of db pid d.

Definition payment_methods_of (db : DB) (uid : string) : option (gset string) :=
  payment_methods <$> users db !! uid.

(** [db'] has the properties, capacities, calendar dates, prices, users,
    payment methods and reviews of [db]; a status that differs is "booked" or
    "available", and the booking list of a user has only grown at its end. *)
Definition same_offer (db db' : DB) : Prop :=
  (∀ pid, capacity_of db' pid = capacity_of db pid) ∧
  (∀ pid d, price_of db' pid d = price_of db pid d) ∧
  (∀ pid d s, status_of db' pid d = Some s →
     status_of db pid d = Some s ∨ s = "booked" ∨ s = "available") ∧
  (∀ uid, payment_methods_of db' uid = payment_methods_of db uid) ∧
  (∀ uid u, users db !! uid = Some u →
     ∃ u' more, users db' !! uid = Some u' ∧
                user_bookings u' = (user_bookings u ++ more)%list) ∧
  reviews db' = reviews db.

(** The stored booking [b] is still there as [b']: unchanged, or cancelled
    from a status that allowed it. *)
Definition booking_kept (b b' : Booking) : Prop :=
  b' = b ∨
  (booking_status b ≠ "cancelled" ∧ booking_status b ≠ "completed" ∧
   ∃ reason today, b' = mark_cancelled reason today b).

Definition bookings_kept (db db' : DB) : Prop :=
  ∀ id b, bookings db !! id = Some b →
          ∃ b', bookings db' !! id = Some b' ∧ booking_kept b b'.

(** The schedule in which both callers load the file before either writes. *)
Definition both_load_first : list Event :=
  [Load First; Load Second; Finish First; Finish Second].

(** A database whose only booking has an id that reads as a negative
    number. *)
Definition negative_id_db : DB :=
  mkDB ∅ ∅ {[ "BOOK-5" := pending_booking ]} ∅.

(** ** The tools that list reviews, cities and properties

    These tools iterate over a dictionary of the database, and the order of
    the iteration shows in what [get_property_reviews] and
    [search_properties] return.  They are given the dictionary they read
    after [db = load_db()] as the list of its values, or of its items, in
    the order in which Python iterates over it. *)

(** [values] holds the values of the dictionary [m], in some order. *)
Definition values_of {V} (m : gmap string V) (values : list V) : Prop :=
  values ≡ₚ map snd (map_to_list m).

(** [sorted(reviews, key=lambda x: x["review_date"], reverse=True)].  The
    sort is stable, also with [reverse=True]: entries with the same date keep
    their order.  Its result is the one of inserting each entry, from the
    last to the first, before the entries that are not later than it. *)
Fixpoint insert_review (r : Review) (sorted : list Review) : list Review :=
  match sorted with
  | [] => [r]
  | x :: rest =>
      if review_date r <? review_date x then x :: insert_review r rest
      else r :: sorted
  end.

Definition sorted_by_date_desc (l : list Review) : list Review :=
  foldr insert_review [] l.

(** [get_property_reviews] (lines 388-394), for [values] the list
    [db["reviews"].values()]. *)
Definition get_property_reviews (values : list Review) (property_id : string)
  : list Review :=
  sorted_by_date_desc
    (filter (fun review => review_property_id review = property_id) values).

(** The fields of a property that [list_cities] and [search_properties]
    read: the location, the type, and the capacity and calendar of
    [Property]. *)
Record Listing := mkListing {
  location_city : string;                   (* prop["location"]["city"] *)
  location_country : string;                (* prop["location"]["country"] *)
  property_type : string;                   (* prop["property_type"] *)
  listing_property : Property
}.

(** The order of Python on [str], by code point, which is the order of the
    bytes of the UTF-8 encoding, and on pairs of [str]. *)
Definition pair_compare (a b : string * string) : comparison :=
  match String_as_OT.compare (fst a) (fst b) with
  | Eq => String_as_OT.compare (snd a) (snd b)
  | c => c
  end.

(** [sorted(cities)] for a collection of pairs. *)
Fixpoint insert_pair (c : string * string) (sorted : list (string * string))
  : list (string * string) :=
  match sorted with
  | [] => [c]
  | x :: rest =>
      match pair_compare c x with
      | Gt => x :: insert_pair c rest
      | _ => c :: sorted
      end
  end.

Definition sorted_pairs (l : list (string * string)) : list (string * string) :=
  foldr insert_pair [] l.

(** [list_cities] (lines 471-476), for [values] the list
    [db["properties"].values()]; the result holds the pairs (city, country)
    of the returned dictionaries. *)
Definition list_cities (values : list Listing) : list (string * string) :=
  let cities : gset (string * string) :=
    foldl (fun cities prop =>
             {[ (location_city prop, location_country prop) ]} ∪ cities) ∅ values in
  sorted_pairs (elements cities).

(** *** [search_properties] *)

(** The arguments of [search_properties]; [None] is Python's [None].  A date
    that is given is a well-formed date string. *)
Record Search := mkSearch {
  search_city : option string;
  search_check_in_date : option date;
  search_check_out_date : option date;
  search_guests : option Z;
  search_property_type : option string;
  search_min_price : option Z;
  search_max_price : option Z
}.

(** The value of an optional argument when it is true as a condition: not
    [None], and not the empty string or zero. *)
Definition truthy_str (x : option string) : option string :=
  match x with
  | Some EmptyString => None
  | _ => x
  end.

Definition truthy_int (x : option Z) : option Z :=
  match x with
  | Some 0 => None
  | _ => x
  end.

(** [sub in s] *)
Fixpoint contains (sub s : string) : bool :=
  String.prefix sub s ||
  match s with
  | EmptyString => false
  | String _ rest => contains sub rest
  end.

(** A number is an int or a float. *)
Inductive Number :=
  | Int (n : Z)
  | Float (x : spec_float).

(** [a / b] for ints and [b > 0]: the quotient correctly rounded to a float,
    and [OverflowError] when it is too large. *)
Definition round_quotient (s : bool) (a b : positive) : Res spec_float :=
  let '(q, e, l) := SFdiv_core_binary prec emax (Z.pos a) 0 (Z.pos b) 0 in
  match binary_round_aux prec emax s q e l with
  | S754_infinity _ => Raise OverflowError
  | x => Return x
  end.

Definition true_divide (a : Z) (b : positive) : Res spec_float :=
  match a with
  | Z0 => Return (S754_zero false)
  | Z.pos m => round_quotient false m b
  | Z.neg m => round_quotient true m b
  end.

(** The comparison of a number with an int, which is exact. *)
Definition float_compare_int (x : spec_float) (n : Z) : option comparison :=
  match x with
  | S754_zero _ => Some (0 ?= n)
  | S754_finite s m e =>
      Some (if 0 <=? e then cond_Zopp s (Z.pos m * 2 ^ e) ?= n
            else cond_Zopp s (Z.pos m) ?= n * 2 ^ (- e))
  | S754_infinity s => Some (if s then Lt else Gt)
  | S754_nan => None
  end.

Definition number_compare_int (x : Number) (n : Z) : option comparison :=
  match x with
  | Int m => Some (m ?= n)
  | Float y => float_compare_int y n
  end.

(** [x < n] and [x > n] *)
Definition number_lt (x : Number) (n : Z) : bool :=
  match number_compare_int x n with Some Lt => true | _ => false end.

Definition number_gt (x : Number) (n : Z) : bool :=
  match number_compare_int x n with Some Gt => true | _ => false end.

(** The availability loop of [search_properties] (lines 76-91): [None] when
    the loop breaks with [available = False], and the sum of the prices
    otherwise. *)
Fixpoint search_nights (avail : gmap Z DayInfo) (dates : list date) (total_price : Z)
  : option Z :=
  match dates with
  | [] => Some total_price
  | d :: rest =>
      match avail !! d with
      | None => None
      | Some day_info =>
          if bool_decide (status day_info ≠ "available") then None
          else search_nights avail rest (total_price + price_per_night day_info)
      end
  end.

(** An entry of the result: [prop.copy()], with the keys
    "search_total_price" and "search_avg_price" when both dates were given. *)
Record SearchResult := mkSearchResult {
  result_property : Listing;
  search_pricing : option (Z * Number)
}.

Section search.
(** [str.lower] *)
Variable lower : string → string.

(** One turn of the loop of [search_properties] (lines 61-112): [None]
    when the turn ends with [continue], and otherwise the entry appended
    to [results]. *)
Definition search_property (q : Search) (prop : Listing) : Res (option SearchResult) :=
  if match truthy_str (search_city q) with
     | Some city => negb (contains (lower city) (lower (location_city prop)))
     | None => false
     end
  then Return None
  else if match truthy_int (search_guests q) with
          | Some guests => capacity_guests (listing_property prop) <? guests
          | None => false
          end
  then Return None
  else if match truthy_str (search_property_type q) with
          | Some property_type' => bool_decide (property_type prop ≠ property_type')
          | None => false
          end
  then Return None
  else
    match search_check_in_date q, search_check_out_date q with
    | Some check_in_date, Some check_out_date =>
        match search_nights (availability (listing_property prop))
                (date_range check_in_date check_out_date) 0 with
        | None => Return None
        | Some total_price =>
            avg_price ←
              match check_out_date - check_in_date with
              | Z.pos nights => x ← true_divide total_price nights; Return (Float x)
              | _ => Return (Int total_price)
              end;
            if match truthy_int (search_min_price q) with
               | Some min_price => number_lt avg_price min_price
               | None => false
               end
            then Return None
            else if match truthy_int (search_max_price q) with
                    | Some max_price => number_gt avg_price max_price
                    | None => false
                    end
            then Return None
            else Return (Some (mkSearchResult prop (Some (total_price, avg_price))))
        end
    | _, _ => Return (Some (mkSearchResult prop None))
    end.

(** [search_properties] (lines 59-114), for [items] the list
    [db["properties"].items()]. *)
Fixpoint search_properties (items : list (string * Listing)) (q : Search)
  : Res (list SearchResult) :=
  match items with
  | [] => Return []
  | (prop_id, prop) :: rest =>
      r ← search_property q prop;
      results ← search_properties rest q;
      Return (match r with Some entry => entry :: results | None => results end)
  end.
End search.

(** [str.lower] on ASCII letters. *)
Fixpoint ascii_lower (s : string) : string :=
  match s with
  | EmptyString => EmptyString
  | String c rest =>
      String (if (Ascii.leb "A" c && Ascii.leb c "Z")%char
              then ascii_of_nat (nat_of_ascii c + 32) else c)
             (ascii_lower rest)
  end.

(** A completed stay of user1 in unit U1, and the listing of U1. *)
Definition completed_booking : Booking :=
  mkBooking "BOOK0003" "user1" "U1" (may_15 - 30) (may_15 - 28) 2 2 "completed" 200
    (may_15 - 40) "pm1" "" "flexible" "" None None.

Definition completed_db : DB :=
  mkDB {[ "U1" := mkProperty 4 (three_nights "available") ]}
       {[ "user1" := mkUser {[ "pm1" ]} ["BOOK0003"] ]}
       {[ "BOOK0003" := completed_booking ]}
       ∅.

Definition sample_listing : Listing :=
  mkListing "Paris" "France" "apartment" (mkProperty 4 (three_nights "available")).

(** The entry [r] of a search result meets the criteria [q]: the city, the
    guest count and the type that were given, and, when both dates were
    given, a range of available nights whose prices sum to the total shown
    and an average within the price bounds that were given. *)
Definition fits_search (lower : string → string) (q : Search) (r : SearchResult) : Prop :=
  let prop := result_property r in
  (∀ city, truthy_str (search_city q) = Some city →
     contains (lower city) (lower (location_city prop)) = true) ∧
  (∀ guests, truthy_int (search_guests q) = Some guests →
     guests <= capacity_guests (listing_property prop)) ∧
  (∀ property_type', truthy_str (search_property_type q) = Some property_type' →
     property_type prop = property_type') ∧
  match search_check_in_date q, search_check_out_date q with
  | Some check_in_date, Some check_out_date =>
      ∃ total_price avg_price,
        search_pricing r = Some (total_price, avg_price) ∧
        (∀ d, in_range check_in_date check_out_date d →
           ∃ day_info, availability (listing_property prop) !! d = Some day_info ∧
                       status day_info = "available") ∧
        total_price = foldr Z.add 0 (nightly_prices (availability (listing_property prop))
                                       (date_range check_in_date check_out_date)) ∧
        (∀ min_price, truthy_int (search_min_price q) = Some min_price →
           number_lt avg_price min_price = false) ∧
        (∀ max_price, truthy_int (search_max_price q) = Some max_price →
           number_gt avg_price max_price = false)
  | _, _ => search_pricing r = None
  end.

(** The references between the dictionaries resolve: an id in the booking
    list of a user is the id of a booking of that user, a booking is in the
    booking list of its user, and the property of a booking is in the
    database. *)
Definition references_resolve (db : DB) : Prop :=
  (∀ uid u id, users db !! uid = Some u → id ∈ user_bookings u →
     ∃ b, bookings db !! id = Some b ∧ user_id b = uid) ∧
  (∀ id b, bookings db !! id = Some b →
     ∃ u, users db !! user_id b = Some u ∧ id ∈ user_bookings u) ∧
  (∀ id b, bookings db !! id = Some b → is_Some (properties db !! property_id b)).

(** Unit U1 once 2024-05-15 and 2024-05-16 are booked, and a house in Lyon
    that is free on the three nights. *)
Definition booked_calendar : Property :=
  mkProperty 4 (set_days "booked" (date_range may_15 (may_15 + 2))
                  (three_nights "available")).

Definition lyon_listing : Listing :=
  mkListing "Lyon" "France" "house" (mkProperty 2 (three_nights "available")).

(** * Properties *)

(** ** The scenario of the specification, run on the model *)

Example may_15_is_day_739021 : may_15 = 739021.
Proof. reflexivity. Qed.

Example quote_of_two_nights :
  fst (call (calculate_booking_cost "U1" may_15 (may_15 + 2)) (Some sample_db))
  = Return (mkCost "U1" may_15 (may_15 + 2) 2 [(may_15, 100); (may_15 + 1, 100)]
              200 24 50 21 295).
Proof. by vm_compute. Qed.

Example booking_of_two_nights :
  fst (call (book sample_request) (Some sample_db))
  = Return (new_booking sample_request "BOOK001" 200).
Proof. by vm_compute. Qed.

Example quote_after_booking :
  fst (call (calculate_booking_cost "U1" may_15 (may_15 + 2))
         (snd (call (book sample_request) (Some sample_db))))
  = Raise (ValueError (Property_not_available_on may_15)).
Proof. by vm_compute. Qed.

Example quote_after_cancellation :
  fst (call (calculate_booking_cost "U1" may_15 (may_15 + 2))
         (run_ops [Create sample_request; Cancel (may_15 + 1) "BOOK001" ""]
            (Some sample_db)))
  = fst (call (calculate_booking_cost "U1" may_15 (may_15 + 2)) (Some sample_db)).
Proof. by vm_compute. Qed.

Example id_after_generated_ids :
  next_id "BOOK" ["BOOK0080"; "BOOK0007"] = Return "BOOK081".
Proof. by vm_compute. Qed.

Example replace_scans_once : replace_with_empty "BOOK" "BOBOOKOK7" = "BOOK7".
Proof. reflexivity. Qed.

Example service_fee_of_200 : int_times_float 200 literal_0_12 = Return 24.
Proof. by vm_compute. Qed.

Example taxes_of_274 : int_times_float 274 literal_0_08 = Return 21.
Proof. by vm_compute. Qed.

(** ** Records and calendars *)

Lemma set_status_idemp s day_info :
  set_status s (set_status s day_info) = set_status s day_info.
Proof. reflexivity. Qed.

Lemma set_status_same day_info :
  set_status (status day_info) day_info = day_info.
Proof. by destruct day_info. Qed.

Lemma set_availability_same p : set_availability (availability p) p = p.
Proof. by destruct p. Qed.

Lemma set_days_cons s d dates avail :
  set_days s (d :: dates) avail = set_days s dates (alter (set_status s) d avail).
Proof. reflexivity. Qed.

(** A night of the range gets the status, the other days keep their entry;
    no key is added or removed. *)
Lemma set_days_lookup s dates avail d :
  set_days s dates avail !! d =
  if bool_decide (d ∈ dates) then set_status s <$> avail !! d else avail !! d.
Proof.
  revert avail. induction dates as [|d' dates IH]; intros avail.
  - reflexivity.
  - rewrite set_days_cons, IH.
    destruct (decide (d = d')) as [->|Hne].
    + rewrite lookup_alter_eq.
      rewrite (bool_decide_eq_true_2 _ (list_elem_of_here d' dates)).
      case_bool_decide; [|done].
      by destruct (avail !! d').
    + rewrite lookup_alter_ne by done.
      assert (d ∈ d' :: dates ↔ d ∈ dates) as Hiff
        by (rewrite elem_of_cons; tauto).
      by rewrite (bool_decide_ext _ _ Hiff).
Qed.

Lemma elem_of_date_range check_in check_out d :
  d ∈ date_range check_in check_out ↔ in_range check_in check_out d.
Proof.
  unfold date_range, in_range. rewrite elem_of_seqZ. lia.
Qed.

(** ** The loops *)

Ltac run :=
  unfold mbind, M_bind, bind, mret, M_ret, ret, raise_if, raise, get_db, lift,
    modify_db, load_db, save_db, subscript; simpl.

Lemma set_day_status_present pid d s f db p day_info :
  properties db !! pid = Some p → availability p !! d = Some day_info →
  set_day_status pid d s (mkStore f db) =
  (Return tt,
   mkStore f (set_properties
     (alter (fun p => set_availability (alter (set_status s) d (availability p)) p)
        pid (properties db)) db)).
Proof.
  intros Hp Hd. unfold set_day_status. run. rewrite Hp. simpl. rewrite Hd. simpl.
  rewrite <- (alter_alt_Some (set_status s) _ _ _ Hd).
  by rewrite <- (alter_alt_Some
    (fun p => set_availability (alter (set_status s) d (availability p)) p) _ _ _ Hp).
Qed.

Lemma release_day_run pid d f db :
  is_Some (properties db !! pid) →
  release_day pid d (mkStore f db) =
  (Return tt,
   mkStore f (set_properties
     (alter (fun p => set_availability (alter (set_status "available") d (availability p)) p)
        pid (properties db)) db)).
Proof.
  intros [p Hp]. unfold release_day. run. rewrite Hp. simpl.
  case_bool_decide as Hd.
  - apply elem_of_dom in Hd as [day_info Hd].
    by eapply set_day_status_present.
  - apply not_elem_of_dom in Hd.
    rewrite (alter_alt_Some _ _ _ _ Hp).
    rewrite (alter_id' _ _ _ Hd), set_availability_same.
    rewrite insert_id by done. by destruct db.
Qed.

Lemma set_properties_twice ps ps' db :
  set_properties ps' (set_properties ps db) = set_properties ps' db.
Proof. reflexivity. Qed.

Lemma alter_set_days s d dates pid (ps : gmap string Property) :
  alter (fun p => set_availability (set_days s dates (availability p)) p) pid
    (alter (fun p => set_availability (alter (set_status s) d (availability p)) p) pid ps)
  = alter (fun p => set_availability (set_days s (d :: dates) (availability p)) p) pid ps.
Proof.
  rewrite alter_alter_eq. apply alter_ext. intros p _. reflexivity.
Qed.

Lemma for_each_release_day pid dates f db :
  is_Some (properties db !! pid) →
  for_each dates (release_day pid) (mkStore f db) =
  (Return tt,
   mkStore f (set_properties
     (alter (fun p => set_availability (set_days "available" dates (availability p)) p)
        pid (properties db)) db)).
Proof.
  revert db. induction dates as [|d dates IH]; intros db Hp.
  - simpl. run. f_equal. f_equal.
    rewrite (alter_ext _ id), alter_id; [by destruct db|done|].
    intros p _. apply set_availability_same.
  - simpl. unfold mbind at 1, M_bind, bind. rewrite release_day_run by done.
    rewrite IH.
    + simpl. by rewrite alter_set_days.
    + simpl. rewrite lookup_alter_eq. destruct Hp as [p ->]. by eexists.
Qed.

Lemma for_each_set_day_status pid s dates f db p :
  properties db !! pid = Some p →
  (∀ d, d ∈ dates → is_Some (availability p !! d)) →
  for_each dates (fun d => set_day_status pid d s) (mkStore f db) =
  (Return tt,
   mkStore f (set_properties
     (alter (fun p => set_availability (set_days s dates (availability p)) p)
        pid (properties db)) db)).
Proof.
  revert db p. induction dates as [|d dates IH]; intros db p Hp Hall.
  - simpl. run. f_equal. f_equal.
    rewrite (alter_ext _ id), alter_id; [by destruct db|done|].
    intros q _. apply set_availability_same.
  - simpl. unfold mbind at 1, M_bind, bind.
    destruct (Hall d) as [day_info Hd]; [by left|].
    rewrite (set_day_status_present _ _ _ _ _ _ _ Hp Hd).
    erewrite IH.
    + simpl. by rewrite alter_set_days.
    + simpl. rewrite lookup_alter_eq, Hp. reflexivity.
    + simpl. intros d' Hd'. rewrite lookup_alter.
      case_decide; [|apply Hall; by right].
      subst. rewrite Hd. by eexists.
Qed.

(** ** The availability check *)

Lemma first_unavailable_None avail dates :
  first_unavailable avail dates = None ↔
  ∀ d, d ∈ dates → ∃ day_info, avail !! d = Some day_info ∧ status day_info = "available".
Proof.
  induction dates as [|d dates IH]; simpl.
  - split; [intros _ d Hd; by apply elem_of_nil in Hd|done].
  - destruct (avail !! d) as [day_info|] eqn:Hd.
    + case_bool_decide as Hs.
      * rewrite IH. split.
        -- intros Hall d' [->|Hd']%elem_of_cons; eauto.
        -- intros Hall d' Hd'. apply Hall. by right.
      * split; [done|]. intros Hall.
        destruct (Hall d) as (day_info' & Hd' & Hs'); [by left|]. congruence.
    + split; [done|]. intros Hall.
      destruct (Hall d) as (day_info' & Hd' & _); [by left|]. congruence.
Qed.

(** The date found is the first one of the range that fails: the dates before
    it are available, and it is absent or has another status. *)
Lemma first_unavailable_Some avail dates d :
  first_unavailable avail dates = Some d →
  ∃ before after : list Z,
    dates = (before ++ d :: after)%list ∧
    (∀ d', d' ∈ before →
       ∃ day_info, avail !! d' = Some day_info ∧ status day_info = "available") ∧
    (avail !! d = None ∨
     ∃ day_info, avail !! d = Some day_info ∧ status day_info ≠ "available").
Proof.
  induction dates as [|d0 dates IH]; simpl; [done|].
  destruct (avail !! d0) as [day_info|] eqn:Hd0.
  - case_bool_decide as Hs.
    + intros (before & after & -> & Hbefore & Hd)%IH.
      exists (d0 :: before), after. split_and!; [done| |done].
      intros d' [->|Hd']%elem_of_cons; eauto.
    + intros [= <-]. exists [], dates. split_and!; [done| |eauto].
      intros d' Hd'. by apply elem_of_nil in Hd'.
  - intros [= <-]. exists [], dates. split_and!; [done| |eauto].
    intros d' Hd'. by apply elem_of_nil in Hd'.
Qed.

Lemma check_nights_first_unavailable avail dates acc :
  match first_unavailable avail dates with
  | Some d => check_nights avail dates acc = Raise (ValueError (Property_not_available_on d))
  | None => ∃ total_price, check_nights avail dates acc = Return total_price
  end.
Proof.
  revert acc. induction dates as [|d dates IH]; intros acc; simpl; [by eexists|].
  destruct (avail !! d) as [day_info|]; [|done].
  destruct (decide (status day_info = "available")) as [Hs|Hs].
  - rewrite (bool_decide_eq_true_2 _ Hs).
    rewrite bool_decide_eq_false_2 by (intros Hn; by apply Hn). apply IH.
  - rewrite (bool_decide_eq_false_2 _ Hs). by rewrite (bool_decide_eq_true_2 _ Hs).
Qed.

Lemma quote_nights_first_unavailable avail dates costs acc :
  match first_unavailable avail dates with
  | Some d => quote_nights avail dates costs acc
              = Raise (ValueError (Property_not_available_on d))
  | None => ∃ nightly total_price,
              quote_nights avail dates costs acc = Return (nightly, total_price)
  end.
Proof.
  revert costs acc. induction dates as [|d dates IH]; intros costs acc; simpl.
  { by eexists _, _. }
  destruct (avail !! d) as [day_info|]; [|done].
  destruct (decide (status day_info = "available")) as [Hs|Hs].
  - rewrite (bool_decide_eq_true_2 _ Hs).
    rewrite bool_decide_eq_false_2 by (intros Hn; by apply Hn). apply IH.
  - rewrite (bool_decide_eq_false_2 _ Hs). by rewrite (bool_decide_eq_true_2 _ Hs).
Qed.

(** The two loops accept the same ranges and sum the same prices. *)
Lemma quote_nights_check_nights avail dates costs acc :
  check_nights avail dates acc =
  match quote_nights avail dates costs acc with
  | Return (_, total_price) => Return total_price
  | Raise e => Raise e
  end.
Proof.
  revert costs acc. induction dates as [|d dates IH]; intros costs acc; simpl; [done|].
  destruct (avail !! d) as [day_info|]; [|done].
  case_bool_decide; [done|]. apply IH.
Qed.

Lemma check_nights_Return avail dates acc total_price :
  check_nights avail dates acc = Return total_price →
  ∀ d, d ∈ dates → ∃ day_info, avail !! d = Some day_info ∧ status day_info = "available".
Proof.
  intros Hc. apply first_unavailable_None.
  pose proof (check_nights_first_unavailable avail dates acc) as H.
  destruct (first_unavailable avail dates); [congruence|done].
Qed.


(** ** What the tools compute *)

Lemma not_in_dom_lookup {V} (m : gmap string V) k :
  bool_decide (k ∉ dom m) = match m !! k with Some _ => false | None => true end.
Proof.
  destruct (m !! k) eqn:Hk.
  - apply bool_decide_eq_false_2. intros Hn. apply Hn, elem_of_dom. by eexists.
  - apply bool_decide_eq_true_2. by apply not_elem_of_dom.
Qed.

(** [create_booking] on the loaded database, case by case, in the order of
    its checks. *)
Lemma create_booking_body_run today uid pid ci co gc pm sr f db :
  create_booking_body today uid pid ci co gc pm sr (mkStore f db) =
  match users db !! uid with
  | None => (Raise (ValueError (User_not_found uid)), mkStore f db)
  | Some user =>
    match properties db !! pid with
    | None => (Raise (ValueError (Property_not_found pid)), mkStore f db)
    | Some p =>
      if bool_decide (pm ∉ payment_methods user)
      then (Raise (ValueError (Payment_method_not_found pm)), mkStore f db)
      else if gc >? capacity_guests p
      then (Raise (ValueError (Property_can_only_accommodate (capacity_guests p))),
            mkStore f db)
      else if co - ci <=? 0
      then (Raise (ValueError Check_out_must_be_after_check_in), mkStore f db)
      else
        match check_nights (availability p) (date_range ci co) 0 with
        | Raise e => (Raise e, mkStore f db)
        | Return total_price =>
          match get_next_booking_id db with
          | Raise e => (Raise e, mkStore f db)
          | Return id =>
            let b := mkBooking id uid pid ci co (co - ci) gc "confirmed" total_price
                       today pm sr "moderate" "" None None in
            let db' :=
              mkDB (alter (fun p => set_availability
                                      (set_days "booked" (date_range ci co) (availability p)) p)
                      pid (properties db))
                   (alter (append_booking id) uid (users db))
                   (<[id := b]> (bookings db))
                   (reviews db) in
            (Return b, mkStore (Some db') db')
          end
        end
    end
  end.
Proof.
  unfold create_booking_body. run. rewrite !not_in_dom_lookup.
  destruct (users db !! uid) as [user|] eqn:Hu; simpl; [|done].
  destruct (properties db !! pid) as [p|] eqn:Hp; simpl; [|done].
  destruct (bool_decide (pm ∉ payment_methods user)); simpl; [done|].
  destruct (gc >? capacity_guests p); simpl; [done|].
  destruct (co - ci <=? 0); simpl; [done|].
  destruct (check_nights _ _ _) as [total_price|e] eqn:Hc; simpl; [|done].
  destruct (get_next_booking_id db) as [id|e]; simpl; [|done].
  erewrite for_each_set_day_status; simpl; [done|by rewrite Hp|].
  intros d Hd. destruct (check_nights_Return _ _ _ _ Hc d Hd) as (day_info & -> & _).
  by eexists.
Qed.

(** [cancel_booking] on the loaded database, case by case.  A booking whose
    property is missing raises [KeyError] after the booking was changed in
    memory and before [save_db]. *)
Lemma cancel_booking_body_run today id reason f db :
  cancel_booking_body today id reason (mkStore f db) =
  match bookings db !! id with
  | None => (Raise (ValueError (Booking_not_found id)), mkStore f db)
  | Some b =>
    if bool_decide (booking_status b = "cancelled")
    then (Raise (ValueError Booking_is_already_cancelled), mkStore f db)
    else if bool_decide (booking_status b = "completed")
    then (Raise (ValueError Cannot_cancel_completed_booking), mkStore f db)
    else
      let bs := alter (mark_cancelled reason today) id (bookings db) in
      match properties db !! property_id b with
      | None => (Raise (KeyError (property_id b)), mkStore f (set_bookings bs db))
      | Some _ =>
        let db' :=
          mkDB (alter (fun p => set_availability
                                  (set_days "available"
                                     (date_range (check_in_date b) (check_out_date b))
                                     (availability p)) p)
                  (property_id b) (properties db))
               (users db) bs (reviews db) in
        (Return (mark_cancelled reason today b), mkStore (Some db') db')
      end
  end.
Proof.
  unfold cancel_booking_body. run. rewrite !not_in_dom_lookup.
  destruct (bookings db !! id) as [b|] eqn:Hb; simpl; [|done].
  destruct (bool_decide (booking_status b = "cancelled")); simpl; [done|].
  destruct (bool_decide (booking_status b = "completed")); simpl; [done|].
  destruct (properties db !! property_id b) as [p|] eqn:Hp; simpl; [|done].
  rewrite for_each_release_day by (simpl; by rewrite Hp).
  simpl. by rewrite lookup_alter_eq, Hb.
Qed.

Lemma create_booking_run today uid pid ci co gc pm sr f m :
  create_booking today uid pid ci co gc pm sr (mkStore f m) =
  create_booking_body today uid pid ci co gc pm sr (mkStore f (database f)).
Proof. reflexivity. Qed.

Lemma cancel_booking_run today id reason f m :
  cancel_booking today id reason (mkStore f m) =
  cancel_booking_body today id reason (mkStore f (database f)).
Proof. reflexivity. Qed.

(** ** The calendar and the bookings stay consistent *)

Lemma day_free_set_days s dates pid db db' pid' d :
  properties db' =
    alter (fun p => set_availability (set_days s dates (availability p)) p)
      pid (properties db) →
  day_free db' pid' d →
  (pid' = pid ∧ d ∈ dates ∧ s = "available") ∨
  (¬ (pid' = pid ∧ d ∈ dates) ∧ day_free db pid' d).
Proof.
  intros Hps (p' & day_info & Hp' & Hd & Hs). rewrite Hps in Hp'.
  destruct (decide (pid' = pid)) as [->|Hne].
  - rewrite lookup_alter_eq in Hp'.
    destruct (properties db !! pid) as [p|] eqn:Hp; simplify_eq/=.
    rewrite set_days_lookup in Hd. case_bool_decide as Hin.
    + left. destruct (availability p !! d); simplify_eq/=. done.
    + right. split; [tauto|]. by exists p, day_info.
  - rewrite lookup_alter_ne in Hp' by done.
    right. split; [tauto|]. by exists p', day_info.
Qed.

Lemma book_preserves_consistent r f :
  consistent (database f) → consistent (database (snd (call (book r) f))).
Proof.
  intros [Hndb Hblocked]. unfold call, book.
  rewrite create_booking_run, create_booking_body_run.
  set (db := database f) in *.
  destruct (users db !! req_user r) as [user|]; [|done].
  destruct (properties db !! req_property r) as [p|] eqn:Hp; [|done].
  destruct (bool_decide _); [done|].
  destruct (_ >? _); [done|].
  destruct (_ <=? _); [done|].
  destruct (check_nights _ _ _) as [total_price|e] eqn:Hc; [|done].
  destruct (get_next_booking_id db) as [id|e]; [|done].
  simpl.
  assert (∀ d, in_range (req_check_in r) (req_check_out r) d →
               day_free db (req_property r) d) as Hfree.
  { intros d Hd%elem_of_date_range.
    destruct (check_nights_Return _ _ _ _ Hc d Hd) as (day_info & ? & ?).
    by exists p, day_info. }
  split.
  - intros id1 id2 b1 b2 H1 H2 Hne A1 A2 [Hprop (d & Hd1 & Hd2)]. simpl in H1, H2.
    destruct (decide (id1 = id)) as [E1|N1]; destruct (decide (id2 = id)) as [E2|N2].
    + congruence.
    + subst id1. rewrite lookup_insert_eq in H1. rewrite lookup_insert_ne in H2 by done.
      simplify_eq/=.
      eapply Hblocked; [exact H2|done|exact Hd2|]. rewrite <- Hprop. by apply Hfree.
    + subst id2. rewrite lookup_insert_eq in H2. rewrite lookup_insert_ne in H1 by done.
      simplify_eq/=.
      eapply Hblocked; [exact H1|done|exact Hd1|]. rewrite Hprop. by apply Hfree.
    + rewrite lookup_insert_ne in H1, H2 by done.
      eapply Hndb; [exact H1|exact H2|done..|]. split; [done|by exists d].
  - intros id' b' d Hb' Hact Hd Hday. simpl in Hb'.
    eapply day_free_set_days in Hday; [|reflexivity].
    destruct Hday as [(_ & _ & ?)|[Hout Hday]]; [done|].
    destruct (decide (id' = id)) as [->|N].
    + rewrite lookup_insert_eq in Hb'. simplify_eq/=.
      apply Hout. split; [done|]. by apply elem_of_date_range.
    + rewrite lookup_insert_ne in Hb' by done. by eapply Hblocked.
Qed.

Lemma mark_cancelled_inactive reason today b : ¬ active (mark_cancelled reason today b).
Proof. intros H. by apply H. Qed.

Lemma cancel_preserves_consistent today id reason f :
  consistent (database f) →
  consistent (database (snd (call (cancel_booking today id reason) f))).
Proof.
  intros [Hndb Hblocked]. unfold call.
  rewrite cancel_booking_run, cancel_booking_body_run.
  set (db := database f) in *.
  destruct (bookings db !! id) as [b|] eqn:Hb; [|done].
  case_bool_decide as Hcancelled; [done|].
  destruct (bool_decide _); [done|].
  destruct (properties db !! property_id b) as [p|] eqn:Hp; [|done].
  simpl.
  assert (∀ id' b', alter (mark_cancelled reason today) id (bookings db) !! id' = Some b' →
                    active b' → id' ≠ id ∧ bookings db !! id' = Some b') as Hold.
  { intros id' b' Hb' Hact. rewrite lookup_alter in Hb'. case_decide; [|done].
    subst. rewrite Hb in Hb'. injection Hb' as <-.
    by apply mark_cancelled_inactive in Hact. }
  split.
  - intros id1 id2 b1 b2 H1 H2 Hne A1 A2. simpl in H1, H2.
    apply Hold in H1 as [_ H1]; [|done]. apply Hold in H2 as [_ H2]; [|done].
    by eapply Hndb.
  - intros id' b' d Hb' Hact Hd Hday. simpl in Hb'.
    apply Hold in Hb' as [Hne Hb']; [|done].
    eapply day_free_set_days in Hday; [|reflexivity].
    destruct Hday as [(Hprop & Hin%elem_of_date_range & _)|[_ Hday]].
    + eapply (Hndb id' id); [exact Hb'|exact Hb|done..|]. split; [done|by exists d].
    + by eapply Hblocked.
Qed.

Lemma run_ops_consistent ops f :
  consistent (database f) → consistent (database (run_ops ops f)).
Proof.
  revert f. induction ops as [|op ops IH]; intros f Hf; [done|].
  simpl. apply IH. destruct op as [r|today id reason]; simpl.
  - by apply book_preserves_consistent.
  - by apply cancel_preserves_consistent.
Qed.

(** ** Outcomes of a booking *)

Lemma call_book r f :
  call (book r) f =
  let '(res, s) := book_body r (mkStore f (database f)) in (res, file s).
Proof. reflexivity. Qed.

(** A booking that succeeds passed every validation, and its effect is
    [with_booking]. *)
Lemma book_body_Return r f db b s :
  book_body r (mkStore f db) = (Return b, s) →
  bookable db r ∧
  ∃ id total_price p,
    get_next_booking_id db = Return id ∧
    properties db !! req_property r = Some p ∧
    check_nights (availability p)
      (date_range (req_check_in r) (req_check_out r)) 0 = Return total_price ∧
    b = new_booking r id total_price ∧
    s = mkStore (Some (with_booking b db)) (with_booking b db).
Proof.
  unfold book_body. rewrite create_booking_body_run.
  destruct (users db !! req_user r) as [user|] eqn:Hu; [|done].
  destruct (properties db !! req_property r) as [p|] eqn:Hp; [|done].
  case_bool_decide as Hpm; [done|].
  destruct (_ >? _) eqn:Hg; [done|].
  destruct (_ <=? _) eqn:Hn; [done|].
  destruct (check_nights _ _ _) as [total_price|e] eqn:Hc; [|done].
  destruct (get_next_booking_id db) as [id|e]; [|done].
  intros [= <- <-]. split.
  - split; [|split; [lia|]].
    + exists user, p. split_and!; [done..| |lia].
      destruct (decide (req_payment r ∈ payment_methods user)); tauto.
    + intros d Hd%elem_of_date_range.
      destruct (check_nights_Return _ _ _ _ Hc d Hd) as (day_info & ? & ?).
      exists p, day_info. by rewrite Hp.
  - by exists id, total_price, p.
Qed.


(** Any exception of [create_booking] is raised before the first change. *)
Lemma book_body_Raise r f db e s :
  book_body r (mkStore f db) = (Raise e, s) → s = mkStore f db.
Proof.
  unfold book_body. rewrite create_booking_body_run.
  destruct (users db !! req_user r); [|by intros [= _ <-]].
  destruct (properties db !! req_property r); [|by intros [= _ <-]].
  destruct (bool_decide _); [by intros [= _ <-]|].
  destruct (_ >? _); [by intros [= _ <-]|].
  destruct (_ <=? _); [by intros [= _ <-]|].
  destruct (check_nights _ _ _); [|by intros [= _ <-]].
  destruct (get_next_booking_id db); [done|by intros [= _ <-]].
Qed.

(** On a range that holds a blocked night the availability check fails, and
    names a night of the range. *)
Lemma blocked_night_found db pid p dates d0 :
  properties db !! pid = Some p → d0 ∈ dates → ¬ day_free db pid d0 →
  ∃ d, d ∈ dates ∧ first_unavailable (availability p) dates = Some d.
Proof.
  intros Hp Hin Hblocked.
  destruct (first_unavailable (availability p) dates) as [d|] eqn:Hfirst.
  - exists d. split; [|done].
    apply first_unavailable_Some in Hfirst as (before & after & -> & _).
    apply elem_of_app. right. by left.
  - destruct Hblocked.
    destruct (proj1 (first_unavailable_None _ _) Hfirst d0 Hin) as (day_info & ? & ?).
    by exists p, day_info.
Qed.

(** ** The quote *)

Lemma calculate_booking_cost_run pid ci co f m :
  calculate_booking_cost pid ci co (mkStore f m) =
  (match properties (database f) !! pid with
   | None => Raise (ValueError (Property_not_found pid))
   | Some p =>
     if co - ci <=? 0 then Raise (ValueError Check_out_must_be_after_check_in)
     else match quote_nights (availability p) (date_range ci co) [] 0 with
          | Raise e => Raise e
          | Return (nightly, total_price) =>
              fees pid ci co (co - ci) nightly total_price
          end
   end,
   mkStore f (database f)).
Proof.
  unfold calculate_booking_cost, database. run. rewrite not_in_dom_lookup.
  destruct (properties (default empty_db f) !! pid) as [p|]; simpl; [|done].
  destruct (co - ci <=? 0); simpl; [done|].
  destruct (quote_nights _ _ _ _) as [[nightly total_price]|e]; simpl; [|done].
  done.
Qed.

Lemma quote_first_unavailable pid ci co f p d :
  properties (database f) !! pid = Some p → ci < co →
  first_unavailable (availability p) (date_range ci co) = Some d →
  fst (call (calculate_booking_cost pid ci co) f)
  = Raise (ValueError (Property_not_available_on d)).
Proof.
  intros Hp Hlt Hfirst. unfold call. rewrite calculate_booking_cost_run, Hp. simpl.
  destruct (Z.leb_spec (co - ci) 0); [lia|].
  pose proof (quote_nights_first_unavailable (availability p) (date_range ci co) [] 0) as H'.
  rewrite Hfirst in H'. by rewrite H'.
Qed.

Lemma book_first_unavailable r f p d :
  valid_request (database f) r →
  properties (database f) !! req_property r = Some p →
  req_check_in r < req_check_out r →
  first_unavailable (availability p) (date_range (req_check_in r) (req_check_out r))
  = Some d →
  call (book r) f = (Raise (ValueError (Property_not_available_on d)), f).
Proof.
  intros (user & p' & Hu & Hp' & Hpm & Hg) Hp Hlt Hfirst.
  assert (p' = p) as -> by congruence.
  rewrite call_book. unfold book_body. rewrite create_booking_body_run, Hu, Hp.
  rewrite bool_decide_eq_false_2 by tauto.
  destruct (Z.gtb_spec (req_guests r) (capacity_guests p)); [lia|].
  destruct (Z.leb_spec (req_check_out r - req_check_in r) 0); [lia|].
  pose proof (check_nights_first_unavailable (availability p)
                (date_range (req_check_in r) (req_check_out r)) 0) as H'.
  rewrite Hfirst in H'. by rewrite H'.
Qed.

Lemma book_blocked_fails r f d0 :
  in_range (req_check_in r) (req_check_out r) d0 →
  ¬ day_free (database f) (req_property r) d0 →
  succeeded (fst (call (book r) f)) = false.
Proof.
  intros Hd0 Hblocked. rewrite call_book.
  destruct (book_body r _) as [[b|e] s] eqn:Hrun; [|done].
  apply book_body_Return in Hrun as [(_ & _ & Hfree) _].
  destruct Hblocked. by apply Hfree.
Qed.

(** ** No double booking *)

Lemma with_booking_nights_booked b db p :
  properties db !! property_id b = Some p →
  (∀ d, nights_of b d → is_Some (availability p !! d)) →
  ∀ d, nights_of b d → day_has_status (with_booking b db) (property_id b) d "booked".
Proof.
  intros Hp Hall d Hd. destruct (Hall d Hd) as [day_info Hday].
  exists (set_availability
            (set_days "booked" (date_range (check_in_date b) (check_out_date b))
               (availability p)) p),
         (set_status "booked" day_info).
  split_and!; [|simpl|done].
  - simpl. by rewrite lookup_alter_eq, Hp.
  - rewrite set_days_lookup, bool_decide_eq_true_2, Hday; [done|].
    by apply elem_of_date_range.
Qed.

(** C1 (amended).  Starting from a database in which the nights of every
    booking that is not cancelled are blocked and no two such bookings overlap
    (for instance a database without bookings), every state reached by
    [create_booking] and [cancel_booking] calls has no two overlapping
    bookings that are not cancelled; while a booking is not cancelled, a quote
    or a booking of a range that shares a night with it fails, with "Property
    not available on" naming a night of the requested range when the other
    checks pass; and right after a successful booking every night of its range
    has status "booked". *)
Theorem no_double_booking_from_consistent (f0 : option DB) (ops : list Op) :
  consistent (database f0) →
  let f := run_ops ops f0 in
  let db := database f in
  no_double_booking db ∧
  (∀ id b ci co,
     bookings db !! id = Some b → active b →
     (∃ d, in_range ci co d ∧ nights_of b d) →
     (is_Some (properties db !! property_id b) →
      ∃ d, in_range ci co d ∧
           fst (call (calculate_booking_cost (property_id b) ci co) f)
           = Raise (ValueError (Property_not_available_on d))) ∧
     (∀ r, req_property r = property_id b → req_check_in r = ci →
           req_check_out r = co →
           succeeded (fst (call (book r) f)) = false ∧
           (valid_request db r →
            ∃ d, in_range ci co d ∧
                 call (book r) f = (Raise (ValueError (Property_not_available_on d)), f)))) ∧
  (∀ r b f',
     call (book r) f = (Return b, f') →
     ∀ d, in_range (req_check_in r) (req_check_out r) d →
          day_has_status (database f') (req_property r) d "booked").
Proof.
  intros Hcons f db.
  destruct (run_ops_consistent ops f0 Hcons) as [Hndb Hblocked].
  fold f in Hndb, Hblocked. fold db in Hndb, Hblocked.
  split_and!; [done| |].
  - intros id b ci co Hb Hact (d0 & Hd0 & Hnight).
    pose proof (Hblocked id b d0 Hb Hact Hnight) as Hnot.
    split.
    + intros [p Hp].
      destruct (blocked_night_found db _ p (date_range ci co) d0 Hp) as (d & Hd & Hfirst);
        [by apply elem_of_date_range|done|].
      exists d. split; [by apply elem_of_date_range|].
      eapply quote_first_unavailable; [done| |done]. unfold in_range in Hd0. lia.
    + intros r Hprop <- <-. split.
      * eapply book_blocked_fails; [done|]. by rewrite Hprop.
      * intros Hvalid. pose proof Hvalid as (_ & p & _ & Hp & _).
        destruct (blocked_night_found db _ p
                    (date_range (req_check_in r) (req_check_out r)) d0 Hp)
          as (d & Hd & Hfirst); [by apply elem_of_date_range|by rewrite Hprop|].
        exists d. split; [by apply elem_of_date_range|].
        eapply book_first_unavailable; [done..| |done]. unfold in_range in Hd0. lia.
  - intros r b f' Hcall d Hd. rewrite call_book in Hcall.
    destruct (book_body r _) as [res s] eqn:Hrun. injection Hcall as -> <-.
    apply book_body_Return in Hrun
      as (_ & id & total_price & p & _ & Hp & Hc & -> & ->).
    simpl. apply (with_booking_nights_booked (new_booking r id total_price) db p);
      [done| |done].
    intros d' Hd'%elem_of_date_range.
    destruct (check_nights_Return _ _ _ _ Hc d' Hd') as (day_info & -> & _). by eexists.
Qed.

(** C1 as stated fails on a database generated by [make_db.py]: the nights of
    the pending booking BOOK0001 are available, the same range is booked
    again, and the two bookings, neither of them cancelled, overlap. *)
Lemma double_booking_from_generated_db :
  ¬ no_double_booking
      (database (run_ops [Create sample_request] (Some generated_db))).
Proof.
  intros Hndb.
  apply (Hndb "BOOK0001" "BOOK002" pending_booking
           (new_booking sample_request "BOOK002" 200)).
  - by vm_compute.
  - by vm_compute.
  - done.
  - by intros [=].
  - by intros [=].
  - split; [done|]. exists may_15. by vm_compute.
Qed.

Lemma no_double_booking_from_consistent_witness :
  consistent (database (Some sample_db)) ∧
  no_double_booking
    (database (run_ops [Create sample_request; Cancel may_15 "BOOK001" "";
                        Create sample_request] (Some sample_db))).
Proof.
  assert (consistent (database (Some sample_db))) as Hcons.
  { split.
    - intros id1 id2 b1 b2 H1. simpl in H1. by rewrite lookup_empty in H1.
    - intros id b d H1. simpl in H1. by rewrite lookup_empty in H1. }
  split; [exact Hcons|].
  apply (no_double_booking_from_consistent (Some sample_db)
           [Create sample_request; Cancel may_15 "BOOK001" ""; Create sample_request]
           Hcons).
Defined.

(** ** Atomicity of a failed booking *)

Lemma validation_fails_not_bookable db r : validation_fails db r → ¬ bookable db r.
Proof.
  intros Hfail [(u & p & Hu & Hp & Hpm & Hg) [Hlt Hfree]].
  destruct Hfail as [H|[H|[(u' & Hu' & H)|[(p' & Hp' & H)|[H|(d & Hd & H)]]]]].
  - congruence.
  - congruence.
  - assert (u' = u) as -> by congruence. done.
  - assert (p' = p) as -> by congruence. lia.
  - lia.
  - by apply H, Hfree.
Qed.

(** C2.  When a request fails a validation of [create_booking] (unknown user,
    unknown property, unknown payment method, too many guests, check-in not
    before check-out, or a night of the range absent or not available), the
    call raises and changes nothing: the file is as before, and so is the
    dictionary it loaded. *)
Theorem create_booking_atomic (r : Request) (f : option DB) (m : DB) :
  validation_fails (database f) r →
  ∃ e, book r (mkStore f m) = (Raise e, mkStore f (database f)) ∧
       call (book r) f = (Raise e, f).
Proof.
  intros Hfail%validation_fails_not_bookable.
  rewrite call_book. unfold book. rewrite create_booking_run. fold (book_body r).
  destruct (book_body r _) as [[b|e] s] eqn:Hrun.
  - by apply book_body_Return in Hrun as [? _].
  - apply book_body_Raise in Hrun as ->. by exists e.
Qed.

Lemma create_booking_atomic_witness :
  validation_fails (database (Some sample_db))
    (mkRequest may_15 "user1" "U1" may_15 (may_15 + 4) 2 "pm1" "") ∧
  ∃ e, call (book (mkRequest may_15 "user1" "U1" may_15 (may_15 + 4) 2 "pm1" ""))
         (Some sample_db) = (Raise e, Some sample_db).
Proof.
  assert (validation_fails (database (Some sample_db))
            (mkRequest may_15 "user1" "U1" may_15 (may_15 + 4) 2 "pm1" "")) as Hfail.
  { do 5 right. exists (may_15 + 3). split; [by vm_compute|].
    intros (p & day_info & Hp & Hd & _). vm_compute in Hp. injection Hp as <-.
    vm_compute in Hd. discriminate Hd. }
  split; [exact Hfail|].
  destruct (create_booking_atomic _ (Some sample_db) empty_db Hfail) as (e & _ & He).
  by exists e.
Defined.

(** ** The quote changes nothing *)

Lemma call_quote pid ci co f :
  snd (call (calculate_booking_cost pid ci co) f) = f.
Proof. unfold call. by rewrite calculate_booking_cost_run. Qed.

(** C8.  [calculate_booking_cost] leaves the file and the loaded dictionary as
    they are, whatever its outcome, and [n] calls in a row on the same state
    give [n] times the same outcome. *)
Theorem quote_read_only (pid : string) (ci co : date) (f : option DB) (m : DB) (n : nat) :
  snd (calculate_booking_cost pid ci co (mkStore f m)) = mkStore f (database f) ∧
  repeat_call n (calculate_booking_cost pid ci co) f =
  (replicate n (fst (call (calculate_booking_cost pid ci co) f)), f).
Proof.
  split; [by rewrite calculate_booking_cost_run|].
  induction n as [|n IH]; [done|].
  simpl. pose proof (call_quote pid ci co f) as Hsame.
  destruct (call (calculate_booking_cost pid ci co) f) as [res f'].
  simpl in Hsame. subst f'. by rewrite IH.
Qed.

(** ** The order of the checks *)

(** C9 (amended).  [create_booking] checks the payment method before the
    number of guests: a request of a known user for a known property whose
    payment method is not registered is refused with "Payment method ... not
    found for user", whatever the number of guests; the capacity error is
    reported only when the payment method is registered. *)
Theorem payment_checked_before_capacity (r : Request) (f : option DB) (u : User)
    (p : Property) :
  users (database f) !! req_user r = Some u →
  properties (database f) !! req_property r = Some p →
  (req_payment r ∉ payment_methods u →
   call (book r) f = (Raise (ValueError (Payment_method_not_found (req_payment r))), f)) ∧
  (req_payment r ∈ payment_methods u → req_guests r > capacity_guests p →
   call (book r) f =
   (Raise (ValueError (Property_can_only_accommodate (capacity_guests p))), f)).
Proof.
  intros Hu Hp. rewrite call_book. unfold book_body.
  rewrite create_booking_body_run, Hu, Hp. split.
  - intros Hpm. by rewrite (bool_decide_eq_true_2 _ Hpm).
  - intros Hpm Hg. rewrite bool_decide_eq_false_2 by tauto.
    by destruct (Z.gtb_spec (req_guests r) (capacity_guests p)); [|lia].
Qed.

Lemma payment_checked_before_capacity_witness :
  call (book doubly_invalid_request) (Some sample_db)
  = (Raise (ValueError (Payment_method_not_found "pm9")), Some sample_db).
Proof.
  refine (proj1 (payment_checked_before_capacity doubly_invalid_request
                   (Some sample_db) (mkUser {[ "pm1" ]} [])
                   (mkProperty 4 (three_nights "available")) _ _) _).
  - by vm_compute.
  - by vm_compute.
  - by vm_compute.
Defined.

(** C9 as stated fails: the request exceeds the capacity of 4 and names an
    unknown payment method, and the error is not the capacity error. *)
Lemma capacity_not_reported_first :
  req_guests doubly_invalid_request > 4 ∧
  fst (call (book doubly_invalid_request) (Some sample_db))
  = Raise (ValueError (Payment_method_not_found "pm9")) ∧
  fst (call (book doubly_invalid_request) (Some sample_db))
  ≠ Raise (ValueError (Property_can_only_accommodate 4)).
Proof. by vm_compute. Qed.

(** ** The failing date of a range *)

Lemma date_range_cons ci co :
  ci < co → date_range ci co = ci :: date_range (ci + 1) co.
Proof.
  intros Hlt. unfold date_range.
  rewrite (seqZ_cons ci (co - ci)) by lia.
  f_equal. f_equal; lia.
Qed.

Lemma date_range_nil ci co : co <= ci → date_range ci co = [].
Proof. intros Hle. unfold date_range. apply seqZ_nil. lia. Qed.

(** In a range, the date found by [first_unavailable] has only available
    dates before it. *)
Lemma first_unavailable_range avail ci co d :
  first_unavailable avail (date_range ci co) = Some d →
  in_range ci co d ∧
  (∀ d', ci <= d' < d →
     ∃ day_info, avail !! d' = Some day_info ∧ status day_info = "available") ∧
  (avail !! d = None ∨
   ∃ day_info, avail !! d = Some day_info ∧ status day_info ≠ "available").
Proof.
  remember (Z.to_nat (co - ci)) as n eqn:Hn.
  revert ci Hn. induction n as [|n IH]; intros ci Hn.
  - rewrite date_range_nil by lia. done.
  - rewrite date_range_cons by lia. simpl.
    destruct (avail !! ci) as [day_info|] eqn:Hci.
    + case_bool_decide as Hs.
      * intros (Hin & Hbefore & Hd)%IH; [|lia].
        split; [unfold in_range in *; lia|]. split; [|done].
        intros d' Hd'. destruct (decide (d' = ci)) as [->|]; [eauto|].
        apply Hbefore. lia.
      * intros [= <-]. split; [unfold in_range; lia|]. split; [intros; lia|eauto].
    + intros [= <-]. split; [unfold in_range; lia|]. split; [intros; lia|eauto].
Qed.

(** C7 (amended).  In [calculate_booking_cost] and in [create_booking] the
    range is checked night by night; the first night that is absent from the
    calendar or present with a status other than "available" ends the check
    with the same error in both cases, "Property not available on" that date. *)
Theorem range_failure_names_first_date (f : option DB) (pid : string) (p : Property)
    (ci co d : date) :
  properties (database f) !! pid = Some p →
  ci < co →
  first_unavailable (availability p) (date_range ci co) = Some d →
  in_range ci co d ∧
  (∀ d', ci <= d' < d → day_free (database f) pid d') ∧
  (availability p !! d = None ∨
   ∃ day_info, availability p !! d = Some day_info ∧ status day_info ≠ "available") ∧
  fst (call (calculate_booking_cost pid ci co) f)
  = Raise (ValueError (Property_not_available_on d)) ∧
  (∀ r, req_property r = pid → req_check_in r = ci → req_check_out r = co →
        valid_request (database f) r →
        call (book r) f = (Raise (ValueError (Property_not_available_on d)), f)).
Proof.
  intros Hp Hlt Hfirst.
  destruct (first_unavailable_range _ _ _ _ Hfirst) as (Hin & Hbefore & Hd).
  split_and!; [done| |done| |].
  - intros d' Hd'. destruct (Hbefore d' Hd') as (day_info & ? & ?).
    by exists p, day_info.
  - by eapply quote_first_unavailable.
  - intros r <- <- <- Hvalid. by eapply book_first_unavailable.
Qed.

Lemma range_failure_names_first_date_witness :
  fst (call (calculate_booking_cost "U1" may_15 (may_15 + 5)) (Some sample_db))
  = Raise (ValueError (Property_not_available_on (may_15 + 3))).
Proof.
  refine (proj1 (proj2 (proj2 (proj2
    (range_failure_names_first_date (Some sample_db) "U1"
       (mkProperty 4 (three_nights "available")) may_15 (may_15 + 5) (may_15 + 3)
       _ _ _))))).
  - by vm_compute.
  - by vm_compute.
  - by vm_compute.
Defined.

(** C7 as stated fails: 2024-05-15 is absent from one calendar and booked in
    the other, and the caller receives the same error from the quote and from
    the booking. *)
Lemma not_offered_and_unavailable_alike :
  (∃ p, properties not_offered_db !! "U1" = Some p ∧ availability p !! may_15 = None) ∧
  day_has_status booked_db "U1" may_15 "booked" ∧
  fst (call (calculate_booking_cost "U1" may_15 (may_15 + 1)) (Some not_offered_db))
  = fst (call (calculate_booking_cost "U1" may_15 (may_15 + 1)) (Some booked_db)) ∧
  fst (call (book one_night_request) (Some not_offered_db))
  = fst (call (book one_night_request) (Some booked_db)).
Proof.
  split_and!.
  - eexists. split; by vm_compute.
  - eexists _, _. split_and!; by vm_compute.
  - by vm_compute.
  - by vm_compute.
Qed.

(** ** Lookups of unknown ids *)

(** C10.  For ids that are not in the database the lookup tools return the
    empty dictionary, and [get_user_bookings] the empty list, without raising
    and without touching the file, whereas [create_booking], [cancel_booking],
    [add_review] and [calculate_booking_cost] raise a not-found error. *)
Theorem unknown_ids_do_not_raise (f : option DB) (pid uid bid : string) :
  properties (database f) !! pid = None →
  users (database f) !! uid = None →
  bookings (database f) !! bid = None →
  call (get_property_details pid) f = (Return Empty_dict, f) ∧
  call (get_user_profile uid) f = (Return Empty_dict, f) ∧
  call (get_booking_details bid) f = (Return Empty_dict, f) ∧
  call (get_user_bookings uid) f = (Return [], f) ∧
  (∀ r, req_user r = uid →
        call (book r) f = (Raise (ValueError (User_not_found uid)), f)) ∧
  (∀ r, is_Some (users (database f) !! req_user r) → req_property r = pid →
        call (book r) f = (Raise (ValueError (Property_not_found pid)), f)) ∧
  (∀ today reason,
     call (cancel_booking today bid reason) f
     = (Raise (ValueError (Booking_not_found bid)), f)) ∧
  (∀ today rating comment,
     call (add_review today bid rating comment) f
     = (Raise (ValueError (Booking_not_found bid)), f)) ∧
  (∀ ci co,
     call (calculate_booking_cost pid ci co) f
     = (Raise (ValueError (Property_not_found pid)), f)).
Proof.
  intros Hp Hu Hb. unfold database in *. split_and!.
  - unfold call, get_property_details, dict_get. run. by rewrite Hp.
  - unfold call, get_user_profile, dict_get. run. by rewrite Hu.
  - unfold call, get_booking_details, dict_get. run. by rewrite Hb.
  - unfold call, get_user_bookings. run. by rewrite not_in_dom_lookup, Hu.
  - intros r <-. rewrite call_book. unfold book_body, database.
    by rewrite create_booking_body_run, Hu.
  - intros r [u Hu'] <-. rewrite call_book. unfold book_body, database in *.
    by rewrite create_booking_body_run, Hu', Hp.
  - intros today reason. unfold call.
    rewrite cancel_booking_run, cancel_booking_body_run. unfold database.
    by rewrite Hb.
  - intros today rating comment. unfold call, add_review. run.
    by rewrite not_in_dom_lookup, Hb.
  - intros ci co. unfold call. rewrite calculate_booking_cost_run. unfold database.
    by rewrite Hp.
Qed.

Lemma unknown_ids_do_not_raise_witness :
  call (get_property_details "U2") (Some sample_db) = (Return Empty_dict, Some sample_db) ∧
  call (get_user_bookings "user2") (Some sample_db) = (Return [], Some sample_db).
Proof.
  destruct (unknown_ids_do_not_raise (Some sample_db) "U2" "user2" "BOOK001")
    as (H1 & _ & _ & H4 & _).
  - by vm_compute.
  - by vm_compute.
  - by vm_compute.
  - split; [exact H1|exact H4].
Defined.

(** ** Cancellation *)

(** C6.  [cancel_booking] raises "Booking ... not found" for an unknown id,
    "Booking is already cancelled" for a cancelled booking and "Cannot cancel
    completed booking" for a completed one, each time leaving the file as it
    is.  Otherwise, when the property of the booking is in the database, it
    returns the booking with status "cancelled", the reason and the date of
    the day, its other fields as they were, and stores it under its id; in
    the calendar of the property every date of the range that is present
    gets status "available" and keeps its price, a date of the range that is
    absent stays absent, and nothing else changes. *)
Theorem cancel_booking_contract (today : date) (id reason : string) (f : option DB) :
  let db := database f in
  let outcome := call (cancel_booking today id reason) f in
  (bookings db !! id = None →
   outcome = (Raise (ValueError (Booking_not_found id)), f)) ∧
  (∀ b, bookings db !! id = Some b →
     (booking_status b = "cancelled" →
      outcome = (Raise (ValueError Booking_is_already_cancelled), f)) ∧
     (booking_status b = "completed" →
      outcome = (Raise (ValueError Cannot_cancel_completed_booking), f)) ∧
     (booking_status b ≠ "cancelled" → booking_status b ≠ "completed" →
      ∀ p, properties db !! property_id b = Some p →
      ∃ b' db' p',
        outcome = (Return b', Some db') ∧
        b' = mkBooking (booking_id b) (user_id b) (property_id b) (check_in_date b)
               (check_out_date b) (nights b) (guest_count b) "cancelled"
               (total_price b) (booking_date b) (payment_method_id b)
               (special_requests b) (cancellation_policy b) (host_notes b)
               (Some reason) (Some today) ∧
        bookings db' !! id = Some b' ∧
        (∀ id', id' ≠ id → bookings db' !! id' = bookings db !! id') ∧
        users db' = users db ∧ reviews db' = reviews db ∧
        properties db' !! property_id b = Some p' ∧
        capacity_guests p' = capacity_guests p ∧
        (∀ pid, pid ≠ property_id b → properties db' !! pid = properties db !! pid) ∧
        (∀ d day_info,
           check_in_date b <= d < check_out_date b →
           availability p !! d = Some day_info →
           availability p' !! d
           = Some (mkDayInfo "available" (price_per_night day_info))) ∧
        (∀ d, check_in_date b <= d < check_out_date b →
              availability p !! d = None → availability p' !! d = None) ∧
        (∀ d, ¬ (check_in_date b <= d < check_out_date b) →
              availability p' !! d = availability p !! d))).
Proof.
  intros db outcome. unfold outcome, call.
  rewrite cancel_booking_run, cancel_booking_body_run. fold db.
  split; [by intros ->|].
  intros b Hb. rewrite Hb. split_and!.
  - intros Hs. by rewrite (bool_decide_eq_true_2 _ Hs).
  - intros Hs. case_bool_decide; [congruence|]. by rewrite (bool_decide_eq_true_2 _ Hs).
  - intros Hs1 Hs2 p Hp.
    rewrite (bool_decide_eq_false_2 _ Hs1), (bool_decide_eq_false_2 _ Hs2), Hp.
    exists (mark_cancelled reason today b), (without_booking today reason id b db),
           (set_availability
              (set_days "available" (date_range (check_in_date b) (check_out_date b))
                 (availability p)) p).
    split; [reflexivity|]. simpl. split_and!; try done.
    + by rewrite lookup_alter_eq, Hb.
    + intros id' Hne. by rewrite lookup_alter_ne.
    + by rewrite lookup_alter_eq, Hp.
    + intros pid Hne. by rewrite lookup_alter_ne.
    + intros d day_info Hd Hday. rewrite set_days_lookup, Hday.
      by rewrite (bool_decide_eq_true_2 _ (proj2 (elem_of_date_range _ _ d) Hd)).
    + intros d Hd Hday. rewrite set_days_lookup, Hday. by case_bool_decide.
    + intros d Hd. rewrite set_days_lookup.
      rewrite bool_decide_eq_false_2; [done|]. by rewrite elem_of_date_range.
Qed.

(** A booking whose property is not in the database cannot be cancelled: the
    lookup raises [KeyError] before [save_db], and the file stays as it is. *)
Lemma cancel_booking_missing_property today id reason f b :
  bookings (database f) !! id = Some b →
  booking_status b ≠ "cancelled" → booking_status b ≠ "completed" →
  properties (database f) !! property_id b = None →
  call (cancel_booking today id reason) f = (Raise (KeyError (property_id b)), f).
Proof.
  intros Hb Hs1 Hs2 Hp. unfold call.
  rewrite cancel_booking_run, cancel_booking_body_run, Hb.
  by rewrite (bool_decide_eq_false_2 _ Hs1), (bool_decide_eq_false_2 _ Hs2), Hp.
Qed.

Lemma cancel_booking_contract_witness :
  ∃ b' db' p',
    call (cancel_booking (may_15 + 1) "BOOK0002" "change of plans") (Some horizon_db)
    = (Return b', Some db') ∧
    booking_status b' = "cancelled" ∧
    properties db' !! "U1" = Some p' ∧
    availability p' !! (may_15 + 1) = Some (mkDayInfo "available" 100) ∧
    availability p' !! (may_15 + 3) = None.
Proof.
  destruct (proj2 (cancel_booking_contract (may_15 + 1) "BOOK0002" "change of plans"
                     (Some horizon_db)) overhanging_booking) as (_ & _ & Hcancel).
  { by vm_compute. }
  destruct (Hcancel ltac:(by intros [=]) ltac:(by intros [=])
              (mkProperty 4
                 (list_to_map [(may_15, mkDayInfo "available" 100);
                               (may_15 + 1, mkDayInfo "booked" 100);
                               (may_15 + 2, mkDayInfo "booked" 100)])))
    as (b' & db' & p' & Hout & Hb' & _ & _ & _ & _ & Hp' & _ & _ & Hset & Hskip & _).
  { by vm_compute. }
  exists b', db', p'. split_and!.
  - exact Hout.
  - by rewrite Hb'.
  - exact Hp'.
  - apply (Hset (may_15 + 1) (mkDayInfo "booked" 100)); [by vm_compute|by vm_compute].
  - apply (Hskip (may_15 + 3)); [by vm_compute|by vm_compute].
Defined.

(** On a database in which the property of a confirmed booking is missing,
    [cancel_booking] raises [KeyError] and cancels nothing. *)
Lemma cancel_booking_of_missing_property_raises :
  bookings dangling_db !! "BOOK0002" = Some overhanging_booking ∧
  booking_status overhanging_booking = "confirmed" ∧
  call (cancel_booking (may_15 + 1) "BOOK0002" "change of plans") (Some dangling_db)
  = (Raise (KeyError "U1"), Some dangling_db).
Proof. by vm_compute. Qed.

Example cancel_skips_missing_dates :
  properties (database (snd (call (cancel_booking (may_15 + 1) "BOOK0002" "")
                               (Some horizon_db))))
  = {[ "U1" := mkProperty 4 (three_nights "available") ]}.
Proof. by vm_compute. Qed.

(** ** Booking ids *)

Lemma remove_occurrences_digits u :
  remove_occurrences "BOOK" 0 (NilEmpty.string_of_uint u) = NilEmpty.string_of_uint u.
Proof. induction u; simpl; by rewrite ?IHu. Qed.

Lemma remove_occurrences_zeros k s :
  remove_occurrences "BOOK" 0 (zeros k +:+ s) = zeros k +:+ remove_occurrences "BOOK" 0 s.
Proof. induction k as [|k IH]; simpl; by rewrite ?IH. Qed.

Lemma uint_of_string_zeros k u :
  NilEmpty.uint_of_string (zeros k +:+ NilEmpty.string_of_uint u)
  = Some (Nat.iter k Decimal.D0 u).
Proof.
  induction k as [|k IH]; simpl.
  - apply NilEmpty.usu.
  - by rewrite IH.
Qed.

Lemma of_uint_zeros k u : N.of_uint (Nat.iter k Decimal.D0 u) = N.of_uint u.
Proof. induction k as [|k IH]; simpl; [done|]. exact IH. Qed.

Lemma string_of_to_uint_nonempty n k :
  zeros k +:+ NilEmpty.string_of_uint (N.to_uint n) ≠ "".
Proof.
  destruct k; [|done]. simpl. destruct n as [|p]; [done|]. simpl.
  pose proof (DecimalPos.Unsigned.to_uint_nonnil p) as Hnil.
  by destruct (Pos.to_uint p).
Qed.

Lemma remove_occurrences_prefix s :
  remove_occurrences "BOOK" 0 ("BOOK" +:+ s) = remove_occurrences "BOOK" 0 s.
Proof.
  change ("BOOK" +:+ s) with (String "B" (String "O" (String "O" (String "K" s)))).
  simpl. by destruct s.
Qed.

(** A character of a string of ASCII digits. *)
Lemma digit_char c s u :
  NilEmpty.uint_of_string (String c s) = Some u →
  (N_of_ascii c <? 128)%N = true ∧ is_space c = false ∧ Ascii.eqb c "_" = false ∧
  c ≠ "+"%char ∧ c ≠ "-"%char ∧ is_Some (NilEmpty.uint_of_string s).
Proof.
  simpl. destruct (NilEmpty.uint_of_string s) as [u'|]; [|done].
  destruct c as [[] [] [] [] [] [] [] []]; try done; by intros _; split_and!.
Qed.

Lemma to_ascii_digits s u : NilEmpty.uint_of_string s = Some u → to_ascii s = Some s.
Proof.
  revert u. induction s as [|c s IH]; intros u Hu; [done|].
  destruct (digit_char c s u Hu) as (Hc & _ & _ & _ & _ & [u' Hu']).
  cbn [to_ascii]. cbv zeta. rewrite Hc, (IH u' Hu'). done.
Qed.

Lemma strip_left_digits s u : NilEmpty.uint_of_string s = Some u → strip_left s = s.
Proof.
  destruct s as [|c s]; [done|]. intros Hu.
  destruct (digit_char c s u Hu) as (_ & Hc & _). cbn [strip_left]. by rewrite Hc.
Qed.

Lemma strip_right_digits s u : NilEmpty.uint_of_string s = Some u → strip_right s = s.
Proof.
  revert u. induction s as [|c s IH]; intros u Hu; [done|].
  destruct (digit_char c s u Hu) as (_ & Hc & _ & _ & _ & [u' Hu']).
  cbn [strip_right]. rewrite (IH u' Hu'), Hc. by destruct s.
Qed.

Lemma without_underscores_digits s u after_digit :
  NilEmpty.uint_of_string s = Some u → s ≠ "" ∨ after_digit = true →
  without_underscores s after_digit = Some s.
Proof.
  revert u after_digit. induction s as [|c s IH]; intros u after_digit Hu Hne.
  { destruct Hne as [?| ->]; done. }
  destruct (digit_char c s u Hu) as (_ & _ & Hc & _ & _ & [u' Hu']).
  cbn [without_underscores]. rewrite Hc, (IH u' true Hu'); [done|by right].
Qed.

(** [int] on a string of ASCII digits, and on one that follows a minus sign. *)
Lemma int_digits s u :
  NilEmpty.uint_of_string s = Some u → s ≠ "" → int s = Return (Z.of_N (N.of_uint u)).
Proof.
  intros Hu Hne. unfold int.
  rewrite (to_ascii_digits s u Hu). cbn [mbind option_bind].
  rewrite (strip_left_digits s u Hu), (strip_right_digits s u Hu).
  destruct s as [|c s]; [done|].
  destruct (digit_char c s u Hu) as (_ & _ & _ & Hplus & Hminus & _).
  assert (match String c s with
          | String "+" rest => (false, rest)
          | String "-" rest => (true, rest)
          | _ => (false, String c s)
          end = (false, String c s)) as ->.
  { destruct c as [[] [] [] [] [] [] [] []]; done. }
  rewrite (without_underscores_digits _ u false Hu) by by left.
  cbn [mbind option_bind]. by rewrite Hu.
Qed.

Lemma int_minus_digits s u :
  NilEmpty.uint_of_string s = Some u → s ≠ "" →
  int (String "-" s) = Return (- Z.of_N (N.of_uint u)).
Proof.
  intros Hu Hne. unfold int.
  cbn [to_ascii]. cbv zeta. rewrite (to_ascii_digits s u Hu).
  change (N_of_ascii "-" <? 128)%N with true. cbn [fmap option_fmap option_map mbind option_bind].
  cbn [strip_left]. change (is_space "-") with false. cbv iota.
  cbn [strip_right]. rewrite (strip_right_digits s u Hu).
  destruct s as [|c s]; [done|].
  rewrite (without_underscores_digits _ u false Hu) by by left.
  cbn [mbind option_bind]. by rewrite Hu.
Qed.

Lemma int_of_format_03d n : int (format_03d n) = Return n.
Proof.
  unfold format_03d.
  set (k3 := (3 - _)%nat). set (k2 := (2 - _)%nat).
  destruct (Z.ltb_spec n 0).
  - rewrite (int_minus_digits _ _ (uint_of_string_zeros k2 _))
      by apply string_of_to_uint_nonempty.
    rewrite of_uint_zeros, DecimalN.Unsigned.of_to. f_equal. lia.
  - rewrite (int_digits _ _ (uint_of_string_zeros k3 _))
      by apply string_of_to_uint_nonempty.
    rewrite of_uint_zeros, DecimalN.Unsigned.of_to. f_equal. lia.
Qed.

Lemma remove_occurrences_format_03d n :
  remove_occurrences "BOOK" 0 (format_03d n) = format_03d n.
Proof.
  unfold format_03d. destruct (n <? 0).
  - change (remove_occurrences "BOOK" 0 (String "-" ?s))
      with (String "-" (remove_occurrences "BOOK" 0 s)).
    by rewrite remove_occurrences_zeros, remove_occurrences_digits.
  - by rewrite remove_occurrences_zeros, remove_occurrences_digits.
Qed.

(** The id written by [get_next_booking_id] is read back as its number. *)
Lemma int_of_new_id n :
  int (replace_with_empty "BOOK" ("BOOK" +:+ format_03d n)) = Return n.
Proof.
  unfold replace_with_empty.
  by rewrite remove_occurrences_prefix, remove_occurrences_format_03d, int_of_format_03d.
Qed.



Lemma elem_of_keys {V} (m : gmap string V) k :
  k ∈ map fst (map_to_list m) ↔ is_Some (m !! k).
Proof.
  rewrite list_elem_of_fmap. split.
  - intros ([k' v] & -> & Hin%elem_of_map_to_list). by eexists.
  - intros [v Hv]. exists (k, v). split; [done|]. by apply elem_of_map_to_list.
Qed.


Lemma numeric_suffixes_elem prefix keys ns k n :
  numeric_suffixes prefix keys = Return ns → k ∈ keys →
  int (replace_with_empty prefix k) = Return n → n ∈ ns.
Proof.
  revert ns. induction keys as [|k' keys IH]; intros ns; simpl.
  - intros _ Hk. by apply elem_of_nil in Hk.
  - destruct (int (replace_with_empty prefix k')) as [n'|e] eqn:Hint; [|done]. simpl.
    destruct (numeric_suffixes prefix keys) as [ns'|e]; [|done]. simpl.
    intros [= <-] [->|Hk]%elem_of_cons Hn.
    + rewrite Hint in Hn. injection Hn as ->. by left.
    + right. by eapply IH.
Qed.

Lemma foldl_max_upper ns x n : n <= x ∨ n ∈ ns → n <= foldl Z.max x ns.
Proof.
  revert x. induction ns as [|y ns IH]; intros x; simpl.
  - intros [?|Hn]; [done|]. by apply elem_of_nil in Hn.
  - intros [?|[->|Hn]%elem_of_cons]; apply IH; [left; lia|left; lia|by right].
Qed.

Lemma max_default_upper ns n d : n ∈ ns → n <= max_default ns d.
Proof.
  destruct ns as [|x ns]; simpl; [by intros ?%elem_of_nil|].
  intros [->|Hn]%elem_of_cons; apply foldl_max_upper; [left; lia|by right].
Qed.

(** The id of a new booking is not the id of a booking of the database:
    [create_booking] never replaces a booking. *)
Lemma get_next_booking_id_fresh db id :
  get_next_booking_id db = Return id → bookings db !! id = None.
Proof.
  unfold get_next_booking_id, next_id. intros Hid.
  destruct (numeric_suffixes "BOOK" (map fst (map_to_list (bookings db))))
    as [ns|e] eqn:Hns; [|done].
  injection Hid as <-.
  destruct (bookings db !! _) as [b|] eqn:Hb; [|done].
  assert (max_default ns 0 + 1 ∈ ns) as Hin.
  { eapply numeric_suffixes_elem; [done| |apply int_of_new_id].
    apply elem_of_keys. by eexists. }
  apply (max_default_upper _ _ 0) in Hin. lia.
Qed.

(** ** Cancelling, then booking again *)





(** ** Two calls for overlapping ranges *)

(** After a successful booking, a request that shares a night with it fails. *)
Lemma second_booking_fails r r' f f1 b :
  call (book r) f = (Return b, f1) → requests_overlap r r' →
  succeeded (fst (call (book r') f1)) = false ∧
  (valid_request (database f1) r' →
   ∃ d, in_range (req_check_in r') (req_check_out r') d ∧
        call (book r') f1 = (Raise (ValueError (Property_not_available_on d)), f1)).
Proof.
  intros Hcall [Hprop (d0 & Hd0 & Hd0')].
  assert (¬ day_free (database f1) (req_property r') d0) as Hblocked.
  { rewrite call_book in Hcall.
    destruct (book_body r _) as [res s] eqn:Hrun. injection Hcall as -> <-.
    apply book_body_Return in Hrun
      as (_ & id & total_price & p & _ & Hp & Hc & -> & ->).
    destruct (with_booking_nights_booked (new_booking r id total_price)
                (database f) p Hp) with (d := d0) as (p1 & day1 & Hp1 & Hday1 & Hs1);
      [|done|].
    { intros d' Hd'%elem_of_date_range.
      destruct (check_nights_Return _ _ _ _ Hc d' Hd') as (day_info & -> & _).
      by eexists. }
    intros (p2 & day2 & Hp2 & Hday2 & Hs2). rewrite <- Hprop in Hp2.
    simpl in *. congruence. }
  split; [by eapply book_blocked_fails|].
  intros Hvalid. pose proof Hvalid as (_ & p & _ & Hp & _).
  destruct (blocked_night_found (database f1) _ p
              (date_range (req_check_in r') (req_check_out r')) d0 Hp)
    as (d & Hd & Hfirst); [by apply elem_of_date_range|done|].
  exists d. split; [by apply elem_of_date_range|].
  eapply book_first_unavailable; [done..| |done]. unfold in_range in Hd0'. lia.
Qed.

Ltac schedule_steps :=
  cbv [run_schedule foldl step caller_of progress_of initial_system set_progress
       snapshot outcome first_call second_call shared_file load_db file mem fst snd].

(** Calls that do not interleave are calls of the tool one after the other. *)
Lemma run_schedule_first_then_second r1 r2 f :
  let sys := run_schedule r1 r2 [Load First; Finish First; Load Second; Finish Second] f in
  outcome (first_call sys) = Some (fst (call (book r1) f)) ∧
  outcome (second_call sys) = Some (fst (call (book r2) (snd (call (book r1) f)))).
Proof.
  rewrite !call_book. unfold database. schedule_steps.
  destruct (book_body r1 _) as [res1 s1]. schedule_steps.
  by destruct (book_body r2 _) as [res2 s2].
Qed.

Lemma run_schedule_second_then_first r1 r2 f :
  let sys := run_schedule r1 r2 [Load Second; Finish Second; Load First; Finish First] f in
  outcome (second_call sys) = Some (fst (call (book r2) f)) ∧
  outcome (first_call sys) = Some (fst (call (book r1) (snd (call (book r2) f)))).
Proof.
  rewrite !call_book. unfold database. schedule_steps.
  destruct (book_body r2 _) as [res2 s2]. schedule_steps.
  by destruct (book_body r1 _) as [res1 s1].
Qed.

(** C4 (amended).  When two [create_booking] calls for the same property and
    overlapping ranges do not interleave, each running from its [load_db] to
    its [save_db] before or after the other, at most one of them succeeds; if
    the earlier one succeeds, the later one fails, with "Property not
    available on" naming a night of its range when its other checks pass. *)
Theorem serial_calls_exclude (r1 r2 : Request) (f : option DB) (schedule : list Event) :
  serial schedule →
  requests_overlap r1 r2 →
  let sys := run_schedule r1 r2 schedule f in
  call_succeeded (first_call sys) && call_succeeded (second_call sys) = false ∧
  (schedule = [Load First; Finish First; Load Second; Finish Second] →
   ∀ b f1, call (book r1) f = (Return b, f1) → valid_request (database f1) r2 →
   ∃ d, in_range (req_check_in r2) (req_check_out r2) d ∧
        outcome (second_call sys)
        = Some (Raise (ValueError (Property_not_available_on d)))) ∧
  (schedule = [Load Second; Finish Second; Load First; Finish First] →
   ∀ b f1, call (book r2) f = (Return b, f1) → valid_request (database f1) r1 →
   ∃ d, in_range (req_check_in r1) (req_check_out r1) d ∧
        outcome (first_call sys)
        = Some (Raise (ValueError (Property_not_available_on d)))).
Proof.
  intros Hserial Hoverlap sys.
  assert (requests_overlap r2 r1) as Hoverlap'.
  { destruct Hoverlap as [Hprop (d & ? & ?)]. split; [done|by exists d]. }
  destruct Hserial as [Hs|Hs]; subst schedule.
  - destruct (run_schedule_first_then_second r1 r2 f) as [H1 H2].
    fold sys in H1, H2. unfold call_succeeded. rewrite H1, H2.
    destruct (call (book r1) f) as [[b|e] f1] eqn:Hcall; simpl.
    + destruct (second_booking_fails r1 r2 f f1 b Hcall Hoverlap) as [Hfail Hkind].
      split_and!.
      * by destruct (fst (call (book r2) f1)).
      * intros _ b' f1' [= <- <-] Hvalid. destruct (Hkind Hvalid) as (d & Hd & ->).
        by exists d.
      * done.
    + split_and!; done.
  - destruct (run_schedule_second_then_first r1 r2 f) as [H2 H1].
    fold sys in H1, H2. unfold call_succeeded. rewrite H1, H2.
    destruct (call (book r2) f) as [[b|e] f1] eqn:Hcall; simpl.
    + destruct (second_booking_fails r2 r1 f f1 b Hcall Hoverlap') as [Hfail Hkind].
      split_and!.
      * destruct (fst (call (book r1) f1)); [done|]. apply andb_false_l.
      * done.
      * intros _ b' f1' [= <- <-] Hvalid. destruct (Hkind Hvalid) as (d & Hd & ->).
        by exists d.
    + split_and!; [apply andb_false_r|done..].
Qed.

Lemma serial_calls_exclude_witness :
  serial [Load First; Finish First; Load Second; Finish Second] ∧
  requests_overlap sample_request overlapping_request ∧
  call_succeeded (first_call (run_schedule sample_request overlapping_request
    [Load First; Finish First; Load Second; Finish Second] (Some sample_db)))
  && call_succeeded (second_call (run_schedule sample_request overlapping_request
    [Load First; Finish First; Load Second; Finish Second] (Some sample_db)))
  = false.
Proof.
  assert (serial [Load First; Finish First; Load Second; Finish Second]) as Hserial
    by (by left).
  assert (requests_overlap sample_request overlapping_request) as Hoverlap.
  { split; [done|]. exists (may_15 + 1). by vm_compute. }
  split; [exact Hserial|]. split; [exact Hoverlap|].
  apply (serial_calls_exclude sample_request overlapping_request (Some sample_db)
           _ Hserial Hoverlap).
Defined.

(** C4 as stated fails: both callers load the file before either saves; each
    finds the nights available in its own copy, both calls succeed, and the
    file keeps the state written last. *)
Lemma interleaved_calls_both_succeed :
  requests_overlap sample_request overlapping_request ∧
  call_succeeded (first_call (run_schedule sample_request overlapping_request
    [Load First; Load Second; Finish First; Finish Second] (Some sample_db))) = true ∧
  call_succeeded (second_call (run_schedule sample_request overlapping_request
    [Load First; Load Second; Finish First; Finish Second] (Some sample_db))) = true.
Proof.
  split; [|by vm_compute].
  split; [done|]. exists (may_15 + 1). by vm_compute.
Qed.

(** ** Floating-point fees

    [int(n * 0.12)] and [int(n * 0.08)] are computed with binary64 floats.
    The lemmas below follow the product through [SpecFloat]: the int becomes
    a 53-bit mantissa, the 106-bit product of the mantissas is shifted right
    and rounded half to even, and the result is truncated.  Below 2^52 the
    rounding error never crosses an integer, so the result is the exact
    floor. *)

(** The number of bits of a positive number. *)
Lemma digits2_pos_bounds m :
  2 ^ (Z.pos (digits2_pos m) - 1) <= Z.pos m < 2 ^ Z.pos (digits2_pos m).
Proof.
  induction m as [m IH|m IH|]; simpl digits2_pos.
  - rewrite Pos2Z.inj_succ.
    replace (Z.succ (Z.pos (digits2_pos m)) - 1) with (Z.succ (Z.pos (digits2_pos m) - 1)) by lia.
    rewrite !Z.pow_succ_r by lia. lia.
  - rewrite Pos2Z.inj_succ.
    replace (Z.succ (Z.pos (digits2_pos m)) - 1) with (Z.succ (Z.pos (digits2_pos m) - 1)) by lia.
    rewrite !Z.pow_succ_r by lia. lia.
  - simpl. lia.
Qed.

Lemma digits2_pos_unique m k :
  2 ^ (k - 1) <= Z.pos m < 2 ^ k → Z.pos (digits2_pos m) = k.
Proof.
  intros [Hlo Hhi]. pose proof (digits2_pos_bounds m) as [Hlo' Hhi'].
  assert (0 < k).
  { destruct (Z.ltb_spec 0 k); [done|]. 
    assert (2 ^ k <= 2 ^ 0) by (apply Z.pow_le_mono_r; lia). simpl in *. lia. }
  assert (k - 1 < Z.pos (digits2_pos m)).
  { apply (Z.pow_lt_mono_r_iff 2); lia. }
  assert (Z.pos (digits2_pos m) - 1 < k).
  { apply (Z.pow_lt_mono_r_iff 2); lia. }
  lia.
Qed.

(** [k] shifts to the left multiply by [2 ^ k]. *)
Lemma iter_xO m k : Z.pos (Pos.iter xO m k) = Z.pos m * 2 ^ Z.pos k.
Proof.
  induction k as [|k IH] using Pos.peano_ind.
  - simpl. lia.
  - rewrite Pos.iter_succ, Pos2Z.inj_succ, Z.pow_succ_r by lia.
    rewrite Pos2Z.inj_xO, IH. lia.
Qed.

(** One shift to the right: the mantissa is halved, the bit that leaves is
    the round bit, the former round bit joins the sticky bit. *)
Lemma shr_1_nonneg m r s :
  0 <= m →
  shr_1 (Build_shr_record m r s) = Build_shr_record (m / 2) (Z.odd m) (r || s).
Proof.
  intros Hm. destruct m as [|p|p]; [done| |lia].
  destruct p as [p|p|]; unfold shr_1; f_equal.
  - apply (Z.div_unique _ 2 _ 1); lia.
  - apply (Z.div_unique _ 2 _ 0); lia.
Qed.

Lemma iter_pos_nat {A} (f : A → A) k x :
  SpecFloat.iter_pos f k x = Nat.iter (Pos.to_nat k) f x.
Proof.
  revert x. induction k as [k IH|k IH|]; intros x; cbn [SpecFloat.iter_pos].
  - rewrite !IH, Pos2Nat.inj_xI.
    replace (S (2 * Pos.to_nat k)) with (Pos.to_nat k + S (Pos.to_nat k))%nat by lia.
    by rewrite Nat.iter_add, Nat.iter_succ_r.
  - rewrite !IH, Pos2Nat.inj_xO.
    replace (2 * Pos.to_nat k)%nat with (Pos.to_nat k + Pos.to_nat k)%nat by lia.
    by rewrite Nat.iter_add.
  - done.
Qed.

(** After [n + 1] shifts of an exact mantissa. *)
Lemma iter_shr_1 m n :
  0 <= m →
  Nat.iter (S n) shr_1 (Build_shr_record m false false) =
  Build_shr_record (m / 2 ^ Z.of_nat (S n))
    (Z.odd (m / 2 ^ Z.of_nat n))
    (negb (m mod 2 ^ Z.of_nat n =? 0)).
Proof.
  intros Hm. induction n as [|n IH].
  - rewrite Nat.iter_succ. change (Nat.iter 0 shr_1 ?x) with x.
    rewrite shr_1_nonneg by done.
    change (2 ^ Z.of_nat 1) with 2. change (2 ^ Z.of_nat 0) with 1.
    by rewrite Z.div_1_r, Z.mod_1_r.
  - rewrite Nat.iter_succ, IH.
    assert (0 < 2 ^ Z.of_nat n) as Hpow by (apply Z.pow_pos_nonneg; lia).
    assert (2 ^ Z.of_nat (S n) = 2 ^ Z.of_nat n * 2) as Hs
      by (rewrite Nat2Z.inj_succ, Z.pow_succ_r by lia; lia).
    assert (2 ^ Z.of_nat (S (S n)) = 2 ^ Z.of_nat (S n) * 2) as Hss
      by (rewrite (Nat2Z.inj_succ (S n)), Z.pow_succ_r by lia; lia).
    rewrite shr_1_nonneg by (apply Z.div_pos; lia).
    f_equal.
    + rewrite Hss, Z.div_div by lia. done.
    + rewrite Hs, Z.rem_mul_r, Zmod_odd by lia.
      pose proof (Z.mod_pos_bound m (2 ^ Z.of_nat n) Hpow) as Hrem.
      destruct (Z.odd (m / 2 ^ Z.of_nat n)); simpl.
      * symmetry. apply negb_true_iff, Z.eqb_neq. lia.
      * f_equal. rewrite Z.mul_0_r, Z.add_0_r. done.
Qed.

(** Shifting by [k] and rounding to nearest even is [round_half_even]. *)
Lemma shr_round m k :
  0 <= m →
  round_nearest_even
    (shr_m (SpecFloat.iter_pos shr_1 k (Build_shr_record m false false)))
    (loc_of_shr_record (SpecFloat.iter_pos shr_1 k (Build_shr_record m false false)))
  = round_half_even m (Z.pos k) ∧
  shr_m (SpecFloat.iter_pos shr_1 k (Build_shr_record m false false)) = m / 2 ^ Z.pos k.
Proof.
  intros Hm. rewrite iter_pos_nat.
  destruct (Pos2Nat.is_succ k) as [n Hn]. rewrite Hn, iter_shr_1 by done.
  assert (Z.pos k = Z.of_nat (S n)) as -> by lia.
  split; [|done].
  assert (0 < 2 ^ Z.of_nat n) as Hpow by (apply Z.pow_pos_nonneg; lia).
  assert (2 ^ Z.of_nat (S n) = 2 ^ Z.of_nat n * 2) as Hs
    by (rewrite Nat2Z.inj_succ, Z.pow_succ_r by lia; lia).
  unfold round_half_even, loc_of_shr_record, round_nearest_even.
  cbn [shr_m shr_r shr_s].
  rewrite Hs, Z.rem_mul_r, Zmod_odd by lia.
  pose proof (Z.mod_pos_bound m (2 ^ Z.of_nat n) Hpow) as Hrem.
  destruct (Z.odd (m / 2 ^ Z.of_nat n)).
  - destruct (Z.eqb_spec (m mod 2 ^ Z.of_nat n) 0) as [Hz|Hz]; simpl.
    + destruct (Z.ltb_spec (2 * (m mod 2 ^ Z.of_nat n + 2 ^ Z.of_nat n * 1))
                  (2 ^ Z.of_nat n * 2)); [lia|].
      destruct (Z.ltb_spec (2 ^ Z.of_nat n * 2)
                  (2 * (m mod 2 ^ Z.of_nat n + 2 ^ Z.of_nat n * 1))); [lia|done].
    + destruct (Z.ltb_spec (2 * (m mod 2 ^ Z.of_nat n + 2 ^ Z.of_nat n * 1))
                  (2 ^ Z.of_nat n * 2)); [lia|].
      destruct (Z.ltb_spec (2 ^ Z.of_nat n * 2)
                  (2 * (m mod 2 ^ Z.of_nat n + 2 ^ Z.of_nat n * 1))); [done|lia].
  - destruct (Z.ltb_spec (2 * (m mod 2 ^ Z.of_nat n + 2 ^ Z.of_nat n * 0))
                (2 ^ Z.of_nat n * 2)); [|lia].
    by destruct (negb _).
Qed.

Lemma round_half_even_bounds m s :
  0 <= m → 0 <= s →
  m / 2 ^ s <= round_half_even m s <= m / 2 ^ s + 1.
Proof.
  intros Hm Hs. unfold round_half_even.
  repeat match goal with |- context [if ?b then _ else _] => destruct b end; lia.
Qed.

Lemma shr_fexp_exact m e :
  53 <= Z.pos (digits2_pos m) →
  -1074 <= Z.pos (digits2_pos m) + e - 53 →
  let s := Z.pos (digits2_pos m) - 53 in
  ∃ mrs,
    shr_fexp prec emax (Z.pos m) e loc_Exact = (mrs, e + s) ∧
    shr_m mrs = Z.pos m / 2 ^ s ∧
    round_nearest_even (shr_m mrs) (loc_of_shr_record mrs)
    = round_half_even (Z.pos m) s.
Proof.
  intros Hd He s. unfold shr_fexp, fexp, emin, prec, emax. cbn [Zdigits2].
  replace (Z.max (Z.pos (digits2_pos m) + e - 53) (3 - 1024 - 53) - e) with s by lia.
  cbn [shr_record_of_loc]. unfold shr.
  destruct s as [|k|k] eqn:Hs; [|fold s|lia].
  - eexists. split_and!; [by rewrite Z.add_0_r|by rewrite Z.div_1_r|].
    cbn. unfold round_half_even. rewrite Z.div_1_r, Z.mod_1_r. done.
  - destruct (shr_round (Z.pos m) k) as [Hround Hm]; [lia|].
    eexists. split_and!; [done..].
Qed.

Lemma div_pow_bounds m d s :
  0 <= s → s < d → 2 ^ (d - 1) <= m < 2 ^ d →
  2 ^ (d - 1 - s) <= m / 2 ^ s < 2 ^ (d - s).
Proof.
  intros Hs Hd [Hlo Hhi].
  assert (0 < 2 ^ s) as Hpow by (apply Z.pow_pos_nonneg; lia).
  assert (2 ^ (d - 1) = 2 ^ (d - 1 - s) * 2 ^ s) as Hlo'
    by (rewrite <- Z.pow_add_r by lia; f_equal; lia).
  assert (2 ^ d = 2 ^ (d - s) * 2 ^ s) as Hhi'
    by (rewrite <- Z.pow_add_r by lia; f_equal; lia).
  split.
  - apply Z.div_le_lower_bound; lia.
  - apply Z.div_lt_upper_bound; lia.
Qed.

(** Rounding a positive integer mantissa of at least 53 bits to binary64,
    away from the subnormal and the overflow ranges. *)
Lemma binary_round_aux_exact m e :
  let d := Z.pos (digits2_pos m) in
  let s := d - 53 in
  let m1 := round_half_even (Z.pos m) s in
  53 <= d → -1074 <= d + e - 53 → d + e - 53 < 971 →
  2 ^ 52 <= m1 <= 2 ^ 53 ∧
  binary_round_aux prec emax false (Z.pos m) e loc_Exact =
  if m1 <? 2 ^ 53
  then S754_finite false (Z.to_pos m1) (e + s)
  else S754_finite false (Z.to_pos (m1 / 2)) (e + s + 1).
Proof.
  intros d s m1 Hd He Hmax.
  destruct (shr_fexp_exact m e Hd He) as (mrs & Hshr & Hm & Hround).
  fold d in Hshr, Hm, Hround. fold s in Hshr, Hm, Hround. fold m1 in Hround.
  pose proof (digits2_pos_bounds m) as Hdigits. fold d in Hdigits.
  pose proof (div_pow_bounds (Z.pos m) d s ltac:(lia) ltac:(lia) Hdigits) as Hq.
  replace (d - 1 - s) with 52 in Hq by lia. replace (d - s) with 53 in Hq by lia.
  pose proof (round_half_even_bounds (Z.pos m) s ltac:(lia) ltac:(lia)) as Hm1.
  fold m1 in Hm1.
  assert (2 ^ 52 <= m1 <= 2 ^ 53) as Hrange by lia.
  split; [done|].
  unfold binary_round_aux. rewrite Hshr, Hround.
  destruct m1 as [|p1|p1] eqn:Hp1; [lia| |lia].
  destruct (Z.ltb_spec (Z.pos p1) (2 ^ 53)) as [Hlt|Hge].
  - assert (Z.pos (digits2_pos p1) = 53) as Hd1
      by (apply digits2_pos_unique; lia).
    destruct (shr_fexp_exact p1 (e + s)) as (mrs1 & Hshr1 & Hmm1 & _); [lia..|].
    rewrite Hshr1, Hmm1, Hd1. replace (53 - 53) with 0 by lia.
    rewrite Z.div_1_r, Z.add_0_r.
    unfold emax, prec. destruct (Z.leb_spec (e + s) (1024 - 53)); [done|lia].
  - assert (Z.pos p1 = 2 ^ 53) as Hp by lia.
    assert (Z.pos (digits2_pos p1) = 54) as Hd1
      by (apply digits2_pos_unique; rewrite Hp; simpl; lia).
    destruct (shr_fexp_exact p1 (e + s)) as (mrs1 & Hshr1 & Hmm1 & _); [lia..|].
    rewrite Hshr1, Hmm1, Hd1. replace (54 - 53) with 1 by lia.
    rewrite Hp. change (2 ^ 53 / 2 ^ 1) with (Z.pos (Z.to_pos (2 ^ 53 / 2))).
    cbv iota beta.
    unfold emax, prec. destruct (Z.leb_spec (e + s + 1) (1024 - 53)); [done|lia].
Qed.

Lemma round_half_even_0 m : round_half_even m 0 = m.
Proof. unfold round_half_even. by rewrite Z.div_1_r, Z.mod_1_r. Qed.

(** The float of a positive int below 2^53 is the int itself, its mantissa
    scaled to 53 bits. *)
Lemma float_of_int_exact p :
  let d := Z.pos (digits2_pos p) in
  d < 53 →
  ∃ mx, Z.pos mx = Z.pos p * 2 ^ (53 - d) ∧
        Z.pos (digits2_pos mx) = 53 ∧
        binary_normalize prec emax (Z.pos p) 0 false = S754_finite false mx (d - 53).
Proof.
  intros d Hd. pose proof (digits2_pos_bounds p) as Hp. fold d in Hp.
  assert (0 < d) as Hd0 by lia.
  exists (Pos.iter xO p (Z.to_pos (53 - d))).
  assert (Z.pos (Pos.iter xO p (Z.to_pos (53 - d))) = Z.pos p * 2 ^ (53 - d)) as Hmx.
  { rewrite iter_xO. f_equal. f_equal. lia. }
  assert (Z.pos (digits2_pos (Pos.iter xO p (Z.to_pos (53 - d)))) = 53) as Hd53.
  { apply digits2_pos_unique. rewrite Hmx.
    assert (0 < 2 ^ (53 - d)) by (apply Z.pow_pos_nonneg; lia).
    replace (2 ^ (53 - 1)) with (2 ^ (d - 1) * 2 ^ (53 - d))
      by (rewrite <- Z.pow_add_r by lia; f_equal; lia).
    replace (2 ^ 53) with (2 ^ d * 2 ^ (53 - d))
      by (rewrite <- Z.pow_add_r by lia; f_equal; lia).
    split; [apply Z.mul_le_mono_nonneg_r|apply Z.mul_lt_mono_pos_r]; lia. }
  split_and!; [done..|].
  unfold binary_normalize, binary_round, shl_align, fexp, emin, prec, emax.
  fold d. replace (Z.max (d + 0 - 53) (3 - 1024 - 53) - 0) with (d - 53) by lia.
  replace (Z.max (d + 0 - 53) (3 - 1024 - 53)) with (d - 53) by lia.
  destruct (d - 53) as [|k|k] eqn:Hk; [lia..|].
  replace (Z.to_pos (53 - d)) with k in * by lia.
  destruct (binary_round_aux_exact (Pos.iter xO p k) (Z.neg k)) as [_ Hround].
  - lia.
  - lia.
  - lia.
  - fold prec emax. rewrite Hround, Hd53. replace (53 - 53) with 0 by lia.
    rewrite round_half_even_0.
    destruct (Z.ltb_spec (Z.pos (Pos.iter xO p k)) (2 ^ 53)) as [_|Hge].
    + f_equal; lia.
    + pose proof (digits2_pos_bounds (Pos.iter xO p k)) as Hb.
      rewrite Hd53 in Hb. lia.
Qed.

(** The product of two 53-bit mantissas has 105 or 106 bits. *)
Lemma mul_digits a b :
  2 ^ 52 <= Z.pos a < 2 ^ 53 → 2 ^ 52 <= Z.pos b < 2 ^ 53 →
  Z.pos (digits2_pos (a * b)) = 105 ∨ Z.pos (digits2_pos (a * b)) = 106.
Proof.
  intros Ha Hb.
  assert (2 ^ 104 <= Z.pos (a * b) < 2 ^ 106) as Hab.
  { rewrite Pos2Z.inj_mul.
    change (2 ^ 104) with (2 ^ 52 * 2 ^ 52). change (2 ^ 106) with (2 ^ 53 * 2 ^ 53).
    split; [apply Z.mul_le_mono_nonneg|apply Z.mul_lt_mono_nonneg]; lia. }
  destruct (Z.ltb_spec (Z.pos (a * b)) (2 ^ 105)).
  - left. apply digits2_pos_unique. change (105 - 1) with 104. lia.
  - right. apply digits2_pos_unique. change (106 - 1) with 105. lia.
Qed.

(** [int(x * c)] for an int [0 < x < 2^52] and a positive double [c] of
    exponent -56: the product of the mantissas is rounded to 53 bits, half to
    even, and the result is truncated. *)
Lemma int_times_float_exact x c :
  0 < x < 2 ^ 52 → 2 ^ 52 <= Z.pos c < 2 ^ 53 →
  ∃ K s,
    2 <= K ∧ 2 ^ 52 <= x * K < 2 ^ 53 ∧ (s = 52 ∨ s = 53) ∧
    2 ^ (s + 52) <= x * K * Z.pos c < 2 ^ (s + 53) ∧
    int_times_float x (S754_finite false c (-56))
    = Return (round_half_even (x * K * Z.pos c) s / (2 ^ (56 - s) * K)).
Proof.
  intros Hx Hc. destruct x as [|p|p]; [lia| |lia].
  set (d := Z.pos (digits2_pos p)).
  pose proof (digits2_pos_bounds p) as Hp. fold d in Hp.
  assert (0 < d) as Hd0 by lia.
  assert (d < 53) as Hd.
  { destruct (Z.ltb_spec d 53); [done|].
    assert (2 ^ 52 <= 2 ^ (d - 1)) by (apply Z.pow_le_mono_r; lia). lia. }
  destruct (float_of_int_exact p Hd) as (mx & Hmx & Hdmx & Hfloat). fold d in Hmx, Hfloat.
  pose proof (digits2_pos_bounds mx) as Hbmx. rewrite Hdmx in Hbmx.
  change (2 ^ (53 - 1)) with (2 ^ 52) in Hbmx.
  set (K := 2 ^ (53 - d)) in *.
  assert (2 <= K).
  { change 2 with (2 ^ 1) at 1. apply Z.pow_le_mono_r; lia. }
  set (s := Z.pos (digits2_pos (mx * c)) - 53).
  exists K, s.
  assert (s = 52 ∨ s = 53) as Hs by (unfold s; destruct (mul_digits mx c); lia).
  pose proof (digits2_pos_bounds (mx * c)) as Hprod.
  replace (Z.pos (digits2_pos (mx * c))) with (s + 53) in Hprod by (unfold s; lia).
  replace (s + 53 - 1) with (s + 52) in Hprod by lia.
  rewrite Pos2Z.inj_mul, Hmx in Hprod.
  split_and!; [lia|lia|lia|exact Hs|apply Hprod|apply Hprod|].
  unfold int_times_float, float_of_int. rewrite Hfloat.
  cbn [mbind Res_bind SFmul xorb].
  destruct (binary_round_aux_exact (mx * c) (d - 53 + -56)) as [Hm1 Hround];
    [fold s; lia..|].
  fold s in Hm1, Hround. rewrite Hround. clear Hround.
  rewrite Pos2Z.inj_mul, Hmx in Hm1 |- *.
  set (m1 := round_half_even (Z.pos p * K * Z.pos c) s) in *.
  assert (2 ^ (56 - s) * K = 2 ^ (- (d - 53 + -56 + s))) as ->.
  { unfold K. rewrite <- Z.pow_add_r by lia. f_equal. lia. }
  destruct (Z.ltb_spec m1 (2 ^ 53)).
  - cbn [int_of_float cond_Zopp].
    destruct (Z.leb_spec 0 (d - 53 + -56 + s)); [lia|].
    rewrite Z2Pos.id by lia. done.
  - cbn [int_of_float cond_Zopp].
    destruct (Z.leb_spec 0 (d - 53 + -56 + s + 1)); [lia|].
    assert (m1 = 2 ^ 53) as -> by lia.
    change (Z.pos (Z.to_pos (2 ^ 53 / 2))) with (2 ^ 53 / 2).
    rewrite Z.div_div by (try apply Z.pow_pos_nonneg; lia).
    do 2 f_equal.
    replace (- (d - 53 + -56 + s)) with (Z.succ (- (d - 53 + -56 + s + 1))) by lia.
    rewrite Z.pow_succ_r by lia. done.
Qed.

Ltac eval_pow :=
  repeat match goal with
  | |- context [2 ^ ?k] =>
      let v := eval vm_compute in (2 ^ k) in change (2 ^ k) with v
  | H : context [2 ^ ?k] |- _ =>
      let v := eval vm_compute in (2 ^ k) in change (2 ^ k) with v in H
  end.

(** The arithmetic of the two fees: [K] scales the int to 53 bits, [s] is the
    shift of the product, and 25 times the mantissa of the literal is
    3 * 2^56 - 8 for 0.12 and 2 * 2^56 + 3 for 0.08. *)
Lemma service_fee_arith x K s :
  0 < x → 2 <= K → 2 ^ 52 <= x * K < 2 ^ 53 → s = 52 ∨ s = 53 →
  2 ^ (s + 52) <= x * K * 8646911284551352 < 2 ^ (s + 53) →
  round_half_even (x * K * 8646911284551352) s / (2 ^ (56 - s) * K) = x * 12 / 100.
Proof.
  intros Hx HK Hmx Hs HP.
  set (n := x * 12 / 100).
  assert (25 * n <= 3 * x <= 25 * n + 24) as Hn
    by (unfold n; Z.div_mod_to_equations; lia).
  set (mx := x * K) in *. set (N := n * K).
  assert (25 * N <= 3 * mx) as H1 by (unfold N, mx; nia).
  assert (3 * mx <= 25 * N + 24 * K) as H2 by (unfold N, mx; nia).
  assert (3 * mx = 25 * N ∨ 25 * N + K <= 3 * mx) as H3.
  { destruct (decide (3 * x = 25 * n)); [left|right]; unfold N, mx; nia. }
  symmetry.
  apply (Z.div_unique _ _ _ (round_half_even (mx * 8646911284551352) s - 2 ^ (56 - s) * N));
    [|unfold N; ring].
  clearbody mx N. clear Hn n Hx x.
  unfold round_half_even.
  destruct Hs as [-> | ->]; eval_pow;
    repeat match goal with |- context [if ?b then _ else _] => destruct b eqn:? end;
    Z.div_mod_to_equations; lia.
Qed.

Lemma taxes_arith y K s :
  0 < y → 2 <= K → 2 ^ 52 <= y * K < 2 ^ 53 → s = 52 ∨ s = 53 →
  2 ^ (s + 52) <= y * K * 5764607523034235 < 2 ^ (s + 53) →
  round_half_even (y * K * 5764607523034235) s / (2 ^ (56 - s) * K) = y * 8 / 100.
Proof.
  intros Hy HK Hmx Hs HP.
  set (n := y * 8 / 100).
  assert (25 * n <= 2 * y <= 25 * n + 24) as Hn
    by (unfold n; Z.div_mod_to_equations; lia).
  set (mx := y * K) in *. set (N := n * K).
  assert (25 * N <= 2 * mx) as H1 by (unfold N, mx; nia).
  assert (2 * mx <= 25 * N + 24 * K) as H2 by (unfold N, mx; nia).
  symmetry.
  apply (Z.div_unique _ _ _ (round_half_even (mx * 5764607523034235) s - 2 ^ (56 - s) * N));
    [|unfold N; ring].
  clearbody mx N. clear Hn n Hy y.
  unfold round_half_even.
  destruct Hs as [-> | ->]; eval_pow;
    repeat match goal with |- context [if ?b then _ else _] => destruct b eqn:? end;
    Z.div_mod_to_equations; lia.
Qed.

(** Below 2^52 the float computation of the fees is the exact floor. *)
Lemma service_fee_exact x :
  0 <= x < 2 ^ 52 → int_times_float x literal_0_12 = Return (x * 12 / 100).
Proof.
  intros Hx. destruct (decide (x = 0)) as [->|]; [done|]. unfold literal_0_12.
  destruct (int_times_float_exact x 8646911284551352) as (K & s & ? & ? & ? & ? & ->);
    [lia|by vm_compute|].
  f_equal. apply service_fee_arith; done || lia.
Qed.

Lemma taxes_exact y :
  0 <= y < 2 ^ 52 → int_times_float y literal_0_08 = Return (y * 8 / 100).
Proof.
  intros Hy. destruct (decide (y = 0)) as [->|]; [done|]. unfold literal_0_08.
  destruct (int_times_float_exact y 5764607523034235) as (K & s & ? & ? & ? & ? & ->);
    [lia|by vm_compute|].
  f_equal. apply taxes_arith; done || lia.
Qed.

(** ** The pricing formula *)

Lemma quote_nights_available avail dates costs acc :
  (∀ d, d ∈ dates → ∃ day_info, avail !! d = Some day_info ∧ status day_info = "available") →
  quote_nights avail dates costs acc =
  Return ((costs ++ zip dates (nightly_prices avail dates))%list,
          acc + foldr Z.add 0 (nightly_prices avail dates)).
Proof.
  revert costs acc. induction dates as [|d dates IH]; intros costs acc Hall; simpl.
  - by rewrite app_nil_r, Z.add_0_r.
  - destruct (Hall d) as (day_info & Hd & Hs); [by left|].
    rewrite Hd. simpl. rewrite bool_decide_eq_false_2 by (intros Hn; by apply Hn).
    rewrite IH by (intros d' Hd'; apply Hall; by right).
    rewrite <- app_assoc. simpl. f_equal. f_equal. lia.
Qed.

Lemma sum_nonneg prices :
  Forall (fun price => 0 <= price) prices → 0 <= foldr Z.add 0 prices.
Proof. induction 1; simpl; lia. Qed.

(** C3 (amended).  For a range whose nights are all available, with nightly
    prices that are not negative and sum to at most 4 * 10^15, the quote
    returns subtotal = sum of the nightly prices, service_fee = floor of 12% of
    the subtotal, cleaning_fee = 50, taxes = floor of 8% of subtotal +
    service_fee + cleaning_fee, and total = the sum of the four, the floors
    being exact although the code multiplies floats; for the prices [100, 100]
    this is 200, 24, 50, 21 and 295. *)
Theorem pricing_formula (f : option DB) (pid : string) (p : Property) (ci co : date) :
  properties (database f) !! pid = Some p →
  ci < co →
  (∀ d, in_range ci co d →
        ∃ day_info, availability p !! d = Some day_info ∧
                    status day_info = "available") →
  let prices := nightly_prices (availability p) (date_range ci co) in
  Forall (fun price => 0 <= price) prices →
  foldr Z.add 0 prices <= 4 * 10 ^ 15 →
  ∃ c, call (calculate_booking_cost pid ci co) f = (Return c, f) ∧
       map snd (nightly_costs c) = prices ∧
       breakdown c = computeCost prices.
Proof.
  intros Hp Hlt Hall prices Hpos Hsum.
  unfold call. rewrite calculate_booking_cost_run, Hp.
  destruct (Z.leb_spec (co - ci) 0); [lia|].
  rewrite quote_nights_available
    by (intros d Hd%elem_of_date_range; by apply Hall).
  fold prices. simpl.
  pose proof (sum_nonneg prices Hpos) as Hsum0.
  set (subtotal := foldr Z.add 0 prices) in *.
  change (4 * 10 ^ 15) with 4000000000000000 in Hsum.
  unfold fees.
  rewrite service_fee_exact by (change (2 ^ 52) with 4503599627370496; lia).
  cbn [mbind Res_bind].
  rewrite taxes_exact
    by (change (2 ^ 52) with 4503599627370496; Z.div_mod_to_equations; lia).
  cbn [mbind Res_bind mret Res_ret].
  eexists. split; [reflexivity|]. split; [|reflexivity].
  simpl. unfold prices, nightly_prices.
  rewrite snd_zip; [done|]. by rewrite length_map.
Qed.

Lemma pricing_formula_witness :
  ∃ c, call (calculate_booking_cost "U1" may_15 (may_15 + 2)) (Some sample_db)
       = (Return c, Some sample_db) ∧
       map snd (nightly_costs c) = [100; 100] ∧
       breakdown c = (200, 24, 50, 21, 295).
Proof.
  apply (pricing_formula (Some sample_db) "U1"
           (mkProperty 4 (three_nights "available")) may_15 (may_15 + 2)).
  - by vm_compute.
  - by vm_compute.
  - intros d Hd. unfold in_range in Hd.
    assert (d = may_15 ∨ d = may_15 + 1) as [-> | ->] by lia;
      eexists; split; by vm_compute.
  - repeat constructor; by vm_compute.
  - by vm_compute.
Defined.

(** C3 as stated fails for a price of 4691249611844283: the float product
    rounds up to the next integer, and the service fee is one more than the
    floor of 12% of the subtotal. *)
Lemma pricing_formula_fails_for_huge_price :
  ∃ c, fst (call (calculate_booking_cost "U1" may_15 (may_15 + 1)) (Some costly_db))
       = Return c ∧
       map snd (nightly_costs c) = [4691249611844283] ∧
       service_fee c = 562949953421314 ∧
       4691249611844283 * 12 / 100 = 562949953421313 ∧
       breakdown c ≠ computeCost [4691249611844283].
Proof.
  eexists. split; [by vm_compute|]. by vm_compute.
Qed.

(** * Further properties of the tools *)

(** ** The two outcomes of the mutating calls *)

(** [create_booking] raises and leaves the file alone, or returns a booking
    under an unused id and writes [with_booking]. *)
Lemma call_book_cases r f :
  (∃ e, call (book r) f = (Raise e, f)) ∨
  (∃ id total_price p,
     let b := new_booking r id total_price in
     call (book r) f = (Return b, Some (with_booking b (database f))) ∧
     bookable (database f) r ∧
     get_next_booking_id (database f) = Return id ∧
     bookings (database f) !! id = None ∧
     properties (database f) !! req_property r = Some p ∧
     check_nights (availability p)
       (date_range (req_check_in r) (req_check_out r)) 0 = Return total_price).
Proof.
  rewrite call_book.
  destruct (book_body r (mkStore f (database f))) as [[b|e] s] eqn:Hrun.
  - right. apply book_body_Return in Hrun as (Hok & id & total_price & p & Hid & Hp & Hc & -> & ->).
    exists id, total_price, p. split_and!; try done.
    by apply get_next_booking_id_fresh.
  - left. apply book_body_Raise in Hrun as ->. by exists e.
Qed.

(** [cancel_booking] raises and leaves the file alone, or returns the
    cancelled booking and writes [without_booking]. *)
Lemma call_cancel_cases today id reason f :
  (∃ e, call (cancel_booking today id reason) f = (Raise e, f)) ∨
  (∃ b, bookings (database f) !! id = Some b ∧
        booking_status b ≠ "cancelled" ∧ booking_status b ≠ "completed" ∧
        is_Some (properties (database f) !! property_id b) ∧
        call (cancel_booking today id reason) f =
        (Return (mark_cancelled reason today b),
         Some (without_booking today reason id b (database f)))).
Proof.
  unfold call. rewrite cancel_booking_run, cancel_booking_body_run.
  destruct (bookings (database f) !! id) as [b|] eqn:Hb; [|left; by eexists].
  case_bool_decide as Hcancelled; [left; by eexists|].
  case_bool_decide as Hcompleted; [left; by eexists|].
  destruct (properties (database f) !! property_id b) as [p|] eqn:Hp; [|left; by eexists].
  right. exists b. by split_and!.
Qed.

(** ** Prices, capacities and payment methods are never touched *)

Lemma altered_calendar_same_offer db db' s dates pid :
  s = "booked" ∨ s = "available" →
  properties db' =
    alter (fun p => set_availability (set_days s dates (availability p)) p)
      pid (properties db) →
  (∀ pid', capacity_of db' pid' = capacity_of db pid') ∧
  (∀ pid' d, price_of db' pid' d = price_of db pid' d) ∧
  (∀ pid' d s', status_of db' pid' d = Some s' →
     status_of db pid' d = Some s' ∨ s' = "booked" ∨ s' = "available").
Proof.
  intros Hs Hps. unfold capacity_of, price_of, status_of, day_of. rewrite Hps.
  split_and!; intros pid'.
  - destruct (decide (pid' = pid)) as [->|Hne].
    + rewrite lookup_alter_eq. by destruct (properties db !! pid).
    + by rewrite lookup_alter_ne.
  - intros d. destruct (decide (pid' = pid)) as [->|Hne].
    + rewrite lookup_alter_eq. destruct (properties db !! pid) as [p|]; simpl; [|done].
      rewrite set_days_lookup. case_bool_decide; [|done].
      by destruct (availability p !! d).
    + by rewrite lookup_alter_ne.
  - intros d s'. destruct (decide (pid' = pid)) as [->|Hne].
    + rewrite lookup_alter_eq. destruct (properties db !! pid) as [p|]; simpl; [|done].
      rewrite set_days_lookup. case_bool_decide; [|by left].
      destruct (availability p !! d); simpl; [|done].
      intros [= <-]. right. exact Hs.
    + rewrite lookup_alter_ne by done. by left.
Qed.

Lemma same_offer_refl db : same_offer db db.
Proof.
  split_and!; try done.
  - intros pid d s. by left.
  - intros uid u Hu. exists u, []. by rewrite app_nil_r.
Qed.

Lemma same_offer_trans db1 db2 db3 :
  same_offer db1 db2 → same_offer db2 db3 → same_offer db1 db3.
Proof.
  intros (Hc & Hp & Hs & Hm & Hu & Hr) (Hc' & Hp' & Hs' & Hm' & Hu' & Hr').
  split_and!.
  - intros pid. by rewrite Hc', Hc.
  - intros pid d. by rewrite Hp', Hp.
  - intros pid d s H3. destruct (Hs' _ _ _ H3) as [H2|H2]; [|by right].
    by apply Hs.
  - intros uid. by rewrite Hm', Hm.
  - intros uid u H1. destruct (Hu _ _ H1) as (u2 & more & H2 & E2).
    destruct (Hu' _ _ H2) as (u3 & more' & H3 & E3).
    exists u3, (more ++ more')%list. split; [done|].
    by rewrite E3, E2, app_assoc.
  - by rewrite Hr', Hr.
Qed.

Lemma book_same_offer r f :
  same_offer (database f) (database (snd (call (book r) f))).
Proof.
  destruct (call_book_cases r f) as [[e ->]|(id & total_price & p & H & _)].
  { apply same_offer_refl. }
  simpl in H. rewrite H. simpl. set (db := database f).
  destruct (altered_calendar_same_offer db
              (with_booking (new_booking r id total_price) db) "booked"
              (date_range (req_check_in r) (req_check_out r)) (req_property r))
    as (Hc & Hp & Hs); [by left|done|].
  split_and!; try done.
  - intros uid. unfold payment_methods_of. simpl.
    destruct (decide (uid = req_user r)) as [->|Hne].
    + rewrite lookup_alter_eq. by destruct (users db !! req_user r).
    + by rewrite lookup_alter_ne.
  - intros uid u Hu. simpl.
    destruct (decide (uid = req_user r)) as [->|Hne].
    + rewrite lookup_alter_eq, Hu. simpl. by eexists _, [id].
    + rewrite lookup_alter_ne by done. exists u, []. by rewrite app_nil_r.
Qed.

Lemma cancel_same_offer today id reason f :
  same_offer (database f) (database (snd (call (cancel_booking today id reason) f))).
Proof.
  destruct (call_cancel_cases today id reason f) as [[e ->]|(b & _ & _ & _ & _ & ->)].
  { apply same_offer_refl. }
  simpl. set (db := database f).
  destruct (altered_calendar_same_offer db
              (without_booking today reason id b db) "available"
              (date_range (check_in_date b) (check_out_date b)) (property_id b))
    as (Hc & Hp & Hs); [by right|done|].
  split_and!; try done.
  intros uid u Hu. exists u, []. by rewrite app_nil_r.
Qed.

(** X1.  Whatever calls are made, the properties on offer, their capacities,
    the dates of their calendars and the price of every night stay as they
    were, and so do the payment methods of the users and the reviews; a
    status that changed is "booked" or "available", and ids are only ever
    appended to the booking list of a user. *)
Theorem calls_keep_the_offer (ops : list Op) (f : option DB) :
  same_offer (database f) (database (run_ops ops f)).
Proof.
  revert f. induction ops as [|op ops IH]; intros f; [apply same_offer_refl|].
  simpl. eapply same_offer_trans; [|apply IH].
  destruct op as [r|today id reason]; simpl.
  - apply book_same_offer.
  - apply cancel_same_offer.
Qed.

(** ** Stored bookings *)

Lemma booking_kept_trans b1 b2 b3 :
  booking_kept b1 b2 → booking_kept b2 b3 → booking_kept b1 b3.
Proof.
  intros [->|(H1 & H2 & reason & today & ->)] H23; [done|].
  destruct H23 as [->|(Hc & _)]; [|done].
  right. split_and!; try done. by exists reason, today.
Qed.

Lemma book_bookings_kept r f :
  bookings_kept (database f) (database (snd (call (book r) f))).
Proof.
  intros id0 b0 Hb0.
  destruct (call_book_cases r f) as [[e ->]|(id & total_price & p & H & _ & _ & Hfresh & _)].
  { exists b0. split; [done|by left]. }
  simpl in H. rewrite H. simpl. exists b0. split; [|by left].
  rewrite lookup_insert_ne; [done|]. intros <-. by rewrite Hfresh in Hb0.
Qed.

Lemma cancel_bookings_kept today id reason f :
  bookings_kept (database f) (database (snd (call (cancel_booking today id reason) f))).
Proof.
  intros id0 b0 Hb0.
  destruct (call_cancel_cases today id reason f) as [[e ->]|(b & Hb & H1 & H2 & _ & ->)].
  { exists b0. split; [done|by left]. }
  simpl. destruct (decide (id0 = id)) as [->|Hne].
  - rewrite lookup_alter_eq, Hb. simplify_eq. simpl.
    eexists. split; [done|]. right. split_and!; try done. by exists reason, today.
  - rewrite lookup_alter_ne by done. exists b0. split; [done|by left].
Qed.

(** X2.  No call deletes or replaces a stored booking.  After any sequence of
    calls a booking is still stored under its id, either unchanged or marked
    cancelled from a status other than "cancelled" and "completed"; a
    cancelled or completed booking is therefore never changed again. *)
Theorem bookings_are_kept (ops : list Op) (f : option DB) :
  bookings_kept (database f) (database (run_ops ops f)) ∧
  ∀ id b, bookings (database f) !! id = Some b →
          booking_status b = "cancelled" ∨ booking_status b = "completed" →
          bookings (database (run_ops ops f)) !! id = Some b.
Proof.
  assert (∀ ops f, bookings_kept (database f) (database (run_ops ops f))) as Hkept.
  { clear. intros ops. induction ops as [|op ops IH]; intros f id b Hb.
    - exists b. split; [done|by left].
    - simpl.
      assert (bookings_kept (database f) (database (run_op f op))) as Hstep.
      { destruct op as [r|today id' reason]; simpl.
        - apply book_bookings_kept.
        - apply cancel_bookings_kept. }
      destruct (Hstep id b Hb) as (b2 & Hb2 & H12).
      destruct (IH _ id b2 Hb2) as (b3 & Hb3 & H23).
      exists b3. split; [done|]. by eapply booking_kept_trans. }
  split; [apply Hkept|].
  intros id b Hb Hfinal.
  destruct (Hkept ops f id b Hb) as (b' & Hb' & [->|(H1 & H2 & _)]); [done|].
  by destruct Hfinal.
Qed.

(** ** A new booking in the database *)

Lemma get_booking_details_run id f :
  call (get_booking_details id) f = (Return (dict_get (bookings (database f)) id), f).
Proof. reflexivity. Qed.

Lemma get_user_bookings_run uid f :
  call (get_user_bookings uid) f =
  (Return match users (database f) !! uid with
          | Some u => collect_bookings (bookings (database f)) (user_bookings u)
          | None => []
          end, f).
Proof.
  unfold call, get_user_bookings. run. rewrite not_in_dom_lookup.
  fold (database f). by destruct (users (database f) !! uid).
Qed.

Lemma collect_bookings_app bs ids ids' :
  collect_bookings bs (ids ++ ids')%list
  = (collect_bookings bs ids ++ collect_bookings bs ids')%list.
Proof.
  induction ids as [|id ids IH]; simpl; [done|].
  destruct (bs !! id); simpl; by rewrite IH.
Qed.

Lemma collect_bookings_insert bs ids id b :
  id ∉ ids → collect_bookings (<[id := b]> bs) ids = collect_bookings bs ids.
Proof.
  induction ids as [|id' ids IH]; simpl; [done|].
  intros Hnot. apply not_elem_of_cons in Hnot as [Hne Hnot].
  rewrite lookup_insert_ne by done. rewrite IH by done. done.
Qed.

(** X3.  A successful [create_booking] stores the booking under an id that no
    booking had: [get_booking_details] of the returned id gives the booking
    back, and every other id leads to what it led to before. *)
Theorem create_booking_adds_one_booking (r : Request) (f f1 : option DB) (b : Booking) :
  call (book r) f = (Return b, f1) →
  bookings (database f) !! booking_id b = None ∧
  call (get_booking_details (booking_id b)) f1 = (Return (Found b), f1) ∧
  (∀ id, id ≠ booking_id b →
         call (get_booking_details id) f1 =
         (Return (dict_get (bookings (database f)) id), f1)) ∧
  dom (bookings (database f1)) = {[ booking_id b ]} ∪ dom (bookings (database f)).
Proof.
  intros Hcall.
  destruct (call_book_cases r f) as [[e He]|(id & total_price & p & H & _ & _ & Hfresh & _)].
  { by rewrite He in Hcall. }
  simpl in H. rewrite H in Hcall. injection Hcall as <- <-.
  rewrite !get_booking_details_run. simpl. split_and!.
  - done.
  - unfold dict_get. by rewrite lookup_insert_eq.
  - intros id' Hne. rewrite get_booking_details_run. simpl.
    unfold dict_get. by rewrite lookup_insert_ne.
  - by rewrite dom_insert_L.
Qed.

Lemma create_booking_adds_one_booking_witness :
  bookings (database (Some sample_db)) !! "BOOK001" = None ∧
  call (get_booking_details "BOOK001") (snd (call (book sample_request) (Some sample_db)))
  = (Return (Found (new_booking sample_request "BOOK001" 200)),
     snd (call (book sample_request) (Some sample_db))).
Proof.
  destruct (create_booking_adds_one_booking sample_request (Some sample_db)
              (snd (call (book sample_request) (Some sample_db)))
              (new_booking sample_request "BOOK001" 200)) as (H1 & H2 & _).
  - by vm_compute.
  - split; [exact H1|exact H2].
Defined.

(** X4.  After a successful [create_booking] the new booking is the last entry
    of what [get_user_bookings] returns for the user; the entries before it
    are the bookings returned before the call, provided the new id was not
    already in the booking list of the user. *)
Theorem new_booking_is_listed_last (r : Request) (f f1 : option DB) (b : Booking) :
  call (book r) f = (Return b, f1) →
  ∃ earlier,
    call (get_user_bookings (req_user r)) f1 = (Return (earlier ++ [b])%list, f1) ∧
    ∀ u, users (database f) !! req_user r = Some u →
         booking_id b ∉ user_bookings u →
         call (get_user_bookings (req_user r)) f = (Return earlier, f).
Proof.
  intros Hcall.
  destruct (call_book_cases r f)
    as [[e He]|(id & total_price & p & H & Hok & _)].
  { by rewrite He in Hcall. }
  simpl in H. rewrite H in Hcall. injection Hcall as <- <-.
  destruct Hok as [(u & _ & Hu & _) _].
  rewrite !get_user_bookings_run. simpl.
  rewrite lookup_alter_eq, Hu. simpl.
  rewrite collect_bookings_app. simpl. rewrite lookup_insert_eq.
  eexists. split; [done|].
  intros u' Hu' Hnot. simplify_eq. simpl in Hnot.
  by rewrite collect_bookings_insert.
Qed.

Lemma new_booking_is_listed_last_witness :
  ∃ earlier,
    call (get_user_bookings "user1") (snd (call (book sample_request) (Some generated_db)))
    = (Return (earlier ++ [new_booking sample_request "BOOK002" 200])%list,
       snd (call (book sample_request) (Some generated_db))) ∧
    ∀ u, users (database (Some generated_db)) !! "user1" = Some u →
         "BOOK002" ∉ user_bookings u →
         call (get_user_bookings "user1") (Some generated_db)
         = (Return earlier, Some generated_db).
Proof.
  apply (new_booking_is_listed_last sample_request (Some generated_db)
           (snd (call (book sample_request) (Some generated_db)))
           (new_booking sample_request "BOOK002" 200)).
  by vm_compute.
Defined.

(** ** Quotes and bookings *)

Lemma quote_nights_Return avail dates costs acc nightly total_price :
  quote_nights avail dates costs acc = Return (nightly, total_price) →
  (∀ d, d ∈ dates →
        ∃ day_info, avail !! d = Some day_info ∧ status day_info = "available") ∧
  nightly = (costs ++ zip dates (nightly_prices avail dates))%list ∧
  total_price = acc + foldr Z.add 0 (nightly_prices avail dates).
Proof.
  intros Hq.
  assert (∀ d, d ∈ dates →
            ∃ day_info, avail !! d = Some day_info ∧ status day_info = "available")
    as Hall.
  { apply first_unavailable_None.
    pose proof (quote_nights_first_unavailable avail dates costs acc) as H.
    destruct (first_unavailable avail dates); [|done]. by rewrite Hq in H. }
  split; [done|]. rewrite quote_nights_available in Hq by done.
  by injection Hq as <- <-.
Qed.

(** X5.  A quote that returns lists every night of the range, in order, each
    with the price the calendar holds for it, and every one of these nights
    is available; nights is their number, subtotal is the sum of the listed
    prices, the cleaning fee is 50 and total adds up the four amounts. *)
Theorem quote_lists_every_night (pid : string) (ci co : date) (f : option DB) (c : Cost) :
  fst (call (calculate_booking_cost pid ci co) f) = Return c →
  ci < co ∧
  cost_nights c = co - ci ∧
  map fst (nightly_costs c) = date_range ci co ∧
  Z.of_nat (length (nightly_costs c)) = cost_nights c ∧
  (∀ d price, (d, price) ∈ nightly_costs c →
     in_range ci co d ∧ price_of (database f) pid d = Some price ∧
     status_of (database f) pid d = Some "available") ∧
  subtotal c = foldr Z.add 0 (map snd (nightly_costs c)) ∧
  cleaning_fee c = 50 ∧
  total c = subtotal c + service_fee c + cleaning_fee c + taxes c.
Proof.
  unfold call. rewrite calculate_booking_cost_run. simpl.
  destruct (properties (database f) !! pid) as [p|] eqn:Hp; [|done].
  destruct (Z.leb_spec (co - ci) 0) as [|Hlt]; [done|].
  destruct (quote_nights _ _ _ _) as [[nightly total_price]|e] eqn:Hq; [|done].
  apply quote_nights_Return in Hq as (Hall & -> & ->). simpl.
  unfold fees.
  destruct (int_times_float _ literal_0_12) as [fee|e]; [|done]. simpl.
  destruct (int_times_float _ literal_0_08) as [tax|e]; [|done]. simpl.
  intros [= <-]. simpl.
  assert (length (date_range ci co)
          = length (nightly_prices (availability p) (date_range ci co))) as Hlen.
  { unfold nightly_prices. by rewrite length_map. }
  split_and!; try done.
  - lia.
  - rewrite fst_zip; [done|]. by rewrite Hlen.
  - rewrite length_zip, <- Hlen, Nat.min_id.
    unfold date_range. rewrite length_seqZ. lia.
  - intros d price Hin. unfold nightly_prices in Hin.
    apply elem_of_lookup_zip_with in Hin as (i & d' & price' & Heq & Hi & Hy).
    injection Heq as <- <-.
    assert (d ∈ date_range ci co) as Hd by (by eapply list_elem_of_lookup_2).
    pose proof Hd as Hrange%elem_of_date_range.
    destruct (Hall d Hd) as (day_info & Hday & Hs).
    unfold price_of, status_of, day_of. rewrite Hp. simpl. rewrite Hday. simpl.
    rewrite list_lookup_fmap, Hi in Hy. simpl in Hy. rewrite Hday in Hy.
    simpl in Hy. injection Hy as ->. by rewrite Hs.
  - rewrite snd_zip; [lia|]. by rewrite Hlen.
Qed.

Lemma quote_lists_every_night_witness :
  may_15 < may_15 + 2 ∧
  cost_nights (mkCost "U1" may_15 (may_15 + 2) 2 [(may_15, 100); (may_15 + 1, 100)]
                 200 24 50 21 295) = may_15 + 2 - may_15.
Proof.
  destruct (quote_lists_every_night "U1" may_15 (may_15 + 2) (Some sample_db)
              (mkCost "U1" may_15 (may_15 + 2) 2 [(may_15, 100); (may_15 + 1, 100)]
                 200 24 50 21 295)) as (H1 & H2 & _).
  - by vm_compute.
  - split; [exact H1|exact H2].
Defined.

(** X6.  A quote is honoured by a booking.  When [calculate_booking_cost]
    returns for a range, a [create_booking] for the same property and range
    by a known user with a payment method of theirs and a guest count within
    the capacity is accepted, as soon as a booking id can be generated; the
    total_price it stores is the subtotal of the quote, without the fees and
    taxes the quote adds. *)
Theorem quoted_range_can_be_booked (r : Request) (f : option DB) (c : Cost) (id : string) :
  fst (call (calculate_booking_cost (req_property r) (req_check_in r)
               (req_check_out r)) f) = Return c →
  valid_request (database f) r →
  get_next_booking_id (database f) = Return id →
  ∃ b f1, call (book r) f = (Return b, f1) ∧
          booking_id b = id ∧
          nights b = cost_nights c ∧
          total_price b = subtotal c ∧
          total c = total_price b + service_fee c + cleaning_fee c + taxes c.
Proof.
  intros Hquote Hvalid Hid. revert Hquote.
  unfold call. rewrite calculate_booking_cost_run. simpl.
  destruct Hvalid as (u & p & Hu & Hp & Hpm & Hg). rewrite Hp.
  destruct (Z.leb_spec (req_check_out r - req_check_in r) 0) as [|Hlt]; [done|].
  destruct (quote_nights _ _ _ _) as [[nightly tp]|e] eqn:Hq; [|done].
  unfold fees.
  destruct (int_times_float _ literal_0_12) as [fee|e]; [|done]. simpl.
  destruct (int_times_float _ literal_0_08) as [tax|e]; [|done]. simpl.
  intros [= <-]. simpl.
  pose proof (quote_nights_check_nights (availability p)
                (date_range (req_check_in r) (req_check_out r)) [] 0) as Hcheck.
  rewrite Hq in Hcheck.
  change (book r (mkStore f empty_db))
    with (book_body r (mkStore f (database f))).
  unfold book_body. rewrite create_booking_body_run, Hu, Hp, Hid, Hcheck.
  rewrite bool_decide_eq_false_2 by tauto.
  destruct (Z.gtb_spec (req_guests r) (capacity_guests p)); [lia|].
  destruct (Z.leb_spec (req_check_out r - req_check_in r) 0); [lia|].
  simpl. by eexists _, _.
Qed.

Lemma quoted_range_can_be_booked_witness :
  ∃ b f1, call (book sample_request) (Some sample_db) = (Return b, f1) ∧
          booking_id b = "BOOK001" ∧
          nights b = 2 ∧
          total_price b = 200 ∧
          295 = total_price b + 24 + 50 + 21.
Proof.
  apply (quoted_range_can_be_booked sample_request (Some sample_db)
           (mkCost "U1" may_15 (may_15 + 2) 2 [(may_15, 100); (may_15 + 1, 100)]
              200 24 50 21 295) "BOOK001").
  - by vm_compute.
  - exists (mkUser {[ "pm1" ]} []), (mkProperty 4 (three_nights "available")).
    split_and!; [by vm_compute|by vm_compute|by vm_compute|simpl; lia].
  - by vm_compute.
Defined.

(** ** Cancelling twice *)

(** X7.  A booking is cancelled once.  After a successful [cancel_booking] any
    further cancellation of the same booking raises "Booking is already
    cancelled" and changes nothing, so the reason and date of the first
    cancellation stay. *)
Theorem cancel_twice_fails (today today' : date) (id reason reason' : string)
    (f f1 : option DB) (b : Booking) :
  call (cancel_booking today id reason) f = (Return b, f1) →
  call (cancel_booking today' id reason') f1
  = (Raise (ValueError Booking_is_already_cancelled), f1) ∧
  call (get_booking_details id) f1 = (Return (Found b), f1) ∧
  cancellation_reason b = Some reason ∧ cancellation_date b = Some today.
Proof.
  intros Hcall.
  destruct (call_cancel_cases today id reason f)
    as [[e He]|(b0 & Hb0 & _ & _ & _ & H)]; [by rewrite He in Hcall|].
  rewrite H in Hcall. injection Hcall as <- <-.
  rewrite get_booking_details_run. unfold call at 1.
  rewrite cancel_booking_run, cancel_booking_body_run. simpl.
  unfold dict_get. rewrite lookup_alter_eq, Hb0. simpl. done.
Qed.

Lemma cancel_twice_fails_witness :
  call (cancel_booking (may_15 + 2) "BOOK0002" "again")
    (snd (call (cancel_booking (may_15 + 1) "BOOK0002" "change of plans")
            (Some horizon_db)))
  = (Raise (ValueError Booking_is_already_cancelled),
     snd (call (cancel_booking (may_15 + 1) "BOOK0002" "change of plans")
            (Some horizon_db))).
Proof.
  apply (cancel_twice_fails (may_15 + 1) (may_15 + 2) "BOOK0002" "change of plans"
           "again" (Some horizon_db) _
           (mark_cancelled "change of plans" (may_15 + 1) overhanging_booking)).
  by vm_compute.
Defined.

(** ** Two calls that both load before either saves *)

(** What [create_booking] does after [load_db()] depends on the dictionary
    it loaded, not on the file as it is by then. *)
Lemma book_body_any_file r f f' db :
  book_body r (mkStore f' db) =
  match book_body r (mkStore f db) with
  | (Return b, s) => (Return b, s)
  | (Raise e, _) => (Raise e, mkStore f' db)
  end.
Proof.
  unfold book_body. rewrite !create_booking_body_run.
  destruct (users db !! req_user r); [|done].
  destruct (properties db !! req_property r); [|done].
  destruct (bool_decide _); [done|].
  destruct (_ >? _); [done|].
  destruct (_ <=? _); [done|].
  destruct (check_nights _ _ _); [|done].
  by destruct (get_next_booking_id db).
Qed.

(** X8.  When both callers load the file before either finishes, each call has
    the outcome it would have alone on the initial file, and the file ends as
    the last caller that succeeded wrote it: everything the other caller
    stored is gone. *)
Theorem interleaved_calls_last_writer_wins (r1 r2 : Request) (f : option DB) :
  let sys := run_schedule r1 r2 both_load_first f in
  outcome (first_call sys) = Some (fst (call (book r1) f)) ∧
  outcome (second_call sys) = Some (fst (call (book r2) f)) ∧
  shared_file sys =
    if succeeded (fst (call (book r2) f)) then snd (call (book r2) f)
    else snd (call (book r1) f).
Proof.
  rewrite !call_book. unfold both_load_first. schedule_steps.
  fold (database f).
  destruct (book_body r1 (mkStore f (database f))) as [res1 [f1 m1]] eqn:H1.
  cbv [file mem fst snd].
  rewrite (book_body_any_file r2 f f1 (database f)).
  destruct (book_body r2 (mkStore f (database f))) as [[b2|e2] [f2 m2]] eqn:H2;
    by cbv [file mem fst snd succeeded].
Qed.

(** X9.  Two calls that both load before either saves and both succeed return
    the same booking id; the file then holds the booking of the second caller
    under that id, although the first caller was given a confirmation. *)
Theorem interleaved_calls_share_an_id (r1 r2 : Request) (f : option DB) (b1 b2 : Booking) :
  let sys := run_schedule r1 r2 both_load_first f in
  outcome (first_call sys) = Some (Return b1) →
  outcome (second_call sys) = Some (Return b2) →
  booking_id b1 = booking_id b2 ∧
  call (get_booking_details (booking_id b1)) (shared_file sys)
  = (Return (Found b2), shared_file sys) ∧
  dom (bookings (database (shared_file sys)))
  = {[ booking_id b2 ]} ∪ dom (bookings (database f)).
Proof.
  cbv zeta. rewrite get_booking_details_run.
  unfold both_load_first. schedule_steps. fold (database f).
  destruct (book_body r1 (mkStore f (database f))) as [res1 [f1 m1]] eqn:H1.
  cbv [file mem fst snd].
  rewrite (book_body_any_file r2 f f1 (database f)).
  destruct (book_body r2 (mkStore f (database f))) as [[b2'|e2] [f2 m2]] eqn:H2;
    cbv [file mem fst snd]; [|done].
  intros [= ->] [= ->].
  apply book_body_Return in H1 as (_ & id1 & tp1 & p1 & Hid1 & _ & _ & -> & _).
  apply book_body_Return in H2 as (_ & id2 & tp2 & p2 & Hid2 & _ & _ & -> & [= -> _]).
  rewrite Hid1 in Hid2. injection Hid2 as ->. simpl.
  unfold dict_get. rewrite lookup_insert_eq, dom_insert_L. done.
Qed.

Lemma interleaved_calls_share_an_id_witness :
  booking_id (new_booking sample_request "BOOK001" 200)
  = booking_id (new_booking overlapping_request "BOOK001" 200).
Proof.
  destruct (interleaved_calls_share_an_id sample_request overlapping_request
              (Some sample_db) (new_booking sample_request "BOOK001" 200)
              (new_booking overlapping_request "BOOK001" 200)) as [H _].
  - by vm_compute.
  - by vm_compute.
  - exact H.
Defined.

(** ** The number of a new booking id *)

Lemma max_default_elem ns d : ns ≠ [] → max_default ns d ∈ ns.
Proof.
  destruct ns as [|x ns]; [done|]. intros _. simpl.
  revert x. induction ns as [|y ns IH]; intros x; simpl; [by left|].
  pose proof (IH (Z.max x y)) as H. apply elem_of_cons in H as [Hmax|Hin].
  - rewrite Hmax. destruct (Z.max_spec x y) as [[_ ->]|[_ ->]]; [right|]; by left.
  - right. by right.
Qed.

Lemma numeric_suffixes_source prefix keys ns n :
  numeric_suffixes prefix keys = Return ns → n ∈ ns →
  ∃ k, k ∈ keys ∧ int (replace_with_empty prefix k) = Return n.
Proof.
  revert ns. induction keys as [|k keys IH]; intros ns; simpl.
  - intros [= <-] Hn. by apply elem_of_nil in Hn.
  - destruct (int (replace_with_empty prefix k)) as [n'|e] eqn:Hint; [|done]. simpl.
    destruct (numeric_suffixes prefix keys) as [ns'|e]; [|done]. simpl.
    intros [= <-] [->|Hn]%elem_of_cons.
    + exists k. split; [by left|done].
    + destruct (IH ns' eq_refl Hn) as (k' & Hk' & Hn'). exists k'. split; [by right|done].
Qed.

(** X10.  The id that [get_next_booking_id] returns is "BOOK" followed by a
    number n written as [f"{n:03d}"] writes it, and is read back as that
    number.  The number is 1 when there is no booking, and otherwise one more
    than the largest number that the ids of the bookings read as, whatever
    their width: it is larger than each of them, and at least 1 exactly when
    there is no booking or the id of some booking reads as a number that is
    not negative (the id generated after "BOOK-5" alone is "BOOK-04"). *)
Theorem next_booking_id_follows_the_largest (db : DB) (id : string) :
  get_next_booking_id db = Return id →
  ∃ n, id = "BOOK" +:+ format_03d n ∧
       int (replace_with_empty "BOOK" id) = Return n ∧
       (bookings db = ∅ → n = 1) ∧
       (∀ k n', is_Some (bookings db !! k) →
                int (replace_with_empty "BOOK" k) = Return n' → n' < n) ∧
       (bookings db ≠ ∅ →
        ∃ k, is_Some (bookings db !! k) ∧
             int (replace_with_empty "BOOK" k) = Return (n - 1)) ∧
       (1 <= n ↔
        bookings db = ∅ ∨
        ∃ k n', is_Some (bookings db !! k) ∧
                int (replace_with_empty "BOOK" k) = Return n' ∧ 0 <= n').
Proof.
  unfold get_next_booking_id, next_id. intros Hid.
  destruct (numeric_suffixes "BOOK" (map fst (map_to_list (bookings db))))
    as [ns|e] eqn:Hns; [|done].
  injection Hid as <-.
  set (n := max_default ns 0 + 1).
  assert (bookings db = ∅ → n = 1) as Hempty.
  { intros Hempty. rewrite Hempty, map_to_list_empty in Hns. simpl in Hns.
    injection Hns as <-. done. }
  assert (∀ k n', is_Some (bookings db !! k) →
                  int (replace_with_empty "BOOK" k) = Return n' → n' < n) as Hlt.
  { intros k n' Hk%elem_of_keys Hint.
    pose proof (numeric_suffixes_elem _ _ _ _ _ Hns Hk Hint) as Hin.
    apply (max_default_upper _ _ 0) in Hin. unfold n. lia. }
  assert (bookings db ≠ ∅ →
          ∃ k, is_Some (bookings db !! k) ∧
               int (replace_with_empty "BOOK" k) = Return (n - 1)) as Hmax.
  { intros Hne. replace (n - 1) with (max_default ns 0) by (unfold n; lia).
    destruct (numeric_suffixes_source "BOOK" _ ns (max_default ns 0) Hns)
      as (k & Hk%elem_of_keys & Hint).
    + apply max_default_elem. intros ->.
      destruct (map_to_list (bookings db)) as [|[k b] rest] eqn:Hl.
      * by apply map_to_list_empty_iff in Hl.
      * simpl in Hns.
        destruct (int (replace_with_empty "BOOK" k)); [|done]. simpl in Hns.
        by destruct (numeric_suffixes "BOOK" (map fst rest)).
    + by exists k. }
  exists n. split_and!; [done|apply int_of_new_id|done..|].
  split.
  - intros Hn.
    destruct (map_to_list (bookings db)) as [|kb rest] eqn:Hl.
    + left. by apply map_to_list_empty_iff.
    + right. destruct Hmax as (k & Hk & Hint).
      { intros Hempty'. by rewrite Hempty', map_to_list_empty in Hl. }
      exists k, (n - 1). split_and!; [done|done|lia].
  - intros [Hempty'|(k & n' & Hk & Hint & Hn')].
    + rewrite (Hempty Hempty'). lia.
    + pose proof (Hlt k n' Hk Hint). lia.
Qed.

Lemma next_booking_id_follows_the_largest_witness :
  ∃ n, "BOOK-04" = "BOOK" +:+ format_03d n ∧
       int (replace_with_empty "BOOK" "BOOK-04") = Return n ∧
       (bookings negative_id_db = ∅ → n = 1) ∧
       (∀ k n', is_Some (bookings negative_id_db !! k) →
                int (replace_with_empty "BOOK" k) = Return n' → n' < n) ∧
       (bookings negative_id_db ≠ ∅ →
        ∃ k, is_Some (bookings negative_id_db !! k) ∧
             int (replace_with_empty "BOOK" k) = Return (n - 1)) ∧
       (1 <= n ↔
        bookings negative_id_db = ∅ ∨
        ∃ k n', is_Some (bookings negative_id_db !! k) ∧
                int (replace_with_empty "BOOK" k) = Return n' ∧ 0 <= n').
Proof.
  apply (next_booking_id_follows_the_largest negative_id_db "BOOK-04").
  by vm_compute.
Defined.

(** The ids of [generated_db] and of a database whose only id has a sign. *)
Example get_next_booking_id_examples :
  get_next_booking_id generated_db = Return "BOOK002" ∧
  get_next_booking_id negative_id_db = Return "BOOK-04" ∧
  int " +1_2 " = Return 12 ∧
  int "1__2" = Raise (ValueError Invalid_literal_for_int).
Proof. by vm_compute. Qed.

(** ** Reviews *)







Lemma add_review_run today bid rating comment f :
  call (add_review today bid rating comment) f =
  let db := database f in
  match bookings db !! bid with
  | None => (Raise (ValueError (Booking_not_found bid)), f)
  | Some b =>
      if bool_decide (booking_status b ≠ "completed")
      then (Raise (ValueError Can_only_review_completed_bookings), f)
      else if negb ((1 <=? rating) && (rating <=? 5))
      then (Raise (ValueError Rating_must_be_between_1_and_5), f)
      else match next_id "REV" (map fst (map_to_list (reviews db))) with
           | Raise e => (Raise e, f)
           | Return id =>
               let review := mkReview id bid (user_id b) (property_id b)
                               rating comment today 0 in
               (Return review, Some (set_reviews (<[id := review]> (reviews db)) db))
           end
  end.
Proof.
  unfold call, add_review. run. rewrite not_in_dom_lookup. fold (database f).
  destruct (bookings (database f) !! bid) as [b|]; simpl; [|done].
  destruct (bool_decide _); simpl; [done|].
  destruct (negb _); simpl; [done|].
  by destruct (next_id _ _).
Qed.





(** ** The reviews of a property *)

Lemma insert_review_perm r l : insert_review r l ≡ₚ r :: l.
Proof.
  induction l as [|x l IH]; simpl; [done|].
  destruct (_ <? _); [|done]. rewrite IH. apply Permutation_swap.
Qed.

Lemma sorted_by_date_desc_perm l : sorted_by_date_desc l ≡ₚ l.
Proof.
  induction l as [|x l IH]; simpl; [done|].
  by rewrite insert_review_perm, IH.
Qed.

Lemma insert_review_sorted r l :
  StronglySorted (fun a b => review_date b <= review_date a) l →
  StronglySorted (fun a b => review_date b <= review_date a) (insert_review r l).
Proof.
  induction 1 as [|x l Hl IH Hx]; simpl.
  - repeat constructor.
  - destruct (Z.ltb_spec (review_date r) (review_date x)) as [Hlt|Hge].
    + constructor; [done|]. rewrite insert_review_perm. constructor; [lia|done].
    + constructor; [by constructor|]. constructor; [done|].
      eapply Forall_impl; [exact Hx|]. simpl. intros y Hy. lia.
Qed.

Lemma insert_review_same_date d r l :
  filter (fun x => review_date x = d) (insert_review r l)
  = filter (fun x => review_date x = d) (r :: l).
Proof.
  induction l as [|x l IH]; simpl; [done|].
  destruct (Z.ltb_spec (review_date r) (review_date x)) as [Hlt|Hge]; [|done].
  rewrite !filter_cons in *.
  destruct (decide (review_date x = d)) as [Hx|Hx];
    destruct (decide (review_date r = d)) as [Hr|Hr]; try lia; by rewrite IH.
Qed.

Lemma get_property_reviews_elem values pid review :
  review ∈ get_property_reviews values pid ↔
  review ∈ values ∧ review_property_id review = pid.
Proof.
  unfold get_property_reviews. rewrite sorted_by_date_desc_perm.
  by rewrite list_elem_of_filter, (comm and).
Qed.

(** X13.  [get_property_reviews] returns the reviews of the property and no
    other, each as often as it is stored, from the latest review date to the
    earliest; reviews of the same date come in the order of the dictionary. *)
Theorem get_property_reviews_sorted (values : list Review) (pid : string) :
  let result := get_property_reviews values pid in
  result ≡ₚ filter (fun review => review_property_id review = pid) values ∧
  (∀ review, review ∈ result ↔ review ∈ values ∧ review_property_id review = pid) ∧
  StronglySorted (fun a b => review_date b <= review_date a) result ∧
  ∀ d, filter (fun review => review_date review = d) result
       = filter (fun review => review_date review = d)
           (filter (fun review => review_property_id review = pid) values).
Proof.
  unfold get_property_reviews.
  set (l := filter (fun review => review_property_id review = pid) values).
  split_and!.
  - apply sorted_by_date_desc_perm.
  - intros review. apply get_property_reviews_elem.
  - induction l as [|x l IH]; simpl; [constructor|]. by apply insert_review_sorted.
  - intros d. induction l as [|x l IH]; simpl; [done|].
    rewrite insert_review_same_date, !filter_cons. by rewrite IH.
Qed.

(** X14.  A review that [add_review] returned is among the reviews that
    [get_property_reviews] lists for the property of the booking, in whatever
    order the dictionary of reviews is read. *)
Theorem review_is_listed (today : date) (bid : string) (rating : Z) (comment : string)
    (f f1 : option DB) (rv : Review) (values : list Review) :
  call (add_review today bid rating comment) f = (Return rv, f1) →
  values_of (reviews (database f1)) values →
  rv ∈ get_property_reviews values (review_property_id rv) ∧
  ∃ b, bookings (database f) !! bid = Some b ∧ review_property_id rv = property_id b.
Proof.
  rewrite add_review_run. cbv zeta. set (db := database f).
  destruct (bookings db !! bid) as [b|] eqn:Hb; [|done].
  destruct (bool_decide _); [done|].
  destruct (negb _); [done|].
  destruct (next_id "REV" (map fst (map_to_list (reviews db)))) as [id|e]; [|done].
  intros [= <- <-] Hvalues. simpl in *. split; [|by exists b].
  apply get_property_reviews_elem. split; [|done]. unfold values_of in Hvalues. rewrite Hvalues.
  apply list_elem_of_fmap. eexists (id, _). split; [done|].
  apply elem_of_map_to_list. by rewrite lookup_insert_eq.
Qed.

Lemma review_is_listed_witness :
  mkReview "REV001" "BOOK0003" "user1" "U1" 5 "great" may_15 0
  ∈ get_property_reviews [mkReview "REV001" "BOOK0003" "user1" "U1" 5 "great" may_15 0] "U1".
Proof.
  destruct (review_is_listed may_15 "BOOK0003" 5 "great" (Some completed_db)
              (snd (call (add_review may_15 "BOOK0003" 5 "great") (Some completed_db)))
              (mkReview "REV001" "BOOK0003" "user1" "U1" 5 "great" may_15 0)
              [mkReview "REV001" "BOOK0003" "user1" "U1" 5 "great" may_15 0]) as [H _].
  - by vm_compute.
  - unfold values_of. by vm_compute.
  - exact H.
Defined.

(** ** The list of cities *)

Lemma string_lt_trans x y z :
  String_as_OT.compare x y = Lt → String_as_OT.compare y z = Lt →
  String_as_OT.compare x z = Lt.
Proof. apply (@transitivity _ String_as_OT.lt _). Qed.

Lemma string_lt_irrefl x : String_as_OT.compare x x ≠ Lt.
Proof. apply (@irreflexivity _ String_as_OT.lt _). Qed.

Lemma string_compare_Gt x y :
  String_as_OT.compare x y = Gt → String_as_OT.compare y x = Lt.
Proof. intros H. destruct (String_as_OT.compare_spec x y); done. Qed.

Lemma string_compare_Eq x y : String_as_OT.compare x y = Eq → x = y.
Proof. intros H. destruct (String_as_OT.compare_spec x y); done. Qed.

Lemma string_compare_refl x : String_as_OT.compare x x = Eq.
Proof.
  destruct (String_as_OT.compare_spec x x) as [|H|H]; [done|..];
    by apply string_lt_irrefl in H.
Qed.

Lemma pair_compare_Eq a b : pair_compare a b = Eq → a = b.
Proof.
  destruct a as [a1 a2], b as [b1 b2]. unfold pair_compare. simpl.
  destruct (String_as_OT.compare a1 b1) eqn:H1; try done.
  intros H2. apply string_compare_Eq in H1, H2. by subst.
Qed.

Lemma pair_compare_Gt a b : pair_compare a b = Gt → pair_compare b a = Lt.
Proof.
  destruct a as [a1 a2], b as [b1 b2]. unfold pair_compare. simpl.
  destruct (String_as_OT.compare a1 b1) eqn:H1; try done.
  - apply string_compare_Eq in H1 as ->. rewrite string_compare_refl.
    apply string_compare_Gt.
  - intros _. by rewrite (string_compare_Gt _ _ H1).
Qed.

Lemma pair_lt_trans a b c :
  pair_compare a b = Lt → pair_compare b c = Lt → pair_compare a c = Lt.
Proof.
  destruct a as [a1 a2], b as [b1 b2], c as [c1 c2]. unfold pair_compare. simpl.
  destruct (String_as_OT.compare a1 b1) eqn:H1; try done;
    destruct (String_as_OT.compare b1 c1) eqn:H2; try done; intros H3 H4.
  - apply string_compare_Eq in H1 as ->. apply string_compare_Eq in H2 as ->.
    rewrite string_compare_refl. by eapply string_lt_trans.
  - apply string_compare_Eq in H1 as ->. by rewrite H2.
  - apply string_compare_Eq in H2 as ->. by rewrite H1.
  - by rewrite (string_lt_trans _ _ _ H1 H2).
Qed.

Lemma insert_pair_perm c l : insert_pair c l ≡ₚ c :: l.
Proof.
  induction l as [|x l IH]; simpl; [done|].
  destruct (pair_compare c x); try done. rewrite IH. apply Permutation_swap.
Qed.

Lemma insert_pair_sorted c l :
  StronglySorted (fun a b => pair_compare a b = Lt) l → c ∉ l →
  StronglySorted (fun a b => pair_compare a b = Lt) (insert_pair c l).
Proof.
  induction 1 as [|x l Hl IH Hx]; simpl; intros Hc.
  - repeat constructor.
  - apply not_elem_of_cons in Hc as [Hne Hc].
    destruct (pair_compare c x) eqn:Hcmp.
    + by apply pair_compare_Eq in Hcmp.
    + constructor; [by constructor|]. constructor; [done|].
      eapply Forall_impl; [exact Hx|]. simpl. intros y Hy. by eapply pair_lt_trans.
    + constructor; [by apply IH|]. rewrite insert_pair_perm.
      constructor; [by apply pair_compare_Gt|done].
Qed.

Lemma sorted_pairs_sorted l :
  NoDup l → StronglySorted (fun a b => pair_compare a b = Lt) (sorted_pairs l).
Proof.
  induction 1 as [|x l Hx Hl IH]; simpl; [constructor|].
  apply insert_pair_sorted; [done|].
  unfold sorted_pairs. intros Hin. apply Hx.
  revert Hin. clear. induction l as [|y l IH]; simpl; [done|].
  rewrite insert_pair_perm. intros [->|Hin]%elem_of_cons; [by left|right; by apply IH].
Qed.

Lemma sorted_pairs_perm l : sorted_pairs l ≡ₚ l.
Proof.
  induction l as [|x l IH]; simpl; [done|]. by rewrite insert_pair_perm, IH.
Qed.

Lemma cities_elem (values : list Listing) (acc : gset (string * string)) c :
  c ∈ foldl (fun cities prop =>
               {[ (location_city prop, location_country prop) ]} ∪ cities) acc values
  ↔ c ∈ acc ∨ ∃ prop, prop ∈ values ∧ c = (location_city prop, location_country prop).
Proof.
  revert acc. induction values as [|p values IH]; intros acc; simpl.
  - split; [by left|]. intros [?|(prop & Hin & _)]; [done|]. by apply elem_of_nil in Hin.
  - rewrite IH, elem_of_union, elem_of_singleton. split.
    + intros [[->|?]|(prop & Hin & ->)].
      * right. exists p. split; [by left|done].
      * by left.
      * right. exists prop. split; [by right|done].
    + intros [?|(prop & [->|Hin]%elem_of_cons & ->)].
      * left. by right.
      * left. by left.
      * right. by exists prop.
Qed.

(** X15.  [list_cities] returns every pair (city, country) that some property
    has, once however many properties share it, in ascending order of the
    city and, for the same city, of the country. *)
Theorem list_cities_sorted_distinct (values : list Listing) :
  let result := list_cities values in
  StronglySorted (fun a b => pair_compare a b = Lt) result ∧
  NoDup result ∧
  ∀ city country,
    (city, country) ∈ result ↔
    ∃ prop, prop ∈ values ∧ location_city prop = city ∧ location_country prop = country.
Proof.
  unfold list_cities.
  set (cities := foldl _ ∅ values).
  split_and!.
  - apply sorted_pairs_sorted, NoDup_elements.
  - rewrite sorted_pairs_perm. apply NoDup_elements.
  - intros city country. rewrite sorted_pairs_perm, elem_of_elements.
    unfold cities. rewrite cities_elem. split.
    + intros [?|(prop & Hin & [= -> ->])]; [set_solver|]. by exists prop.
    + intros (prop & Hin & <- & <-). right. by exists prop.
Qed.

(** ** Searching *)

Lemma search_nights_check_nights avail dates acc :
  search_nights avail dates acc =
  match check_nights avail dates acc with
  | Return total_price => Some total_price
  | Raise _ => None
  end.
Proof.
  revert acc. induction dates as [|d dates IH]; intros acc; simpl; [done|].
  destruct (avail !! d) as [day_info|]; [|done].
  by destruct (bool_decide _).
Qed.

Lemma check_nights_sum avail dates total_price :
  check_nights avail dates 0 = Return total_price →
  (∀ d, d ∈ dates →
        ∃ day_info, avail !! d = Some day_info ∧ status day_info = "available") ∧
  total_price = foldr Z.add 0 (nightly_prices avail dates).
Proof.
  intros Hc. rewrite (quote_nights_check_nights _ _ []) in Hc.
  destruct (quote_nights avail dates [] 0) as [[nightly tp]|e] eqn:Hq; [|done].
  injection Hc as ->.
  apply quote_nights_Return in Hq as (Hall & _ & ->). split; [done|lia].
Qed.

(** An entry of the result comes from a turn of the loop that appended it. *)
Lemma search_properties_elem lower items q results r :
  search_properties lower items q = Return results → r ∈ results →
  ∃ prop_id prop, (prop_id, prop) ∈ items ∧
                  search_property lower q prop = Return (Some r).
Proof.
  revert results. induction items as [|[prop_id prop] items IH]; intros results; simpl.
  - intros [= <-] Hr. by apply elem_of_nil in Hr.
  - destruct (search_property lower q prop) as [entry|e] eqn:Hp; [|done]. simpl.
    destruct (search_properties lower items q) as [rs|e]; [|done]. simpl.
    intros [= <-] Hr.
    assert (r ∈ rs → ∃ prop_id' prop', (prop_id', prop') ∈ (prop_id, prop) :: items ∧
                       search_property lower q prop' = Return (Some r)) as Hrest.
    { intros Hin. destruct (IH rs eq_refl Hin) as (k & p & Hk & Hs).
      exists k, p. split; [by right|done]. }
    destruct entry as [entry|]; [|by apply Hrest].
    apply elem_of_cons in Hr as [->|Hin]; [|by apply Hrest].
    exists prop_id, prop. split; [by left|done].
Qed.

Lemma search_property_Some lower q prop r :
  search_property lower q prop = Return (Some r) →
  result_property r = prop ∧ fits_search lower q r ∧
  match search_check_in_date q, search_check_out_date q with
  | Some check_in_date, Some check_out_date =>
      ∃ total_price avg_price,
        search_pricing r = Some (total_price, avg_price) ∧
        check_nights (availability (listing_property prop))
          (date_range check_in_date check_out_date) 0 = Return total_price ∧
        match check_out_date - check_in_date with
        | Z.pos nights =>
            ∃ x, true_divide total_price nights = Return x ∧ avg_price = Float x
        | _ => avg_price = Int total_price
        end
  | _, _ => True
  end.
Proof.
  unfold search_property, fits_search.
  destruct (truthy_str (search_city q)) as [city|] eqn:Hcity.
  all: destruct (truthy_int (search_guests q)) as [guests|] eqn:Hguests.
  all: destruct (truthy_str (search_property_type q)) as [ptype|] eqn:Htype.
  all: repeat match goal with
       | |- context [if negb ?b then _ else _] => destruct b eqn:?; simpl; [|done]
       | |- context [if ?x <? ?y then _ else _] =>
           destruct (Z.ltb_spec x y); simpl; [done|]
       | |- context [if bool_decide ?P then _ else _] =>
           destruct (decide P); [by rewrite bool_decide_eq_true_2|
                                 rewrite bool_decide_eq_false_2 by done]
       end.
  all: destruct (search_check_in_date q) as [ci|];
       [destruct (search_check_out_date q) as [co|]|].
  all: try (intros [= <-]; simpl; split_and!; try done; intros ? [= <-]; try done;
            by apply dec_stable).
  all: rewrite search_nights_check_nights.
  all: destruct (check_nights _ _ 0) as [total_price|e] eqn:Hc; [|done].
  all: destruct (co - ci) as [|nights|nights] eqn:Hnights.
  all: try (destruct (true_divide total_price nights) as [x|e] eqn:Hdiv; [|done]).
  all: simpl.
  all: destruct (truthy_int (search_min_price q)) as [min_price|].
  all: destruct (truthy_int (search_max_price q)) as [max_price|].
  all: repeat match goal with
       | |- context [if number_lt ?x ?y then _ else _] =>
           destruct (number_lt x y) eqn:?; [done|]
       | |- context [if number_gt ?x ?y then _ else _] =>
           destruct (number_gt x y) eqn:?; [done|]
       end.
  all: intros [= <-]; simpl.
  all: destruct (check_nights_sum _ _ _ Hc) as [Hall Hsum].
  all: split; [done|]; split; [|eexists _, _; split_and!; try done; by eexists].
  all: split_and!; try (intros ? [= <-]; try done; by apply dec_stable).
  all: eexists _, _; split_and!; try done.
  all: try (intros d Hd; by apply Hall, elem_of_date_range).
  all: by intros ? [= <-].
Qed.

(** X16.  Every entry that [search_properties] returns meets the criteria that
    were given, and the entries are properties of the dictionary, in its
    order.  With both dates, every night of the range is available in the
    calendar of the property and search_total_price is the sum of the prices
    of these nights; without one of them no pricing is added. *)
Theorem search_results_fit (lower : string → string) (items : list (string * Listing))
    (q : Search) (results : list SearchResult) :
  search_properties lower items q = Return results →
  map result_property results `sublist_of` map snd items ∧
  Forall (fits_search lower q) results.
Proof.
  intros Hsearch. split.
  - revert results Hsearch.
    induction items as [|[prop_id prop] items IH]; intros results; simpl.
    + by intros [= <-].
    + destruct (search_property lower q prop) as [entry|e] eqn:Hp; [|done]. simpl.
      destruct (search_properties lower items q) as [rs|e]; [|done]. simpl.
      intros [= <-]. destruct entry as [entry|].
      * apply search_property_Some in Hp as (<- & _). simpl.
        by apply sublist_skip, IH.
      * by apply sublist_cons, IH.
  - apply Forall_forall. intros r Hr.
    destruct (search_properties_elem _ _ _ _ _ Hsearch Hr) as (prop_id & prop & _ & Hp).
    by apply search_property_Some in Hp as (_ & Hfits & _).
Qed.

Lemma search_results_fit_witness :
  map result_property
    [mkSearchResult sample_listing
       (Some (200, Float (S754_finite false 7036874417766400 (-46))))]
  `sublist_of` map snd [("U1", sample_listing)].
Proof.
  destruct (search_results_fit ascii_lower [("U1", sample_listing)]
              (mkSearch (Some "paris") (Some may_15) (Some (may_15 + 2)) (Some 2)
                 None None (Some 100))
              [mkSearchResult sample_listing
                 (Some (200, Float (S754_finite false 7036874417766400 (-46))))])
    as [H _].
  - by vm_compute.
  - exact H.
Defined.

(** X17.  An argument that is None, an empty string or 0 is no criterion, and
    the price bounds are read only when both dates are given.  A search
    without city, guests and type and without one of the dates returns every
    property of the dictionary, in its order and without pricing, whatever
    min_price and max_price are. *)
Theorem search_without_criteria (lower : string → string)
    (items : list (string * Listing)) (q : Search) :
  truthy_str (search_city q) = None →
  truthy_int (search_guests q) = None →
  truthy_str (search_property_type q) = None →
  search_check_in_date q = None ∨ search_check_out_date q = None →
  search_properties lower items q
  = Return (map (fun item => mkSearchResult (snd item) None) items).
Proof.
  intros Hcity Hguests Htype Hdates.
  induction items as [|[prop_id prop] items IH]; simpl; [done|].
  rewrite IH. unfold search_property. rewrite Hcity, Hguests, Htype.
  destruct Hdates as [-> | ->]; [done|].
  by destruct (search_check_in_date q).
Qed.

Lemma search_without_criteria_witness :
  search_properties ascii_lower [("U1", sample_listing)]
    (mkSearch (Some "") (Some may_15) None (Some 0) None (Some 1000) (Some 1))
  = Return [mkSearchResult sample_listing None].
Proof.
  apply (search_without_criteria ascii_lower [("U1", sample_listing)]
           (mkSearch (Some "") (Some may_15) None (Some 0) None (Some 1000) (Some 1)));
    (reflexivity || by right).
Defined.

(** X18.  A search with a check-out date that is not after the check-in date
    checks no night.  Without other criteria it returns every property with
    search_total_price 0 and search_avg_price 0, although [create_booking]
    and [calculate_booking_cost] refuse such a range. *)
Theorem search_with_inverted_dates (lower : string → string)
    (items : list (string * Listing)) (q : Search) (ci co : date) :
  search_check_in_date q = Some ci →
  search_check_out_date q = Some co →
  co <= ci →
  truthy_str (search_city q) = None →
  truthy_int (search_guests q) = None →
  truthy_str (search_property_type q) = None →
  truthy_int (search_min_price q) = None →
  truthy_int (search_max_price q) = None →
  search_properties lower items q
  = Return (map (fun item => mkSearchResult (snd item) (Some (0, Int 0))) items) ∧
  ∀ pid f, is_Some (properties (database f) !! pid) →
           call (calculate_booking_cost pid ci co) f
           = (Raise (ValueError Check_out_must_be_after_check_in), f).
Proof.
  intros Hci Hco Hle Hcity Hguests Htype Hmin Hmax. split.
  - induction items as [|[prop_id prop] items IH]; simpl; [done|].
    rewrite IH. unfold search_property.
    rewrite Hcity, Hguests, Htype, Hci, Hco, Hmin, Hmax.
    rewrite date_range_nil by done. simpl.
    by destruct (co - ci) eqn:Hn; [|lia|].
  - intros pid f [p Hp]. unfold call. rewrite calculate_booking_cost_run, Hp.
    by destruct (Z.leb_spec (co - ci) 0); [|lia].
Qed.

Lemma search_with_inverted_dates_witness :
  search_properties ascii_lower [("U1", sample_listing)]
    (mkSearch None (Some (may_15 + 2)) (Some may_15) None None None None)
  = Return [mkSearchResult sample_listing (Some (0, Int 0))].
Proof.
  destruct (search_with_inverted_dates ascii_lower [("U1", sample_listing)]
              (mkSearch None (Some (may_15 + 2)) (Some may_15) None None None None)
              (may_15 + 2) may_15)
    as [H _]; [reflexivity|reflexivity|lia|reflexivity..|exact H].
Defined.

(** X19.  A property that a search with both dates returns can be booked for
    these dates.  When check-out is after check-in and the file holds the
    calendar that was searched, a [create_booking] for the range by a known
    user with a payment method of theirs and a guest count within the
    capacity is accepted as soon as a booking id can be generated, and the
    total_price it stores is the search_total_price of the entry. *)
Theorem dated_search_result_can_be_booked (lower : string → string)
    (items : list (string * Listing)) (q : Search) (results : list SearchResult)
    (r : SearchResult) (f : option DB) (req : Request) (id : string) :
  search_properties lower items q = Return results →
  r ∈ results →
  search_check_in_date q = Some (req_check_in req) →
  search_check_out_date q = Some (req_check_out req) →
  req_check_in req < req_check_out req →
  properties (database f) !! req_property req
  = Some (listing_property (result_property r)) →
  valid_request (database f) req →
  get_next_booking_id (database f) = Return id →
  ∃ total avg_price b f1,
    search_pricing r = Some (total, avg_price) ∧
    call (book req) f = (Return b, f1) ∧
    booking_id b = id ∧
    total_price b = total.
Proof.
  intros Hsearch Hr Hci Hco Hlt Hprop Hvalid Hid.
  destruct (search_properties_elem _ _ _ _ _ Hsearch Hr) as (prop_id & prop & _ & Hp).
  apply search_property_Some in Hp as (Hrp & _ & Hdated).
  rewrite Hci, Hco in Hdated. destruct Hdated as (total & avg_price & Hpricing & Hc & _).
  exists total, avg_price.
  destruct Hvalid as (u & p & Hu & Hp & Hpm & Hg).
  rewrite Hprop in Hp. injection Hp as <-. rewrite Hrp in *.
  change (call (book req) f)
    with (let '(res, s) := book_body req (mkStore f (database f)) in (res, file s)).
  unfold book_body. rewrite create_booking_body_run, Hu, Hprop, Hid, Hc.
  rewrite bool_decide_eq_false_2 by tauto.
  destruct (Z.gtb_spec (req_guests req) (capacity_guests (listing_property prop))); [lia|].
  destruct (Z.leb_spec (req_check_out req - req_check_in req) 0); [lia|].
  simpl. by eexists _, _.
Qed.

Lemma dated_search_result_can_be_booked_witness :
  ∃ total avg_price b f1,
    search_pricing (mkSearchResult sample_listing
                      (Some (200, Float (S754_finite false 7036874417766400 (-46)))))
    = Some (total, avg_price) ∧
    call (book sample_request) (Some sample_db) = (Return b, f1) ∧
    booking_id b = "BOOK001" ∧
    total_price b = total.
Proof.
  apply (dated_search_result_can_be_booked ascii_lower [("U1", sample_listing)]
           (mkSearch (Some "paris") (Some may_15) (Some (may_15 + 2)) (Some 2)
              None None (Some 100))
           [mkSearchResult sample_listing
              (Some (200, Float (S754_finite false 7036874417766400 (-46))))]).
  - by vm_compute.
  - by left.
  - reflexivity.
  - reflexivity.
  - by vm_compute.
  - by vm_compute.
  - exists (mkUser {[ "pm1" ]} []), (mkProperty 4 (three_nights "available")).
    split_and!; [by vm_compute|by vm_compute|by vm_compute|simpl; lia].
  - by vm_compute.
Defined.

(** ** Without a database file *)

(** X20.  As long as db.json does not exist no call creates it: [create_booking],
    [cancel_booking] and [add_review] find no user and no booking in the
    empty database that [load_db] returns, raise, and write nothing. *)
Theorem missing_file_stays_missing (ops : list Op) :
  run_ops ops None = None ∧
  (∀ r, call (book r) None = (Raise (ValueError (User_not_found (req_user r))), None)) ∧
  (∀ today id reason,
     call (cancel_booking today id reason) None
     = (Raise (ValueError (Booking_not_found id)), None)) ∧
  (∀ today id rating comment,
     call (add_review today id rating comment) None
     = (Raise (ValueError (Booking_not_found id)), None)).
Proof.
  assert (∀ r, call (book r) None
               = (Raise (ValueError (User_not_found (req_user r))), None)) as Hbook.
  { intros r. rewrite call_book. unfold book_body.
    by rewrite create_booking_body_run. }
  assert (∀ today id reason, call (cancel_booking today id reason) None
            = (Raise (ValueError (Booking_not_found id)), None)) as Hcancel.
  { intros today id reason. unfold call.
    by rewrite cancel_booking_run, cancel_booking_body_run. }
  split_and!; [|done|done|].
  - induction ops as [|op ops IH]; [done|]. simpl.
    destruct op as [r|today id reason]; simpl.
    + by rewrite Hbook.
    + by rewrite Hcancel.
  - intros today id rating comment. by rewrite add_review_run.
Qed.

(** ** References between the dictionaries *)

(** X21.  A booking whose property is not in the database cannot be cancelled.
    Every attempt raises [KeyError] for the property id after the booking was
    marked in the dictionary of the call and before [save_db]; the file stays
    as it is, and the booking keeps its status. *)
Theorem dangling_booking_cannot_be_cancelled (today : date) (id reason : string)
    (f : option DB) (b : Booking) (n : nat) :
  bookings (database f) !! id = Some b →
  booking_status b ≠ "cancelled" → booking_status b ≠ "completed" →
  properties (database f) !! property_id b = None →
  repeat_call n (cancel_booking today id reason) f
  = (replicate n (Raise (KeyError (property_id b))), f) ∧
  bookings (mem (snd (cancel_booking today id reason (mkStore f empty_db)))) !! id
  = Some (mark_cancelled reason today b).
Proof.
  intros Hb Hs1 Hs2 Hp. split.
  - induction n as [|n IH]; simpl; [done|].
    by rewrite (cancel_booking_missing_property _ _ _ _ b), IH.
  - rewrite cancel_booking_run, cancel_booking_body_run, Hb.
    rewrite (bool_decide_eq_false_2 _ Hs1), (bool_decide_eq_false_2 _ Hs2), Hp.
    simpl. by rewrite lookup_alter_eq, Hb.
Qed.

Lemma dangling_booking_cannot_be_cancelled_witness :
  repeat_call 2 (cancel_booking may_15 "BOOK0002" "") (Some dangling_db)
  = ([Raise (KeyError "U1"); Raise (KeyError "U1")], Some dangling_db).
Proof.
  destruct (dangling_booking_cannot_be_cancelled may_15 "BOOK0002" "" (Some dangling_db)
              overhanging_booking 2) as [H _]; [by vm_compute..|exact H].
Defined.

Lemma book_references_resolve r f :
  references_resolve (database f) →
  references_resolve (database (snd (call (book r) f))).
Proof.
  intros (Hlist & Hown & Hprop).
  destruct (call_book_cases r f)
    as [[e ->]|(id & total_price & p & H & Hok & _ & Hfresh & Hp & _)]; [done|].
  simpl in H. rewrite H. simpl. set (db := database f) in *.
  destruct Hok as [(u & _ & Hu & _) _].
  split_and!.
  - intros uid u' id' Hu' Hin. simpl in *.
    destruct (decide (uid = req_user r)) as [->|Hne].
    + rewrite lookup_alter_eq, Hu in Hu'. simpl in Hu'. injection Hu' as <-.
      simpl in Hin. apply elem_of_app in Hin as [Hin|Hin%list_elem_of_singleton].
      * destruct (Hlist _ _ _ Hu Hin) as (b & Hb & Hub). exists b. split; [|done].
        rewrite lookup_insert_ne; [done|]. intros <-. by rewrite Hfresh in Hb.
      * subst id'. rewrite lookup_insert_eq. by eexists.
    + rewrite lookup_alter_ne in Hu' by done.
      destruct (Hlist _ _ _ Hu' Hin) as (b & Hb & Hub). exists b. split; [|done].
      rewrite lookup_insert_ne; [done|]. intros <-. by rewrite Hfresh in Hb.
  - intros id' b Hb. simpl in *.
    destruct (decide (id' = id)) as [->|Hne].
    + rewrite lookup_insert_eq in Hb. injection Hb as <-. simpl.
      rewrite lookup_alter_eq, Hu. simpl. eexists. split; [done|].
      simpl. apply elem_of_app. right. by left.
    + rewrite lookup_insert_ne in Hb by done.
      destruct (Hown _ _ Hb) as (u' & Hu' & Hin).
      destruct (decide (user_id b = req_user r)) as [Heq|Hneq].
      * rewrite Heq, lookup_alter_eq, <- Heq, Hu'. simpl. eexists. split; [done|].
        simpl. apply elem_of_app. by left.
      * rewrite lookup_alter_ne by done. by exists u'.
  - intros id' b Hb. simpl in *.
    assert (is_Some (properties db !! property_id b)) as [p' Hp'].
    { destruct (decide (id' = id)) as [->|Hne].
      - rewrite lookup_insert_eq in Hb. injection Hb as <-. simpl. by exists p.
      - rewrite lookup_insert_ne in Hb by done. by eapply Hprop. }
    destruct (decide (property_id b = req_property r)) as [Heq|Hneq].
    + rewrite Heq, lookup_alter_eq, <- Heq, Hp'. by eexists.
    + rewrite lookup_alter_ne by done. by exists p'.
Qed.

Lemma cancel_references_resolve today id reason f :
  references_resolve (database f) →
  references_resolve (database (snd (call (cancel_booking today id reason) f))).
Proof.
  intros (Hlist & Hown & Hprop).
  destruct (call_cancel_cases today id reason f)
    as [[e ->]|(b0 & Hb0 & _ & _ & _ & ->)]; [done|].
  simpl. set (db := database f) in *.
  assert (∀ id' b, alter (mark_cancelled reason today) id (bookings db) !! id' = Some b →
            ∃ b', bookings db !! id' = Some b' ∧ user_id b = user_id b' ∧
                  property_id b = property_id b') as Hold.
  { intros id' b Hb. destruct (decide (id' = id)) as [->|Hne].
    - rewrite lookup_alter_eq, Hb0 in Hb. injection Hb as <-. by exists b0.
    - rewrite lookup_alter_ne in Hb by done. by exists b. }
  split_and!.
  - intros uid u id' Hu Hin. simpl in *.
    destruct (Hlist _ _ _ Hu Hin) as (b & Hb & Hub).
    destruct (decide (id' = id)) as [->|Hne].
    + rewrite lookup_alter_eq, Hb. simpl. by eexists.
    + rewrite lookup_alter_ne by done. by exists b.
  - intros id' b Hb. simpl in *.
    destruct (Hold _ _ Hb) as (b' & Hb' & -> & _). by eapply Hown.
  - intros id' b Hb. simpl in *.
    destruct (Hold _ _ Hb) as (b' & Hb' & _ & ->).
    destruct (Hprop _ _ Hb') as [p' Hp'].
    destruct (decide (property_id b' = property_id b0)) as [Heq|Hneq].
    + rewrite Heq, lookup_alter_eq, <- Heq, Hp'. by eexists.
    + rewrite lookup_alter_ne by done. by exists p'.
Qed.

Lemma collect_bookings_all bs ids :
  (∀ id, id ∈ ids → is_Some (bs !! id)) →
  Forall2 (fun id b => bs !! id = Some b) ids (collect_bookings bs ids).
Proof.
  induction ids as [|id ids IH]; intros Hall; simpl; [constructor|].
  destruct (Hall id) as [b Hb]; [by left|]. rewrite Hb.
  constructor; [done|]. apply IH. intros id' Hin. apply Hall. by right.
Qed.

(** X22.  The calls keep the references between the dictionaries.  If every id
    in a booking list is the id of a booking of that user, every booking is in
    the list of its user and the property of every booking exists, then this
    still holds after any sequence of calls; [get_user_bookings] then returns
    one booking for each id of the list, in order, each a booking of the
    user, and a booking that is neither cancelled nor completed can be
    cancelled. *)
Theorem references_are_kept (f0 : option DB) (ops : list Op) :
  references_resolve (database f0) →
  let f := run_ops ops f0 in
  references_resolve (database f) ∧
  (∀ uid u, users (database f) !! uid = Some u →
     ∃ l, call (get_user_bookings uid) f = (Return l, f) ∧
          Forall2 (fun id b => bookings (database f) !! id = Some b ∧ user_id b = uid)
            (user_bookings u) l) ∧
  (∀ today id reason b,
     bookings (database f) !! id = Some b →
     booking_status b ≠ "cancelled" → booking_status b ≠ "completed" →
     ∃ f', call (cancel_booking today id reason) f
           = (Return (mark_cancelled reason today b), f')).
Proof.
  intros H0 f.
  assert (references_resolve (database f)) as Hf.
  { unfold f. clear f. revert f0 H0.
    induction ops as [|op ops IH]; intros f0 H0; [done|].
    simpl. apply IH. destruct op as [r|today id reason]; simpl.
    - by apply book_references_resolve.
    - by apply cancel_references_resolve. }
  split; [done|]. destruct Hf as (Hlist & Hown & Hprop). split.
  - intros uid u Hu. rewrite get_user_bookings_run, Hu. eexists. split; [done|].
    pose proof (collect_bookings_all (bookings (database f)) (user_bookings u)) as Hall.
    assert (∀ id, id ∈ user_bookings u → is_Some (bookings (database f) !! id)) as Hsome.
    { intros id Hin. destruct (Hlist _ _ _ Hu Hin) as (b & Hb & _). by exists b. }
    specialize (Hall Hsome).
    assert (∀ id, id ∈ user_bookings u → ∀ b, bookings (database f) !! id = Some b →
                  user_id b = uid) as Huid.
    { intros id Hin b Hb. destruct (Hlist _ _ _ Hu Hin) as (b' & Hb' & Hub). congruence. }
    clear Hsome Hu.
    induction Hall as [|id b ids bs Hb Hrest IH]; [constructor|].
    constructor.
    + split; [done|]. eapply Huid; [by left|done].
    + apply IH. intros id' Hin. apply Huid. by right.
  - intros today id reason b Hb Hs1 Hs2.
    destruct (Hprop _ _ Hb) as [p Hp].
    unfold call. rewrite cancel_booking_run, cancel_booking_body_run, Hb.
    rewrite (bool_decide_eq_false_2 _ Hs1), (bool_decide_eq_false_2 _ Hs2), Hp.
    simpl. by eexists.
Qed.

Lemma references_are_kept_witness :
  references_resolve (database (Some sample_db)) ∧
  references_resolve
    (database (run_ops [Create sample_request; Cancel may_15 "BOOK001" ""]
                 (Some sample_db))).
Proof.
  assert (references_resolve (database (Some sample_db))) as H0.
  { split_and!.
    - intros uid u id Hu Hin. exfalso. revert Hu Hin. simpl.
      destruct (decide (uid = "user1")) as [->|Hne].
      + rewrite lookup_singleton_eq. intros [= <-] Hin. by apply elem_of_nil in Hin.
      + by rewrite lookup_singleton_ne.
    - intros id b Hb. simpl in Hb. by rewrite lookup_empty in Hb.
    - intros id b Hb. simpl in Hb. by rewrite lookup_empty in Hb. }
  split; [exact H0|].
  apply (references_are_kept (Some sample_db)
           [Create sample_request; Cancel may_15 "BOOK001" ""] H0).
Defined.

(** ** The price bounds of a search

    The average price of a search is a float, the quotient of two ints, and
    it is compared with the int bounds.  For a total below 2^51 the rounding
    of the quotient cannot carry it across an int, so the comparisons decide
    as they would on the exact quotient. *)

(** The first rounding step of a mantissa of 53 or 54 bits, whatever is
    known of the digits that were cut off. *)
Lemma shr_fexp_inexact q e l k :
  k = Z.pos (digits2_pos q) - 53 → k = 0 ∨ k = 1 → -1074 <= e →
  ∃ mrs,
    shr_fexp prec emax (Z.pos q) e l = (mrs, e + k) ∧
    (round_nearest_even (shr_m mrs) (loc_of_shr_record mrs) = Z.pos q / 2 ^ k ∨
     round_nearest_even (shr_m mrs) (loc_of_shr_record mrs) = Z.pos q / 2 ^ k + 1).
Proof.
  intros Hk Hk01 He. unfold shr_fexp, fexp, emin, prec, emax. cbn [Zdigits2].
  replace (Z.max (Z.pos (digits2_pos q) + e - 53) (3 - 1024 - 53) - e) with k by lia.
  unfold shr. destruct Hk01 as [-> | ->].
  - eexists. split; [by rewrite Z.add_0_r|].
    rewrite Z.div_1_r.
    destruct l as [|[| |]];
      cbn [shr_record_of_loc loc_of_shr_record shr_m shr_r shr_s round_nearest_even];
      try (by left); try (by right).
    destruct (Z.even _); [by left|by right].
  - eexists. split; [done|]. cbn [SpecFloat.iter_pos].
    change (2 ^ 1) with 2.
    destruct l as [|[| |]]; cbn [shr_record_of_loc]; rewrite shr_1_nonneg by lia;
      cbn [loc_of_shr_record shr_m shr_r shr_s orb];
      destruct (Z.odd (Z.pos q)); cbn [round_nearest_even];
      try (by left); try (by right);
      destruct (Z.even _); (by left) || (by right).
Qed.

(** The float that a mantissa of 53 or 54 bits rounds to lies within two
    units of the mantissa. *)
Lemma binary_round_aux_enclosure q e l :
  2 ^ 52 <= Z.pos q < 2 ^ 54 → -1074 <= e → e + 2 <= 971 →
  ∃ mz ez,
    binary_round_aux prec emax false (Z.pos q) e l = S754_finite false mz ez ∧
    e <= ez ∧
    Z.pos q - 1 <= Z.pos mz * 2 ^ (ez - e) <= Z.pos q + 2.
Proof.
  intros Hq He Hmax.
  set (k := Z.pos (digits2_pos q) - 53).
  assert (k = 0 ∨ k = 1) as Hk01.
  { unfold k. destruct (Z.ltb_spec (Z.pos q) (2 ^ 53)).
    - left. rewrite (digits2_pos_unique q 53); [lia|]. change (53 - 1) with 52. lia.
    - right. rewrite (digits2_pos_unique q 54); [lia|]. change (54 - 1) with 53. lia. }
  assert (2 ^ 52 <= Z.pos q / 2 ^ k < 2 ^ 53) as Hdiv.
  { pose proof (digits2_pos_bounds q) as Hb.
    destruct Hk01 as [H0|H1].
    - rewrite H0, Z.div_1_r. replace (Z.pos (digits2_pos q)) with 53 in Hb by lia. lia.
    - rewrite H1. change (2 ^ 1) with 2.
      replace (Z.pos (digits2_pos q)) with 54 in Hb by lia.
      change (2 ^ (54 - 1)) with (2 ^ 53) in Hb.
      change (2 ^ 53) with 9007199254740992 in *.
      change (2 ^ 52) with 4503599627370496.
      change (2 ^ 54) with 18014398509481984 in *.
      Z.div_mod_to_equations. lia. }
  destruct (shr_fexp_inexact q e l k eq_refl Hk01 He) as (mrs & Hshr & Hround).
  unfold binary_round_aux. rewrite Hshr.
  set (m1 := round_nearest_even (shr_m mrs) (loc_of_shr_record mrs)) in *.
  assert (2 ^ 52 <= m1 <= 2 ^ 53) as Hm1 by lia.
  assert (Z.pos q - 1 <= m1 * 2 ^ k <= Z.pos q + 2) as Hv.
  { destruct Hk01 as [H0|H1].
    - rewrite H0 in *. rewrite Z.div_1_r in Hround. change (2 ^ 0) with 1. lia.
    - rewrite H1 in *. change (2 ^ 1) with 2 in *. Z.div_mod_to_equations. lia. }
  clearbody m1. destruct m1 as [|p1|p1]; [lia| |lia].
  destruct (Z.ltb_spec (Z.pos p1) (2 ^ 53)) as [Hlt|Hge].
  - assert (Z.pos (digits2_pos p1) = 53) as Hd1
      by (apply digits2_pos_unique; change (53 - 1) with 52; lia).
    destruct (shr_fexp_exact p1 (e + k)) as (mrs1 & Hshr1 & Hmm1 & _); [lia..|].
    rewrite Hshr1, Hmm1, Hd1. replace (53 - 53) with 0 by lia.
    rewrite Z.div_1_r, Z.add_0_r.
    unfold emax, prec. destruct (Z.leb_spec (e + k) (1024 - 53)); [|lia].
    eexists _, _. split; [done|]. split; [lia|].
    by replace (e + k - e) with k by lia.
  - assert (Z.pos p1 = 2 ^ 53) as Hp by lia.
    assert (Z.pos (digits2_pos p1) = 54) as Hd1
      by (apply digits2_pos_unique; rewrite Hp; simpl; lia).
    destruct (shr_fexp_exact p1 (e + k)) as (mrs1 & Hshr1 & Hmm1 & _); [lia..|].
    rewrite Hshr1, Hmm1, Hd1. replace (54 - 53) with 1 by lia.
    rewrite Hp. change (2 ^ 53 / 2 ^ 1) with (Z.pos (Z.to_pos (2 ^ 53 / 2))).
    cbv iota beta.
    unfold emax, prec. destruct (Z.leb_spec (e + k + 1) (1024 - 53)); [|lia].
    eexists _, _. split; [done|]. split; [lia|].
    replace (e + k + 1 - e) with (Z.succ k) by lia.
    rewrite Z.pow_succ_r by lia. rewrite Hp in Hv.
    change (Z.pos (Z.to_pos (2 ^ 53 / 2))) with (2 ^ 52).
    change (2 ^ 53) with (2 ^ 52 * 2) in Hv. lia.
Qed.

(** The quotient of an int below 2^51 by an int below 2^53, before its
    rounding: a mantissa of 53 or 54 bits, with a scale of at least four
    times the divisor. *)
Lemma div_core_small a b :
  Z.pos a < 2 ^ 51 → Z.pos b < 2 ^ 53 →
  ∃ s l,
    SFdiv_core_binary prec emax (Z.pos a) 0 (Z.pos b) 0
    = (Z.pos a * 2 ^ s / Z.pos b, - s, l) ∧
    0 < s <= 105 ∧ 4 * Z.pos b <= 2 ^ s ∧
    2 ^ 52 <= Z.pos a * 2 ^ s / Z.pos b < 2 ^ 54.
Proof.
  intros Ha Hb.
  set (d1 := Z.pos (digits2_pos a)). set (d2 := Z.pos (digits2_pos b)).
  pose proof (digits2_pos_bounds a) as Ha'. fold d1 in Ha'.
  pose proof (digits2_pos_bounds b) as Hb'. fold d2 in Hb'.
  assert (0 < d1) by lia. assert (0 < d2) by lia.
  assert (d1 <= 51) as Hd1.
  { destruct (Z.leb_spec d1 51); [done|].
    assert (2 ^ 51 <= 2 ^ (d1 - 1)) by (apply Z.pow_le_mono_r; lia). lia. }
  assert (d2 <= 53) as Hd2.
  { destruct (Z.leb_spec d2 53); [done|].
    assert (2 ^ 53 <= 2 ^ (d2 - 1)) by (apply Z.pow_le_mono_r; lia). lia. }
  set (s := 53 + d2 - d1).
  assert (0 < 2 ^ s) as Hpow by (apply Z.pow_pos_nonneg; lia).
  exists s. unfold SFdiv_core_binary, fexp, emin, prec, emax. cbn [Zdigits2].
  fold d1 d2.
  replace (Z.min (Z.max (d1 + 0 - (d2 + 0) - 53) (3 - 1024 - 53)) (0 - 0)) with (- s)
    by lia.
  replace (0 - 0 - - s) with s by lia.
  destruct s as [|ps|ps] eqn:Hs; [lia| |lia]. rewrite <- Hs in *.
  replace (Z.pos ps) with s by lia.
  rewrite Z.shiftl_mul_pow2 by lia.
  unfold Z.div. destruct (Z.div_eucl (Z.pos a * 2 ^ s) (Z.pos b)) as [q r] eqn:Hqr.
  eexists. split; [done|].
  assert (q = Z.pos a * 2 ^ s / Z.pos b) as Hq by (unfold Z.div; by rewrite Hqr).
  split; [lia|].
  assert (2 ^ s = 4 * 2 ^ d2 * 2 ^ (51 - d1)) as Hs4.
  { change 4 with (2 ^ 2). rewrite <- !Z.pow_add_r by lia. f_equal. lia. }
  assert (1 <= 2 ^ (51 - d1)) by (apply (Z.pow_le_mono_r 2 0); lia).
  split; [nia|].
  assert (2 ^ (d1 - 1) * 2 ^ s = 2 ^ 52 * 2 ^ d2) as Hlo.
  { rewrite <- !Z.pow_add_r by lia. f_equal. lia. }
  assert (2 ^ d1 * 2 ^ s = 2 ^ 54 * 2 ^ (d2 - 1)) as Hhi.
  { rewrite <- !Z.pow_add_r by lia. f_equal. lia. }
  rewrite Hq. split.
  - apply Z.div_le_lower_bound; [lia|]. nia.
  - apply Z.div_lt_upper_bound; [lia|]. nia.
Qed.

(** Comparing the float quotient with an int gives what the exact quotient
    gives. *)
Lemma true_divide_compare a b n :
  0 <= a < 2 ^ 51 → Z.pos b < 2 ^ 53 →
  ∃ y, true_divide a b = Return y ∧
       (a < n * Z.pos b → float_compare_int y n = Some Lt) ∧
       (n * Z.pos b < a → float_compare_int y n = Some Gt).
Proof.
  intros Ha Hb. pose proof (Pos2Z.is_pos b) as Hbpos.
  destruct a as [|a|a]; [| |lia].
  { eexists. split; [done|]. cbn [float_compare_int]. split; intros H.
    - f_equal. apply Z.compare_lt_iff. clear Ha Hb. nia.
    - f_equal. apply Z.compare_gt_iff.
      destruct (Z.ltb_spec n 0); [done|].
      assert (0 <= n * Z.pos b) by (apply Z.mul_nonneg_nonneg; lia). lia. }
  destruct Ha as [_ Ha].
  destruct (div_core_small a b Ha Hb) as (s & l & Hcore & Hs & Hs4 & Hq).
  unfold true_divide, round_quotient. rewrite Hcore.
  set (q := Z.pos a * 2 ^ s / Z.pos b) in *.
  assert (0 < 2 ^ s) as Hpow by (apply Z.pow_pos_nonneg; lia).
  assert (q * Z.pos b <= Z.pos a * 2 ^ s < (q + 1) * Z.pos b) as Hqb.
  { unfold q. pose proof (Z.div_mod (Z.pos a * 2 ^ s) (Z.pos b) ltac:(lia)).
    pose proof (Z.mod_pos_bound (Z.pos a * 2 ^ s) (Z.pos b) ltac:(lia)). nia. }
  clearbody q. destruct q as [|q|q]; [lia| |lia].
  destruct (binary_round_aux_enclosure q (- s) l) as (mz & ez & -> & Hez & Hv);
    [lia..|].
  eexists. split; [done|].
  replace (ez - - s) with (ez + s) in Hv by lia.
  cbn [float_compare_int cond_Zopp].
  assert (∀ x y c, 0 < c → (x * c ?= y * c) = (x ?= y)) as Hscale.
  { intros x y c Hc. destruct (Z.compare_spec x y) as [->|Hlt|Hgt].
    - apply Z.compare_refl.
    - apply Z.compare_lt_iff. nia.
    - apply Z.compare_gt_iff. nia. }
  destruct (Z.leb_spec 0 ez) as [Hpos|Hneg].
  - assert (Z.pos mz * 2 ^ (ez + s) = Z.pos mz * 2 ^ ez * 2 ^ s) as Hvs
      by (rewrite Z.pow_add_r by lia; ring).
    rewrite Hvs in Hv. rewrite <- (Hscale _ n (2 ^ s) Hpow).
    split; intros H; f_equal.
    + apply Z.compare_lt_iff. nia.
    + apply Z.compare_gt_iff. nia.
  - assert (0 < 2 ^ (ez + s)) as Hpow' by (apply Z.pow_pos_nonneg; lia).
    assert (2 ^ s = 2 ^ (- ez) * 2 ^ (ez + s)) as Hss
      by (rewrite <- Z.pow_add_r by lia; f_equal; lia).
    rewrite <- (Hscale _ (n * 2 ^ (- ez)) (2 ^ (ez + s)) Hpow').
    split; intros H; f_equal.
    + apply Z.compare_lt_iff. nia.
    + apply Z.compare_gt_iff. nia.
Qed.

(** X23.  The price bounds of a search hold exactly.  For a range of at least
    one night whose prices sum to a total that is not negative and below
    2^51, an entry is returned only if min_price times the number of nights
    is at most the total, and the total at most max_price times the number of
    nights; the average that is compared is a float, and its rounding does
    not change the outcome of a comparison. *)
Theorem price_bounds_are_exact (lower : string → string)
    (items : list (string * Listing)) (q : Search) (results : list SearchResult)
    (r : SearchResult) (ci co : date) :
  search_properties lower items q = Return results →
  r ∈ results →
  search_check_in_date q = Some ci →
  search_check_out_date q = Some co →
  ci < co → co - ci < 2 ^ 53 →
  ∃ total avg_price,
    search_pricing r = Some (total, avg_price) ∧
    (0 <= total < 2 ^ 51 →
     (∀ min_price, truthy_int (search_min_price q) = Some min_price →
        min_price * (co - ci) <= total) ∧
     (∀ max_price, truthy_int (search_max_price q) = Some max_price →
        total <= max_price * (co - ci))).
Proof.
  intros Hsearch Hr Hci Hco Hlt Hnights.
  destruct (search_properties_elem _ _ _ _ _ Hsearch Hr) as (prop_id & prop & _ & Hp).
  apply search_property_Some in Hp as (_ & Hfits & Hdated).
  destruct Hfits as (_ & _ & _ & Hfits).
  rewrite Hci, Hco in Hfits, Hdated.
  destruct Hdated as (total & avg_price & Hpricing & _ & Havg).
  destruct Hfits as (total' & avg_price' & Hpricing' & _ & _ & Hmin & Hmax).
  rewrite Hpricing in Hpricing'. injection Hpricing' as <- <-.
  exists total, avg_price. split; [done|]. intros Htotal.
  destruct (co - ci) as [|nights|nights] eqn:Hn; [lia| |lia].
  destruct Havg as (x & Hdiv & ->).
  split.
  - intros min_price Hm. specialize (Hmin _ Hm).
    destruct (true_divide_compare total nights min_price Htotal Hnights)
      as (y & Hy & Hless & _).
    rewrite Hdiv in Hy. injection Hy as <-.
    destruct (Z.leb_spec (min_price * Z.pos nights) total); [done|].
    unfold number_lt, number_compare_int in Hmin. by rewrite Hless in Hmin.
  - intros max_price Hm. specialize (Hmax _ Hm).
    destruct (true_divide_compare total nights max_price Htotal Hnights)
      as (y & Hy & _ & Hmore).
    rewrite Hdiv in Hy. injection Hy as <-.
    destruct (Z.leb_spec total (max_price * Z.pos nights)); [done|].
    unfold number_gt, number_compare_int in Hmax. by rewrite Hmore in Hmax.
Qed.

Lemma price_bounds_are_exact_witness :
  ∃ total avg_price,
    search_pricing (mkSearchResult sample_listing
                      (Some (200, Float (S754_finite false 7036874417766400 (-46)))))
    = Some (total, avg_price) ∧
    (0 <= total < 2 ^ 51 →
     (∀ min_price, truthy_int (Some 100) = Some min_price →
        min_price * (may_15 + 2 - may_15) <= total) ∧
     (∀ max_price, truthy_int (Some 100) = Some max_price →
        total <= max_price * (may_15 + 2 - may_15))).
Proof.
  apply (price_bounds_are_exact ascii_lower [("U1", sample_listing)]
           (mkSearch None (Some may_15) (Some (may_15 + 2)) None None
              (Some 100) (Some 100))
           [mkSearchResult sample_listing
              (Some (200, Float (S754_finite false 7036874417766400 (-46))))]).
  - by vm_compute.
  - by left.
  - reflexivity.
  - reflexivity.
  - lia.
  - by vm_compute.
Defined.

(** X24.  A property that was booked is no longer found for its nights.  After
    a successful [create_booking], a search with both dates whose range
    shares a night with the booking returns no entry with the calendar that
    the file now holds for the property. *)
Theorem booked_property_is_not_found (lower : string → string) (req : Request)
    (f f1 : option DB) (b : Booking) (p : Property)
    (items : list (string * Listing)) (q : Search) (results : list SearchResult)
    (ci co d : date) :
  call (book req) f = (Return b, f1) →
  properties (database f1) !! req_property req = Some p →
  search_check_in_date q = Some ci →
  search_check_out_date q = Some co →
  in_range ci co d →
  in_range (req_check_in req) (req_check_out req) d →
  search_properties lower items q = Return results →
  ∀ r, r ∈ results → listing_property (result_property r) ≠ p.
Proof.
  intros Hcall Hp Hci Hco Hd Hdreq Hsearch r Hr Heq.
  destruct (call_book_cases req f)
    as [[e He]|(id & total_price & p0 & H & Hok & _ & _ & Hp0 & Hc)].
  { by rewrite He in Hcall. }
  simpl in H. rewrite H in Hcall. injection Hcall as <- <-.
  simpl in Hp. rewrite lookup_alter_eq, Hp0 in Hp. simpl in Hp. injection Hp as <-.
  destruct (search_properties_elem _ _ _ _ _ Hsearch Hr) as (prop_id & prop & _ & Hprop).
  apply search_property_Some in Hprop as (Hrp & Hfits & _).
  destruct Hfits as (_ & _ & _ & Hfits). rewrite Hci, Hco in Hfits.
  destruct Hfits as (total & avg_price & _ & Hall & _).
  destruct (Hall d Hd) as (day_info & Hday & Hstatus).
  rewrite Heq in Hday. simpl in Hday.
  rewrite set_days_lookup in Hday.
  rewrite bool_decide_eq_true_2 in Hday by (by apply elem_of_date_range).
  destruct (availability p0 !! d) as [day_info0|]; [|done].
  simpl in Hday. injection Hday as <-. done.
Qed.

Lemma booked_property_is_not_found_witness :
  search_properties ascii_lower
    [("U1", mkListing "Paris" "France" "apartment" booked_calendar);
     ("U2", lyon_listing)]
    (mkSearch None (Some (may_15 + 1)) (Some (may_15 + 3)) None None None None)
  = Return [mkSearchResult lyon_listing
              (Some (200, Float (S754_finite false 7036874417766400 (-46))))] ∧
  listing_property
    (result_property
       (mkSearchResult lyon_listing
          (Some (200, Float (S754_finite false 7036874417766400 (-46))))))
  ≠ booked_calendar.
Proof.
  split; [by vm_compute|].
  apply (booked_property_is_not_found ascii_lower sample_request (Some sample_db)
           (snd (call (book sample_request) (Some sample_db)))
           (new_booking sample_request "BOOK001" 200) booked_calendar
           [("U1", mkListing "Paris" "France" "apartment" booked_calendar);
            ("U2", lyon_listing)]
           (mkSearch None (Some (may_15 + 1)) (Some (may_15 + 3)) None None None None)
           [mkSearchResult lyon_listing
              (Some (200, Float (S754_finite false 7036874417766400 (-46))))]
           (may_15 + 1) (may_15 + 3) (may_15 + 1)).
  - by vm_compute.
  - by vm_compute.
  - reflexivity.
  - reflexivity.
  - unfold in_range. lia.
  - unfold in_range. simpl. lia.
  - by vm_compute.
  - by left.
Defined.

(** ** The order of the dictionaries *)

(** Two lists in strictly ascending order with the same elements are equal. *)
Lemma strictly_sorted_unique {A} (R : A → A → Prop) (l1 l2 : list A) :
  (∀ x, ¬ R x x) → (∀ x y z, R x y → R y z → R x z) →
  StronglySorted R l1 → StronglySorted R l2 →
  (∀ x, x ∈ l1 ↔ x ∈ l2) → l1 = l2.
Proof.
  intros Hirr Htrans H1. revert l2.
  induction H1 as [|x1 l1 Hl1 IH Hx1]; intros l2 H2 Hsame.
  - destruct l2 as [|x2 l2]; [done|].
    exfalso. eapply not_elem_of_nil, Hsame. by left.
  - inversion H2 as [|x2 l2' Hl2 Hx2]; subst.
    { exfalso. eapply not_elem_of_nil, Hsame. by left. }
    rewrite Forall_forall in Hx1, Hx2.
    assert (x1 = x2) as ->.
    { assert (x1 ∈ x2 :: l2') as [->|Hin1]%elem_of_cons by (apply Hsame; by left); [done|].
      assert (x2 ∈ x1 :: l1) as [->|Hin2]%elem_of_cons by (apply Hsame; by left); [done|].
      exfalso. apply (Hirr x1). eapply Htrans; [by apply Hx1|by apply Hx2]. }
    f_equal. apply IH; [done|]. intros x. split; intros Hin.
    + assert (x ∈ x2 :: l2') as [->|?]%elem_of_cons by (apply Hsame; by right); [|done].
      exfalso. by apply (Hirr x2), Hx1.
    + assert (x ∈ x2 :: l1) as [->|?]%elem_of_cons by (apply Hsame; by right); [|done].
      exfalso. by apply (Hirr x2), Hx2.
Qed.

Lemma cities_perm (values values' : list Listing) (acc : gset (string * string)) :
  values ≡ₚ values' →
  foldl (fun cities prop =>
           {[ (location_city prop, location_country prop) ]} ∪ cities) acc values
  = foldl (fun cities prop =>
             {[ (location_city prop, location_country prop) ]} ∪ cities) acc values'.
Proof.
  intros Hperm. apply set_eq. intros c. rewrite !cities_elem.
  by setoid_rewrite Hperm.
Qed.

(** X25.  What [list_cities] returns does not depend on the order in which the
    dictionary of properties is read. *)
Theorem list_cities_any_order (values values' : list Listing) :
  values ≡ₚ values' → list_cities values = list_cities values'.
Proof.
  intros Hperm. unfold list_cities. by rewrite (cities_perm values values' ∅ Hperm).
Qed.

Lemma list_cities_any_order_witness :
  list_cities [sample_listing; lyon_listing] = list_cities [lyon_listing; sample_listing].
Proof.
  apply (list_cities_any_order [sample_listing; lyon_listing]
           [lyon_listing; sample_listing]).
  apply Permutation_swap.
Defined.

Lemma sorted_by_date_desc_sorted l :
  StronglySorted (fun a b => review_date b <= review_date a) (sorted_by_date_desc l).
Proof.
  induction l as [|x l IH]; simpl; [constructor|]. by apply insert_review_sorted.
Qed.

Lemma strictly_sorted_by_date l :
  StronglySorted (fun a b : Review => review_date b <= review_date a) l →
  (∀ r1 r2, r1 ∈ l → r2 ∈ l → review_date r1 = review_date r2 → r1 = r2) →
  NoDup l →
  StronglySorted (fun a b : Review => review_date b < review_date a) l.
Proof.
  induction 1 as [|x l Hl IH Hx]; intros Hdates Hnodup; [constructor|].
  apply NoDup_cons in Hnodup as [Hnot Hnodup].
  constructor.
  - apply IH; [|done]. intros r1 r2 H1 H2. apply Hdates; by right.
  - rewrite Forall_forall in Hx |- *. intros y Hy.
    destruct (decide (review_date y = review_date x)) as [Heq|Hne].
    + exfalso. apply Hnot. rewrite <- (Hdates y x); [done|by right|by left|done].
    + specialize (Hx y Hy). simpl in Hx. lia.
Qed.

(** X26.  When the reviews are distinct and no two reviews of the property have
    the same date, what [get_property_reviews] returns does not depend on the
    order in which the dictionary of reviews is read. *)
Theorem get_property_reviews_any_order (values values' : list Review) (pid : string) :
  values ≡ₚ values' →
  NoDup values →
  (∀ r1 r2, r1 ∈ values → r2 ∈ values →
            review_property_id r1 = pid → review_property_id r2 = pid →
            review_date r1 = review_date r2 → r1 = r2) →
  get_property_reviews values pid = get_property_reviews values' pid.
Proof.
  intros Hperm Hnodup Hdates.
  assert (∀ vs, vs ≡ₚ values →
            StronglySorted (fun a b : Review => review_date b < review_date a)
              (get_property_reviews vs pid)) as Hsorted.
  { intros vs Hvs. apply strictly_sorted_by_date.
    - apply sorted_by_date_desc_sorted.
    - intros r1 r2 [H1 P1]%get_property_reviews_elem [H2 P2]%get_property_reviews_elem.
      rewrite Hvs in H1, H2. by apply Hdates.
    - unfold get_property_reviews. rewrite sorted_by_date_desc_perm.
      apply NoDup_filter. by rewrite Hvs. }
  apply (strictly_sorted_unique (fun a b : Review => review_date b < review_date a)).
  - intros x. lia.
  - intros x y z. lia.
  - by apply Hsorted.
  - apply Hsorted. by symmetry.
  - intros x. rewrite !get_property_reviews_elem. by rewrite Hperm.
Qed.

Lemma get_property_reviews_any_order_witness :
  get_property_reviews
    [mkReview "REV001" "BOOK0003" "user1" "U1" 5 "great" may_15 0;
     mkReview "REV002" "BOOK0003" "user1" "U1" 1 "on second thought" (may_15 + 1) 0] "U1"
  = get_property_reviews
      [mkReview "REV002" "BOOK0003" "user1" "U1" 1 "on second thought" (may_15 + 1) 0;
       mkReview "REV001" "BOOK0003" "user1" "U1" 5 "great" may_15 0] "U1".
Proof.
  apply (get_property_reviews_any_order
           [mkReview "REV001" "BOOK0003" "user1" "U1" 5 "great" may_15 0;
            mkReview "REV002" "BOOK0003" "user1" "U1" 1 "on second thought"
              (may_15 + 1) 0]
           [mkReview "REV002" "BOOK0003" "user1" "U1" 1 "on second thought"
              (may_15 + 1) 0;
            mkReview "REV001" "BOOK0003" "user1" "U1" 5 "great" may_15 0] "U1").
  - apply Permutation_swap.
  - apply NoDup_cons. split; [|apply NoDup_singleton].
    by intros [= ]%list_elem_of_singleton.
  - intros r1 r2 H1 H2 _ _ Hd.
    apply elem_of_cons in H1 as [->|H1]; [|apply list_elem_of_singleton in H1 as ->];
      (apply elem_of_cons in H2 as [->|H2]; [|apply list_elem_of_singleton in H2 as ->]);
      try done; simpl in Hd; lia.
Defined.
